(** * Todoist AI chat: the tool-calling loop of [TodoistAIChat]

    A shallow embedding of the class [TodoistAIChat] (TypeScript) and the
    properties of its orchestration loop: schema cleaning for the model's
    function declarations, tool calls with reconnect and retry, the relay
    of tool results, the conversation history and the reentrancy guard of
    the console handler.

    The methods of the class are written as programs over its mutable
    fields, with the calls to the MCP server and to the model as requests
    that suspend the program ([prog]).  Two semantics run them: [run]
    settles every request at once from a description of the outside world
    and is used for the single call and the single turn; [step] is the
    event loop, where console lines and settled promises arrive in any
    order, and is used for the guard. *)

From Stdlib Require Import ZArith List String Ascii Bool Lia Arith.
From Stdlib Require Import DecimalString.
Import ListNotations.

Local Open Scope string_scope.
Local Open Scope list_scope.
Local Open Scope Z_scope.

Set Warnings "-register-all".

(** ** JavaScript values

    The values that travel through the program untyped ([any]): tool
    arguments, tool results and JSON schemas.  An object is its sequence of
    own enumerable data properties, in property order; numbers are the
    integer-valued ones. *)

Inductive JsValue : Type :=
| JUndefined
| JNull
| JBool (b : bool)
| JNum (n : Z)
| JStr (s : string)
| JArr (elems : list JsValue)
| JObj (fields : list (string * JsValue)).

Module Js.

(** [!!v]: the values JavaScript treats as true. *)
Definition truthy (v : JsValue) : bool :=
  match v with
  | JUndefined | JNull => false
  | JBool b => b
  | JNum n => negb (n =? 0)
  | JStr s => negb (s =? "")%string
  | JArr _ | JObj _ => true
  end.

(** [typeof v === 'object'] *)
Definition typeofObject (v : JsValue) : bool :=
  match v with
  | JNull | JArr _ | JObj _ => true
  | _ => false
  end.

(** The property key of array index [i]. *)
Definition indexKey (i : nat) : string :=
  NilEmpty.string_of_uint (Nat.to_uint i).

Fixpoint indexedFrom {A : Type} (i : nat) (l : list A) : list (string * A) :=
  match l with
  | [] => []
  | x :: l' => (indexKey i, x) :: indexedFrom (S i) l'
  end.

Fixpoint chars (s : string) : list JsValue :=
  match s with
  | EmptyString => []
  | String c s' => JStr (String c EmptyString) :: chars s'
  end.

(** [Object.entries(v)], which is also what [{...v}] copies: the own
    enumerable properties of an object, the indexed elements of an array
    or of a string, nothing for the other primitives. *)
Definition entries (v : JsValue) : list (string * JsValue) :=
  match v with
  | JObj fields => fields
  | JArr elems => indexedFrom 0 elems
  | JStr s => indexedFrom 0 (chars s)
  | _ => []
  end.

(** [o[key]] on a property list: the property, or [undefined]. *)
Fixpoint get (fields : list (string * JsValue)) (key : string) : JsValue :=
  match fields with
  | [] => JUndefined
  | (k, v) :: rest => if (k =? key)%string then v else get rest key
  end.

(** [delete o[key]] *)
Definition delete (key : string) (fields : list (string * JsValue))
  : list (string * JsValue) :=
  filter (fun kv => negb (fst kv =? key)%string) fields.

(** [o[key] = v]: an existing property keeps its place, a new one goes
    last. *)
Fixpoint set (fields : list (string * JsValue)) (key : string) (v : JsValue)
  : list (string * JsValue) :=
  match fields with
  | [] => [(key, v)]
  | (k, x) :: rest =>
      if (k =? key)%string then (k, v) :: rest else (k, x) :: set rest key v
  end.

Definition keys (fields : list (string * JsValue)) : list string :=
  map fst fields.

Definition hasOwn (v : JsValue) (key : string) : bool :=
  existsb (fun k => (k =? key)%string) (keys (entries v)).

(** [v.key] for the plain data properties the program reads. *)
Definition prop (v : JsValue) (key : string) : JsValue :=
  get (entries v) key.

(** Nesting depth, the measure of the recursion over a schema. *)
Fixpoint depth (v : JsValue) : nat :=
  match v with
  | JArr elems =>
      S ((fix go (l : list JsValue) : nat :=
            match l with
            | [] => O
            | x :: l' => Nat.max (depth x) (go l')
            end) elems)
  | JObj fields =>
      S ((fix go (l : list (string * JsValue)) : nat :=
            match l with
            | [] => O
            | kv :: l' => Nat.max (depth (snd kv)) (go l')
            end) fields)
  | _ => O
  end.

End Js.

(** ** ToolCatalogAdapter: [cleanSchemaForGemini] *)

Definition schemaMarker : string := "$schema".
Definition additionalPropertiesFlag : string := "additionalProperties".

(** The key that names the prototype of a plain object.  The assignment
    [cleanedProperties[key] = ...] on the object literal [{}] goes to the
    setter of [Object.prototype] when [key] is [__proto__]: it makes no
    property of the object. *)
Definition protoKey : string := "__proto__".

Definition makesProperty (key : string) : bool :=
  negb (key =? protoKey)%string.

(** The body of [cleanSchemaForGemini], with [recur] for the recursive
    calls [this.cleanSchemaForGemini(...)]. *)
Definition cleanSchemaBody (recur : JsValue -> JsValue) (schema : JsValue) : JsValue :=
  if negb (Js.truthy schema) || negb (Js.typeofObject schema) then schema
  else
    (* const cleaned = { ...schema } *)
    let cleaned := Js.entries schema in
    let cleaned := Js.delete schemaMarker cleaned in
    let cleaned := Js.delete additionalPropertiesFlag cleaned in
    let cleaned :=
      if Js.truthy (Js.get cleaned "properties") then
        (* for (const [key, value] of Object.entries(cleaned.properties))
             cleanedProperties[key] = this.cleanSchemaForGemini(value) *)
        let cleanedProperties :=
          map (fun kv => (fst kv, recur (snd kv)))
              (filter (fun kv => makesProperty (fst kv))
                      (Js.entries (Js.get cleaned "properties"))) in
        Js.set cleaned "properties" (JObj cleanedProperties)
      else cleaned in
    let cleaned :=
      if Js.truthy (Js.get cleaned "items") then
        Js.set cleaned "items" (recur (Js.get cleaned "items"))
      else cleaned in
    JObj cleaned.

(** The recursion, bounded by [fuel]; [cleanSchemaForGemini] gives it more
    than the nesting depth of the schema, which is all it can use
    ([cleanSchemaForGemini_unfold] below). *)
Fixpoint cleanSchemaFuel (fuel : nat) (schema : JsValue) : JsValue :=
  match fuel with
  | O => schema
  | S fuel' => cleanSchemaBody (cleanSchemaFuel fuel') schema
  end.

Definition cleanSchemaForGemini (schema : JsValue) : JsValue :=
  cleanSchemaFuel (S (Js.depth schema)) schema.

(** The schemas met by the traversal of [cleanSchemaForGemini]: the schema
    itself, the value of every key of its [properties], its [items], and so
    on from each of them. *)
Inductive Reaches : JsValue -> JsValue -> Prop :=
| Reaches_here : forall v, Reaches v v
| Reaches_property : forall v k c d,
    In (k, c) (Js.entries (Js.prop v "properties")) ->
    Reaches c d -> Reaches v d
| Reaches_items : forall v d,
    Reaches (Js.prop v "items") d -> Reaches v d.

(** The inputs on which [cleanSchemaForGemini] does its work: the guard
    [!schema || typeof schema !== 'object'] fails. *)
Definition isSchemaObject (schema : JsValue) : bool :=
  Js.truthy schema && Js.typeofObject schema.

(** A key that is not an array index: it starts with a character other
    than a digit. *)
Definition namedKey (key : string) : bool :=
  match key with
  | EmptyString => false
  | String c _ =>
      negb ((48 <=? Z.of_nat (nat_of_ascii c)) && (Z.of_nat (nat_of_ascii c) <=? 57))
  end.

(** The fields [cleanSchemaForGemini] touches. *)
Definition cleanedKey (key : string) : bool :=
  (key =? schemaMarker)%string || (key =? additionalPropertiesFlag)%string
  || (key =? "properties")%string || (key =? "items")%string.

Definition metadataKey (key : string) : bool :=
  (key =? schemaMarker)%string || (key =? additionalPropertiesFlag)%string.

(** A tool schema as the MCP server sends them: metadata at the top and
    inside [properties] and [items]. *)
Definition sampleSchema : JsValue :=
  JObj [("$schema", JStr "http://json-schema.org/draft-07/schema#");
        ("type", JStr "object");
        ("properties",
          JObj [("labels",
                  JObj [("type", JStr "array");
                        ("items", JObj [("type", JStr "string");
                                        ("additionalProperties", JBool false)])]);
                ("content", JObj [("type", JStr "string"); ("$schema", JStr "x")])]);
        ("additionalProperties", JBool false);
        ("required", JArr [JStr "content"])].

(** ** Strings as the program uses them

    A character is a code point below 256. *)

Module Str.

Definition code (c : ascii) : Z := Z.of_nat (nat_of_ascii c).

(** The white space and line terminators [trim] removes. *)
Definition isSpace (c : ascii) : bool :=
  let n := code c in
  ((9 <=? n) && (n <=? 13)) || (n =? 32) || (n =? 160).

Fixpoint trimStart (s : string) : string :=
  match s with
  | EmptyString => EmptyString
  | String c s' => if isSpace c then trimStart s' else s
  end.

Fixpoint trimEnd (s : string) : string :=
  match s with
  | EmptyString => EmptyString
  | String c s' =>
      match trimEnd s' with
      | EmptyString => if isSpace c then EmptyString else String c EmptyString
      | t => String c t
      end
  end.

(** [s.trim()] *)
Definition trim (s : string) : string := trimEnd (trimStart s).

Definition lowerChar (c : ascii) : ascii :=
  let n := code c in
  if ((65 <=? n) && (n <=? 90))
     || ((192 <=? n) && (n <=? 222) && negb (n =? 215))
  then ascii_of_nat (nat_of_ascii c + 32)
  else c.

(** [s.toLowerCase()] *)
Fixpoint toLowerCase (s : string) : string :=
  match s with
  | EmptyString => EmptyString
  | String c s' => String (lowerChar c) (toLowerCase s')
  end.

(** [s.includes(sub)] *)
Fixpoint includes (s sub : string) : bool :=
  if String.prefix sub s then true
  else match s with
       | EmptyString => false
       | String _ s' => includes s' sub
       end.

(** [parts.join(sep)] *)
Definition join (sep : string) (parts : list string) : string :=
  String.concat sep parts.

(** [`${n}`] for an integer. *)
Definition ofZ (n : Z) : string := NilZero.string_of_int (Z.to_int n).

Definition newline : string := String (ascii_of_nat 10) EmptyString.

(** [text && text.trim()] as a condition. *)
Definition nonBlank (text : string) : bool :=
  negb (text =? "")%string && negb (trim text =? "")%string.

End Str.

(** ** The data of the chat *)

(** A connection, a transport or a chat session, by identity. *)
Definition handle : Type := nat.

(** What a [throw] carries: an [Error] with its message, or any other
    value, kept as [String(value)]. *)
Inductive thrown : Type :=
| JsError (message : string)
| JsOther (text : string).

(** [error instanceof Error ? error.message : String(error)] *)
Definition errorMessage (error : thrown) : string :=
  match error with
  | JsError message => message
  | JsOther text => text
  end.

(** interface MCPTool *)
Record MCPTool : Type := mkMCPTool {
  tool_name : string;
  tool_description : string;
  tool_inputSchema : JsValue
}.

(** An entry of the reply of [listTools()]; the description is optional. *)
Record ListedTool : Type := mkListedTool {
  listed_name : string;
  listed_description : option string;
  listed_inputSchema : JsValue
}.

(** The result of [callTool]. *)
Record ToolResult : Type := mkToolResult { result_content : JsValue }.

(** A function call requested by the model. *)
Record FunctionCall : Type := mkFunctionCall {
  call_name : string;
  call_args : JsValue
}.

(** What the program reads of [result.response]: [text()] and
    [functionCalls()], the latter possibly [undefined]. *)
Record ModelResponse : Type := mkModelResponse {
  response_text : string;
  response_functionCalls : option (list FunctionCall)
}.

(** An element of [functionResponses]. *)
Record FunctionResponse : Type := mkFunctionResponse {
  fr_name : string;
  fr_response : JsValue
}.

(** What is given to [chat.sendMessage]: the user's text, or a list of
    [{ functionResponse: { name, response } }] parts. *)
Inductive Message : Type :=
| UserText (text : string)
| FunctionResponseParts (parts : list FunctionResponse).

Inductive Role : Type := RoleUser | RoleModel.

(** An entry of [conversationHistory]: [{ role, parts: [{ text }] }]. *)
Record Turn : Type := mkTurn { turn_role : Role; turn_text : string }.

Record FunctionDeclaration : Type := mkFunctionDeclaration {
  decl_name : string;
  decl_description : string;
  decl_parameters : JsValue
}.

(** The system prompt: the fixed template with the values substituted in
    it, the tool list and the four dates. *)
Record SystemPrompt : Type := mkSystemPrompt {
  prompt_toolDescriptions : string;
  prompt_today : string;
  prompt_tomorrow : string;
  prompt_nextWeek : string;
  prompt_yesterday : string
}.

(** Objects the program constructs. *)
Inductive construction : Type :=
| NewTransport                          (* new StreamableHTTPClientTransport(...) *)
| NewClient                             (* new Client({ name, version }) *)
| NewChat (declarations : list FunctionDeclaration) (system : SystemPrompt).
                                        (* modelWithTools.startChat({ systemInstruction }) *)

(** The asynchronous calls to the tool service and to the model. *)
Inductive request : Type :=
| CallTool (client : handle) (name : string) (args : JsValue)
| CloseClient (client : handle)
| CloseTransport (transport : handle)
| Connect (client transport : handle)
| ListTools (client : handle)
| SendMessage (chat : handle) (message : Message).

Definition response (r : request) : Type :=
  match r with
  | CallTool _ _ _ => ToolResult
  | CloseClient _ | CloseTransport _ | Connect _ _ => unit
  | ListTools _ => list ListedTool
  | SendMessage _ _ => ModelResponse
  end.

(** How a promise settles. *)
Inductive settled (A : Type) : Type :=
| Fulfilled (value : A)
| Rejected (reason : thrown).
Arguments Fulfilled {A} value.
Arguments Rejected {A} reason.

(** The lines written to the console, one constructor per message of the
    program. *)
Inductive ConsoleLine : Type :=
| LogConnecting                         (* Connecting to Todoist MCP server ... *)
| LogConnected (tools : nat)            (* Connected ... with n tools available *)
| LogAvailableTools (names : string)    (* Available tools: ... *)
| ErrConnectFailed (error : thrown)     (* Failed to connect to Todoist MCP server *)
| LogCheckInternet                      (* Make sure you have internet access ... *)
| LogReconnecting                       (* Reconnecting to Todoist MCP server... *)
| WarnCloseClient (error : thrown)      (* Failed to close MCP client during reconnection *)
| WarnCloseTransport (error : thrown)   (* Failed to close MCP transport during reconnection *)
| LogGoodbye                            (* Goodbye! *)
| LogHistoryHeader                      (* Conversation History: *)
| LogText (text : string)               (* console.log(text) *)
| LogBusy                               (* Please wait, processing previous request... *)
| ErrProcessing (error : thrown)        (* Error processing your request *)
| Prompt                                (* rl.prompt() *)
| LogProcessing                         (* AI: Processing your request... *)
| WarnEmptyInitial                      (* Warning: Empty initial response from AI *)
| DebugInitial (r : ModelResponse)      (* Debug: Initial response object *)
| ErrGemini (error : thrown)            (* Error communicating with Gemini *)
| LogConnectionLost (attempt total : Z) (* Connection lost, attempting to reconnect (attempt a/t)... *)
| LogReconnected                        (* Reconnection successful, retrying tool call... *)
| ErrReconnectFailed (error : thrown)   (* Failed to reconnect *)
| LogUsingTools                         (* AI is using tools to help with your request... *)
| LogExecuting (name : string)          (* Executing: name *)
| ErrTool (name message : string)       (* Error executing tool name: message *)
| LogAI (text : string)                 (* AI: text *)
| LogEmptyResponse                      (* AI: [Empty response received] *)
| DebugResponse (r : ModelResponse)     (* Debug: Response object *)
| LogCleared                            (* Conversation history cleared! *)
| LogTesting                            (* Testing task finding with different date formats... *)
| LogTest (number : nat) (label : string)  (* Test n: ... *)
| LogTestResult (number : nat) (result : ToolResult)
| ErrTesting (error : thrown).          (* Error during testing *)

(** The fields of [TodoistAIChat] that change after [initialize]. *)
Record This : Type := mkThis {
  mcpClient : option handle;
  mcpTransport : option handle;
  availableTools : list MCPTool;
  isProcessingRequest : bool;
  conversationHistory : list Turn;
  currentChat : option handle
}.

Definition set_mcpClient (v : option handle) (s : This) : This :=
  mkThis v (mcpTransport s) (availableTools s) (isProcessingRequest s)
         (conversationHistory s) (currentChat s).
Definition set_mcpTransport (v : option handle) (s : This) : This :=
  mkThis (mcpClient s) v (availableTools s) (isProcessingRequest s)
         (conversationHistory s) (currentChat s).
Definition set_availableTools (v : list MCPTool) (s : This) : This :=
  mkThis (mcpClient s) (mcpTransport s) v (isProcessingRequest s)
         (conversationHistory s) (currentChat s).
Definition set_isProcessingRequest (v : bool) (s : This) : This :=
  mkThis (mcpClient s) (mcpTransport s) (availableTools s) v
         (conversationHistory s) (currentChat s).
Definition set_conversationHistory (v : list Turn) (s : This) : This :=
  mkThis (mcpClient s) (mcpTransport s) (availableTools s) (isProcessingRequest s)
         v (currentChat s).
Definition set_currentChat (v : option handle) (s : This) : This :=
  mkThis (mcpClient s) (mcpTransport s) (availableTools s) (isProcessingRequest s)
         (conversationHistory s) v.

(** ** Asynchronous programs

    A method of the class is a tree of its effects: reads and writes of
    the fields, console output, object construction, the clock, and
    [Await], where the method is suspended until the promise of a request
    settles.  What runs between two [Await]s runs without interruption. *)

Inductive prog (A : Type) : Type :=
| Ret (a : A)
| Throw (error : thrown)
| Exit                                                   (* process.exit(0) *)
| GetThis (k : This -> prog A)
| Modify (f : This -> This) (k : prog A)
| Print (line : ConsoleLine) (k : prog A)
| Construct (c : construction) (k : handle -> prog A)
| Today (k : (Z -> string) -> prog A)
| Await (r : request) (k : settled (response r) -> prog A).

Arguments Ret {A} a.
Arguments Throw {A} error.
Arguments Exit {A}.
Arguments GetThis {A} k.
Arguments Modify {A} f k.
Arguments Print {A} line k.
Arguments Construct {A} c k.
Arguments Today {A} k.
Arguments Await {A} r k.

Fixpoint bind {A B : Type} (p : prog A) (f : A -> prog B) : prog B :=
  match p with
  | Ret a => f a
  | Throw e => Throw e
  | Exit => Exit
  | GetThis k => GetThis (fun s => bind (k s) f)
  | Modify g k => Modify g (bind k f)
  | Print l k => Print l (bind k f)
  | Construct c k => Construct c (fun h => bind (k h) f)
  | Today k => Today (fun d => bind (k d) f)
  | Await r k => Await r (fun o => bind (k o) f)
  end.

(** [try { p } catch (error) { handler error }] *)
Fixpoint tryCatch {A : Type} (p : prog A) (handler : thrown -> prog A) : prog A :=
  match p with
  | Ret a => Ret a
  | Throw e => handler e
  | Exit => Exit
  | GetThis k => GetThis (fun s => tryCatch (k s) handler)
  | Modify g k => Modify g (tryCatch k handler)
  | Print l k => Print l (tryCatch k handler)
  | Construct c k => Construct c (fun h => tryCatch (k h) handler)
  | Today k => Today (fun d => tryCatch (k d) handler)
  | Await r k => Await r (fun o => tryCatch (k o) handler)
  end.

(** [try { p } finally { cleanup }] *)
Fixpoint tryFinally {A : Type} (p : prog A) (cleanup : prog unit) : prog A :=
  match p with
  | Ret a => bind cleanup (fun _ => Ret a)
  | Throw e => bind cleanup (fun _ => Throw e)
  | Exit => Exit
  | GetThis k => GetThis (fun s => tryFinally (k s) cleanup)
  | Modify g k => Modify g (tryFinally k cleanup)
  | Print l k => Print l (tryFinally k cleanup)
  | Construct c k => Construct c (fun h => tryFinally (k h) cleanup)
  | Today k => Today (fun d => tryFinally (k d) cleanup)
  | Await r k => Await r (fun o => tryFinally (k o) cleanup)
  end.

Declare Scope prog_scope.
Delimit Scope prog_scope with prog.
Notation "x <- p ;; q" := (bind p (fun x => q))
  (at level 61, p at next level, right associativity) : prog_scope.
Notation "p ;; q" := (bind p (fun _ => q))
  (at level 61, right associativity) : prog_scope.
Local Open Scope prog_scope.

Definition getThis : prog This := GetThis (fun s => Ret s).
Definition modify (f : This -> This) : prog unit := Modify f (Ret tt).
Definition say (line : ConsoleLine) : prog unit := Print line (Ret tt).
Definition construct (c : construction) : prog handle := Construct c (fun h => Ret h).
Definition today : prog (Z -> string) := Today (fun d => Ret d).

(** [await request]: the value of the promise, or its rejection thrown. *)
Definition await (r : request) : prog (response r) :=
  Await r (fun o => match o with
                    | Fulfilled v => Ret v
                    | Rejected e => Throw e
                    end).

(** A method call on a field that holds [null]. *)
Definition nullDereference : thrown :=
  JsError "Cannot read properties of null".

(** ** ConnectionManager: [ensureMCPConnection], [reconnectMCP] *)

Definition adoptTool (tool : ListedTool) : MCPTool :=
  mkMCPTool (listed_name tool)
            (match listed_description tool with   (* tool.description || '' *)
             | Some d => d
             | None => ""
             end)
            (listed_inputSchema tool).

Definition ensureMCPConnection : prog unit :=
  tryCatch
    (say LogConnecting ;;
     (* Create fresh transport and client *)
     transport <- construct NewTransport ;;
     modify (set_mcpTransport (Some transport)) ;;
     client <- construct NewClient ;;
     modify (set_mcpClient (Some client)) ;;
     await (Connect client transport) ;;
     (* Get available tools from the MCP server *)
     s <- getThis ;;
     match mcpClient s with
     | None => Throw nullDereference
     | Some client' =>
         toolsResult <- await (ListTools client') ;;
         modify (set_availableTools (map adoptTool toolsResult)) ;;
         s' <- getThis ;;
         say (LogConnected (List.length (availableTools s'))) ;;
         say (LogAvailableTools (Str.join ", " (map tool_name (availableTools s'))))
     end)
    (fun error =>
       say (ErrConnectFailed error) ;;
       say LogCheckInternet ;;
       Throw error).

(** The two clean-up blocks of [reconnectMCP]: close what is there, and
    swallow the failure with a warning. *)
Definition closeClientQuietly : prog unit :=
  s <- getThis ;;
  match mcpClient s with
  | Some client =>
      tryCatch (await (CloseClient client)) (fun e => say (WarnCloseClient e))
  | None => Ret tt
  end.

Definition closeTransportQuietly : prog unit :=
  s <- getThis ;;
  match mcpTransport s with
  | Some transport =>
      tryCatch (await (CloseTransport transport)) (fun e => say (WarnCloseTransport e))
  | None => Ret tt
  end.

Definition reconnectMCP : prog unit :=
  say LogReconnecting ;;
  (* Clean up existing connection *)
  closeClientQuietly ;;
  closeTransportQuietly ;;
  (* Re-establish connection *)
  ensureMCPConnection.

(** ** ToolInvoker: [callToolWithRetry] *)

Definition isConnectionError (errorMessage : string) : bool :=
  Str.includes errorMessage "No transport found for sessionId"
  || Str.includes errorMessage "HTTP 404"
  || Str.includes errorMessage "connection".

(** [`Failed to execute ${toolName} after ${maxRetries + 1} attempts`] *)
Definition failedAfter (toolName : string) (maxRetries : Z) : string :=
  ("Failed to execute " ++ toolName ++ " after " ++ Str.ofZ (maxRetries + 1)
   ++ " attempts")%string.

(** One turn of the [for] loop.  [Some result] is [return result]; [None]
    is the end of the loop body, reached by [continue] or by falling out
    of the [catch] blocks. *)
Definition callToolAttempt (toolName : string) (args : JsValue)
    (maxRetries attempt : Z) : prog (option ToolResult) :=
  tryCatch
    (s <- getThis ;;
     match mcpClient s with
     | None => Throw (JsError "MCP client not initialized")
     | Some client =>
         result <- await (CallTool client toolName args) ;;
         Ret (Some result)
     end)
    (fun error =>
       let errorMessage := errorMessage error in
       let isConnectionError := isConnectionError errorMessage in
       if isConnectionError && (attempt <? maxRetries) then
         say (LogConnectionLost (attempt + 1) (maxRetries + 1)) ;;
         tryCatch
           (reconnectMCP ;;
            say LogReconnected ;;
            Ret None)                   (* continue: retry with new connection *)
           (fun reconnectError =>
              say (ErrReconnectFailed reconnectError) ;;
              if attempt =? maxRetries then
                Throw (JsError (failedAfter toolName maxRetries ++ ": " ++ errorMessage)%string)
              else Ret None)
       else
         Throw error).                  (* non-connection errors, or max retries reached *)

(** [for (let attempt = 0; attempt <= maxRetries; attempt++)] from
    [attempt] on, then the [throw] after the loop.  [fuel] bounds the
    number of turns. *)
Fixpoint callToolLoop (fuel : nat) (toolName : string) (args : JsValue)
    (maxRetries attempt : Z) : prog ToolResult :=
  match fuel with
  | O => Throw (JsError (failedAfter toolName maxRetries))
  | S fuel' =>
      if attempt <=? maxRetries then
        outcome <- callToolAttempt toolName args maxRetries attempt ;;
        match outcome with
        | Some result => Ret result
        | None => callToolLoop fuel' toolName args maxRetries (attempt + 1)
        end
      else Throw (JsError (failedAfter toolName maxRetries))
  end.

Definition callToolWithRetry (toolName : string) (args : JsValue)
    (maxRetries : Z) : prog ToolResult :=
  callToolLoop (Z.to_nat (maxRetries + 1)) toolName args maxRetries 0.

(** The default of the parameter [maxRetries]. *)
Definition defaultMaxRetries : Z := 2.

(** ** ConversationOrchestrator *)

Definition pushHistory (role : Role) (text : string) : prog unit :=
  modify (fun s => set_conversationHistory
                     (conversationHistory s ++ [mkTurn role text]) s).

Definition createSystemPrompt : prog SystemPrompt :=
  s <- getThis ;;
  let toolDescriptions :=
    Str.join Str.newline
      (map (fun tool => ("- " ++ tool_name tool ++ ": " ++ tool_description tool)%string)
           (availableTools s)) in
  day <- today ;;
  Ret (mkSystemPrompt toolDescriptions (day 0) (day 1) (day 7) (day (-1))).

(** [{ content: c }] *)
Definition contentObject (c : JsValue) : JsValue := JObj [("content", c)].

(** [functionCall.args || {}] *)
Definition argsOrEmpty (functionCall : FunctionCall) : JsValue :=
  if Js.truthy (call_args functionCall) then call_args functionCall else JObj [].

(** The two results pushed to [functionResponses]: the content of the tool
    result, or [`Error: ${errorMessage}`]. *)
Definition okResponse (functionCall : FunctionCall) (toolResult : ToolResult)
    : FunctionResponse :=
  mkFunctionResponse (call_name functionCall)
                     (contentObject (result_content toolResult)).

Definition errorResponse (functionCall : FunctionCall) (error : thrown)
    : FunctionResponse :=
  mkFunctionResponse (call_name functionCall)
                     (contentObject (JStr ("Error: " ++ errorMessage error)%string)).

(** The body of the loop [for (const functionCall of functionCalls)] of
    [handleModelResponse]: what it leaves in [functionResponses]. *)
Definition executeFunctionCall (functionCall : FunctionCall)
    (functionResponses : list FunctionResponse) : prog (list FunctionResponse) :=
  tryCatch
    (say (LogExecuting (call_name functionCall)) ;;
     (* Execute the MCP tool with retry logic *)
     toolResult <- callToolWithRetry (call_name functionCall)
                                     (argsOrEmpty functionCall)
                                     defaultMaxRetries ;;
     Ret (functionResponses ++ [okResponse functionCall toolResult]))
    (fun error =>
       say (ErrTool (call_name functionCall) (errorMessage error)) ;;
       Ret (functionResponses ++ [errorResponse functionCall error])).

(** The loop. *)
Fixpoint executeFunctionCalls (functionCalls : list FunctionCall)
    (functionResponses : list FunctionResponse) : prog (list FunctionResponse) :=
  match functionCalls with
  | [] => Ret functionResponses
  | functionCall :: rest =>
      functionResponses' <- executeFunctionCall functionCall functionResponses ;;
      executeFunctionCalls rest functionResponses'
  end.

(** [functionResponses[0]], inside the one part of the follow-up message. *)
Definition followUpMessage (functionResponses : list FunctionResponse) : prog Message :=
  match functionResponses with
  | first :: _ =>
      Ret (FunctionResponseParts [mkFunctionResponse (fr_name first) (fr_response first)])
  | [] => Throw (JsError "Cannot read properties of undefined")
  end.

Definition handleModelResponse (result : ModelResponse) (chat : option handle)
    : prog unit :=
  let response := result in
  (* Check if the model wants to call functions *)
  match response_functionCalls response with
  | Some (functionCall :: rest) =>
      say LogUsingTools ;;
      (* Execute each function call *)
      functionResponses <- executeFunctionCalls (functionCall :: rest) [] ;;
      (* Send function results back to the model for a final response *)
      followUpResult <-
        match chat with
        | None => Throw nullDereference
        | Some c =>
            message <- followUpMessage functionResponses ;;
            await (SendMessage c message)
        end ;;
      (* Update conversation history with the final AI response *)
      let followUpText := response_text followUpResult in
      if Str.nonBlank followUpText then
        pushHistory RoleModel followUpText ;;
        say (LogAI followUpText)
      else say LogEmptyResponse
  | _ =>
      (* No function calls, just display the text response *)
      let responseText := response_text response in
      if Str.nonBlank responseText then say (LogAI responseText)
      else say LogEmptyResponse ;; say (DebugResponse response)
  end.

Definition processUserInput (userInput : string) : prog unit :=
  say LogProcessing ;;
  tryCatch
    (s <- getThis ;;
     (* Convert MCP tools to Gemini function declarations *)
     let functionDeclarations :=
       map (fun tool => mkFunctionDeclaration
                          (tool_name tool) (tool_description tool)
                          (cleanSchemaForGemini (tool_inputSchema tool)))
           (availableTools s) in
     (* Create system instruction *)
     systemInstruction <- createSystemPrompt ;;
     (* Initialize chat session only once if it doesn't exist *)
     match currentChat s with
     | None =>
         chat <- construct (NewChat functionDeclarations systemInstruction) ;;
         modify (set_currentChat (Some chat))
     | Some _ => Ret tt
     end ;;
     (* Add user message to conversation history *)
     pushHistory RoleUser userInput ;;
     (* Send the user's message *)
     s' <- getThis ;;
     result <- match currentChat s' with
               | None => Throw nullDereference
               | Some chat => await (SendMessage chat (UserText userInput))
               end ;;
     let responseText := response_text result in
     (if Str.nonBlank responseText then
        (* Add AI response to conversation history *)
        pushHistory RoleModel responseText
      else
        say WarnEmptyInitial ;; say (DebugInitial result)) ;;
     (* Handle the response, which may include function calls *)
     s'' <- getThis ;;
     handleModelResponse result (currentChat s''))
    (fun error => say (ErrGemini error)).

(** ** ConversationState *)

Fixpoint numberedFrom (index : nat) (history : list Turn) : list string :=
  match history with
  | [] => []
  | msg :: rest =>
      let role := match turn_role msg with RoleUser => "You" | RoleModel => "AI" end in
      let content := if (turn_text msg =? "")%string then "No content"
                     else turn_text msg in
      (Str.ofZ (Z.of_nat index + 1) ++ ". " ++ role ++ ": " ++ content)%string
        :: numberedFrom (S index) rest
  end.

Definition getConversationContext (s : This) : string :=
  match conversationHistory s with
  | [] => "No conversation history yet."
  | history => Str.join (Str.newline ++ Str.newline)%string (numberedFrom 0 history)
  end.

Definition clearConversationHistory : prog unit :=
  modify (set_conversationHistory []) ;;
  modify (set_currentChat None) ;;
  say LogCleared.

(** ** The console: [testTaskFinding] and the line handler of [startChat] *)

Definition limit10 : string * JsValue := ("limit", JNum 10).

Definition testTaskFinding : prog unit :=
  say LogTesting ;;
  tryCatch
    (say (LogTest 1 "today") ;;
     todayResult <- callToolWithRetry "find-tasks-by-date"
                      (JObj [("startDate", JStr "today"); limit10]) defaultMaxRetries ;;
     say (LogTestResult 1 todayResult) ;;
     day <- today ;;
     let todayDate := day 0 in
     say (LogTest 2 todayDate) ;;
     todayDateResult <- callToolWithRetry "find-tasks-by-date"
                          (JObj [("startDate", JStr todayDate); limit10]) defaultMaxRetries ;;
     say (LogTestResult 2 todayDateResult) ;;
     day' <- today ;;
     let tomorrowDate := day' 1 in
     say (LogTest 3 tomorrowDate) ;;
     tomorrowResult <- callToolWithRetry "find-tasks-by-date"
                         (JObj [("startDate", JStr tomorrowDate); limit10]) defaultMaxRetries ;;
     say (LogTestResult 3 tomorrowResult) ;;
     say (LogTest 4 "find-tasks with search") ;;
     searchResult <- callToolWithRetry "find-tasks"
                       (JObj [("searchText", JStr "due:today"); limit10]) defaultMaxRetries ;;
     say (LogTestResult 4 searchResult) ;;
     say (LogTest 5 "overdue") ;;
     overdueResult <- callToolWithRetry "find-tasks-by-date"
                        (JObj [("startDate", JStr "overdue"); limit10]) defaultMaxRetries ;;
     say (LogTestResult 5 overdueResult) ;;
     say (LogTest 6 todayDate) ;;
     weekResult <- callToolWithRetry "find-tasks-by-date"
                     (JObj [("startDate", JStr todayDate); ("daysCount", JNum 7); limit10])
                     defaultMaxRetries ;;
     say (LogTestResult 6 weekResult) ;;
     say (LogTest 7 "any tasks") ;;
     anyTasksResult <- callToolWithRetry "find-tasks" (JObj [limit10]) defaultMaxRetries ;;
     say (LogTestResult 7 anyTasksResult) ;;
     say (LogTest 8 "broader search") ;;
     broaderResult <- callToolWithRetry "find-tasks"
                        (JObj [("searchText", JStr "task"); limit10]) defaultMaxRetries ;;
     say (LogTestResult 8 broaderResult))
    (fun error => say (ErrTesting error)).

(** [rl.on('close', ...)] *)
Definition onClose : prog unit :=
  say LogGoodbye ;; Exit.

(** The commands of the console, as the handler tells them apart. *)
Inductive Command : Type :=
| CmdExit | CmdEmpty | CmdHistory | CmdClear | CmdTest | FreeText (userInput : string).

Definition classify (input : string) : Command :=
  let userInput := Str.trim input in
  if (Str.toLowerCase userInput =? "exit")%string
     || (Str.toLowerCase userInput =? "quit")%string then CmdExit
  else if (userInput =? "")%string then CmdEmpty
  else if (Str.toLowerCase userInput =? "history")%string then CmdHistory
  else if (Str.toLowerCase userInput =? "clear")%string then CmdClear
  else if (Str.toLowerCase userInput =? "test")%string then CmdTest
  else FreeText userInput.

(** The [try]/[catch]/[finally] of the line handler around a turn [body],
    and the prompt after it. *)
Definition guardedTurn (body : prog unit) : prog unit :=
  tryFinally
    (tryCatch body (fun error => say (ErrProcessing error)))
    (modify (set_isProcessingRequest false)) ;;
  say Prompt.

(** [rl.on('line', async (input) => ...)] *)
Definition onLine (input : string) : prog unit :=
  match classify input with
  | CmdExit =>
      say LogGoodbye ;;
      onClose                           (* this.rl?.close() emits 'close' *)
  | CmdEmpty => say Prompt
  | CmdHistory =>
      (* Handle utility commands *)
      say LogHistoryHeader ;;
      s <- getThis ;;
      say (LogText (getConversationContext s)) ;;
      say (LogText "") ;;
      say Prompt
  | CmdClear =>
      clearConversationHistory ;;
      say Prompt
  | CmdTest =>
      testTaskFinding ;;
      say Prompt
  | FreeText userInput =>
      (* Prevent concurrent requests *)
      s <- getThis ;;
      if isProcessingRequest s then
        say LogBusy ;;
        say Prompt
      else
        guardedTurn
          (modify (set_isProcessingRequest true) ;;
           processUserInput userInput)
  end.

(** ** Running a program

    The world outside the program: how the [n]-th request of each kind
    settles, and the day string of the date [d] days from now. *)

Inductive effect : Type :=
| Requested (r : request)
| Constructed (c : construction) (h : handle).

Inductive requestKind : Type :=
| KCallTool | KCloseClient | KCloseTransport | KConnect | KListTools | KSendMessage.

Definition kindOf (r : request) : requestKind :=
  match r with
  | CallTool _ _ _ => KCallTool
  | CloseClient _ => KCloseClient
  | CloseTransport _ => KCloseTransport
  | Connect _ _ => KConnect
  | ListTools _ => KListTools
  | SendMessage _ _ => KSendMessage
  end.

Definition sameKind (k1 k2 : requestKind) : bool :=
  match k1, k2 with
  | KCallTool, KCallTool | KCloseClient, KCloseClient
  | KCloseTransport, KCloseTransport | KConnect, KConnect
  | KListTools, KListTools | KSendMessage, KSendMessage => true
  | _, _ => false
  end.

Definition isRequestOf (k : requestKind) (e : effect) : bool :=
  match e with
  | Requested r => sameKind (kindOf r) k
  | Constructed _ _ => false
  end.

(** How many requests of kind [k] a trace holds. *)
Definition occurrences (k : requestKind) (trace : list effect) : nat :=
  List.length (filter (isRequestOf k) trace).

Record World : Type := mkWorld {
  answer : forall r : request, nat -> settled (response r);
  dayString : Z -> string
}.

(** The state of a run: the fields of the object, the console, the next
    free identity and the effects so far, oldest first. *)
Record Runtime : Type := mkRuntime {
  this : This;
  console : list ConsoleLine;
  nextHandle : handle;
  trace : list effect
}.

Definition onThis (f : This -> This) (rt : Runtime) : Runtime :=
  mkRuntime (f (this rt)) (console rt) (nextHandle rt) (trace rt).
Definition printed (line : ConsoleLine) (rt : Runtime) : Runtime :=
  mkRuntime (this rt) (console rt ++ [line]) (nextHandle rt) (trace rt).
Definition constructed (c : construction) (rt : Runtime) : Runtime :=
  mkRuntime (this rt) (console rt) (S (nextHandle rt))
            (trace rt ++ [Constructed c (nextHandle rt)]).
Definition requested (r : request) (rt : Runtime) : Runtime :=
  mkRuntime (this rt) (console rt) (nextHandle rt) (trace rt ++ [Requested r]).

Inductive completion (A : Type) : Type :=
| Returned (a : A)
| Raised (error : thrown)
| Exited.
Arguments Returned {A} a.
Arguments Raised {A} error.
Arguments Exited {A}.

(** A program run to its end with every promise settled by the world as
    soon as it is awaited. *)
Fixpoint run {A : Type} (w : World) (p : prog A) (rt : Runtime)
  : Runtime * completion A :=
  match p with
  | Ret a => (rt, Returned a)
  | Throw e => (rt, Raised e)
  | Exit => (rt, Exited)
  | GetThis k => run w (k (this rt)) rt
  | Modify f k => run w k (onThis f rt)
  | Print line k => run w k (printed line rt)
  | Construct c k => run w (k (nextHandle rt)) (constructed c rt)
  | Today k => run w (k (dayString w)) rt
  | Await r k =>
      run w (k (answer w r (occurrences (kindOf r) (trace rt)))) (requested r rt)
  end.

(** The requests of a trace, by kind. *)
Definition invocations (rt : Runtime) : nat := occurrences KCallTool (trace rt).
Definition reconnects (rt : Runtime) : nat := occurrences KConnect (trace rt).
Definition listings (rt : Runtime) : nat := occurrences KListTools (trace rt).
Definition messagesSent (rt : Runtime) : nat := occurrences KSendMessage (trace rt).

(** *** Conditions on the world *)

(** The [n]-th tool invocation, of [toolName] with [args], is rejected
    with [error], or returns [result]. *)
Definition invocationFails (w : World) (toolName : string) (args : JsValue)
    (n : nat) (error : thrown) : Prop :=
  forall client, answer w (CallTool client toolName args) n = Rejected error.

Definition invocationReturns (w : World) (toolName : string) (args : JsValue)
    (n : nat) (result : ToolResult) : Prop :=
  forall client, answer w (CallTool client toolName args) n = Fulfilled result.

(** The reconnect that makes the [nConnect]-th connection and the
    [nList]-th tool listing succeeds. *)
Definition reconnectSucceeds (w : World) (nConnect nList : nat) : Prop :=
  (forall client transport, answer w (Connect client transport) nConnect = Fulfilled tt)
  /\ (forall client, exists tools, answer w (ListTools client) nList = Fulfilled tools).

(** What the connection code leaves alone: the guard, the history, the
    model's session and the messages sent to the model. *)
Definition sameConversation (rt rt' : Runtime) : Prop :=
  isProcessingRequest (this rt') = isProcessingRequest (this rt)
  /\ conversationHistory (this rt') = conversationHistory (this rt)
  /\ currentChat (this rt') = currentChat (this rt)
  /\ messagesSent rt' = messagesSent rt.

(** *** Concrete worlds and states *)

(** A world in which the first [failures] tool invocations are rejected
    with [error], the later ones return [result], connections succeed and
    the model answers [reply]. *)
Definition flakyWorld (failures : nat) (error : thrown) (result : ToolResult)
    (reply : ModelResponse) : World :=
  mkWorld
    (fun r n =>
       match r as r0 return settled (response r0) with
       | CallTool _ _ _ =>
           if (n <? failures)%nat then Rejected error else Fulfilled result
       | CloseClient _ => Fulfilled tt
       | CloseTransport _ => Fulfilled tt
       | Connect _ _ => Fulfilled tt
       | ListTools _ => Fulfilled [mkListedTool "find-tasks" None sampleSchema]
       | SendMessage _ _ => Fulfilled reply
       end)
    (fun d => Str.ofZ d).

(** The object once [initialize] has connected: transport 0, client 1. *)
Definition connectedThis : This :=
  mkThis (Some 1%nat) (Some 0%nat) [mkMCPTool "find-tasks" "" sampleSchema]
         false [] None.

Definition connectedRuntime : Runtime := mkRuntime connectedThis [] 2%nat [].

Definition twoTasks : ToolResult := mkToolResult (JArr [JStr "Buy milk"; JStr "Call Ann"]).
Definition todayArgs : JsValue := JObj [("startDate", JStr "today")].
Definition plainReply : ModelResponse := mkModelResponse "You have 2 tasks due today." None.

(** The state in which the loop of [handleModelResponse] reaches its
    [i]-th function call: the one the first [i] calls leave. *)
Definition stateBeforeCall (w : World) (functionCalls : list FunctionCall)
    (functionResponses : list FunctionResponse) (rt : Runtime) (i : nat) : Runtime :=
  fst (run w (executeFunctionCalls (firstn i functionCalls) functionResponses) rt).

(** The tool call the loop makes for [functionCall]. *)
Definition toolCallOf (functionCall : FunctionCall) : prog ToolResult :=
  callToolWithRetry (call_name functionCall) (argsOrEmpty functionCall)
                    defaultMaxRetries.

(** A response of the model that asks for two tool calls. *)
Definition batchCalls : list FunctionCall :=
  [mkFunctionCall "complete-task" (JObj [("id", JStr "42")]);
   mkFunctionCall "find-tasks-by-date" todayArgs].

Definition batchResponse : ModelResponse := mkModelResponse "" (Some batchCalls).

(** The chat session a turn talks to: the cached one, or the one it
    starts, which gets the next free identity. *)
Definition chatFor (rt : Runtime) : handle :=
  match currentChat (this rt) with
  | Some chat => chat
  | None => nextHandle rt
  end.

(** A world in which the model cannot be reached. *)
Definition modelDownWorld : World :=
  mkWorld
    (fun r n =>
       match r as r0 return settled (response r0) with
       | CallTool _ _ _ => Fulfilled twoTasks
       | CloseClient _ => Fulfilled tt
       | CloseTransport _ => Fulfilled tt
       | Connect _ _ => Fulfilled tt
       | ListTools _ => Fulfilled []
       | SendMessage _ _ => Rejected (JsError "fetch failed")
       end)
    (fun d => Str.ofZ d).

(** ** The event loop

    The line handler is an [async] function: it runs until its first
    [await] and is then suspended, while the console goes on delivering
    lines; a suspended handler resumes when its promise settles and runs
    to its next [await] or to its end. *)

(** What a handler has come to when it stops running. *)
Inductive suspension : Type :=
| Finished
| Crashed (error : thrown)              (* an unhandled rejection *)
| Halted                                (* process.exit *)
| Blocked (r : request) (k : settled (response r) -> prog unit).

(** A handler run until it ends or awaits. *)
Fixpoint runSync (day : Z -> string) (p : prog unit) (rt : Runtime)
  : Runtime * suspension :=
  match p with
  | Ret _ => (rt, Finished)
  | Throw e => (rt, Crashed e)
  | Exit => (rt, Halted)
  | GetThis k => runSync day (k (this rt)) rt
  | Modify f k => runSync day k (onThis f rt)
  | Print line k => runSync day k (printed line rt)
  | Construct c k => runSync day (k (nextHandle rt)) (constructed c rt)
  | Today k => runSync day (k day) rt
  | Await r k => (requested r rt, Blocked r k)
  end.

(** A suspended handler: the line it handles, the request it awaits and
    what it does with the outcome. *)
Record Task : Type := mkTask {
  task_input : string;
  task_request : request;
  task_resume : settled (response task_request) -> prog unit
}.

Record Machine : Type := mkMachine {
  m_runtime : Runtime;
  m_tasks : list Task;
  m_exited : bool
}.

(** What happens next: the console delivers a line, or the promise of the
    [i]-th suspended handler settles, with the outcome [outcome] gives for
    its request. *)
Inductive event : Type :=
| Line (input : string)
| Settle (i : nat) (outcome : forall r : request, settled (response r)).

Fixpoint removeAt {A : Type} (i : nat) (l : list A) : list A :=
  match l, i with
  | [], _ => []
  | _ :: l', O => l'
  | x :: l', S i' => x :: removeAt i' l'
  end.

(** The machine after a handler has run: it is suspended again, done, or
    has taken the process down. *)
Definition settleInto (input : string) (others : list Task)
    (outcome : Runtime * suspension) : Machine :=
  match outcome with
  | (rt, Finished) => mkMachine rt others false
  | (rt, Crashed _) => mkMachine rt others true
  | (rt, Halted) => mkMachine rt others true
  | (rt, Blocked r k) => mkMachine rt (others ++ [mkTask input r k]) false
  end.

Definition step (day : Z -> string) (e : event) (m : Machine) : Machine :=
  if m_exited m then m
  else
    match e with
    | Line input =>
        settleInto input (m_tasks m) (runSync day (onLine input) (m_runtime m))
    | Settle i outcome =>
        match nth_error (m_tasks m) i with
        | None => m
        | Some t =>
            settleInto (task_input t) (removeAt i (m_tasks m))
                       (runSync day (task_resume t (outcome (task_request t)))
                                (m_runtime m))
        end
    end.

Fixpoint exec (day : Z -> string) (events : list event) (m : Machine) : Machine :=
  match events with
  | [] => m
  | e :: rest => exec day rest (step day e m)
  end.

(** The machine when [startChat] has installed the handler. *)
Definition booted (m : Machine) : Prop :=
  m_tasks m = []
  /\ m_exited m = false
  /\ isProcessingRequest (this (m_runtime m)) = false.

Definition isFreeText (input : string) : bool :=
  match classify input with
  | FreeText _ => true
  | _ => false
  end.

(** The suspended handlers of free-text lines: the turns in flight. *)
Definition turnsInFlight (m : Machine) : list Task :=
  filter (fun t => isFreeText (task_input t)) (m_tasks m).

Definition busy (m : Machine) : bool := isProcessingRequest (this (m_runtime m)).

(** *** The guard in a program

    [KeepsGuard p]: no assignment in [p] changes [isProcessingRequest].
    [ClearsGuard p]: [p] keeps the guard as it is until its very end,
    where it clears it and prompts. *)

Inductive KeepsGuard {A : Type} : prog A -> Prop :=
| KG_ret : forall a, KeepsGuard (Ret a)
| KG_throw : forall e, KeepsGuard (Throw e)
| KG_exit : KeepsGuard Exit
| KG_get : forall k, (forall s, KeepsGuard (k s)) -> KeepsGuard (GetThis k)
| KG_modify : forall f k,
    (forall s, isProcessingRequest (f s) = isProcessingRequest s) ->
    KeepsGuard k -> KeepsGuard (Modify f k)
| KG_print : forall line k, KeepsGuard k -> KeepsGuard (Print line k)
| KG_construct : forall c k, (forall h, KeepsGuard (k h)) -> KeepsGuard (Construct c k)
| KG_today : forall k, (forall d, KeepsGuard (k d)) -> KeepsGuard (Today k)
| KG_await : forall r k, (forall o, KeepsGuard (k o)) -> KeepsGuard (Await r k).

Inductive ClearsGuard : prog unit -> Prop :=
| CG_done : ClearsGuard (Modify (set_isProcessingRequest false) (Print Prompt (Ret tt)))
| CG_exit : ClearsGuard Exit
| CG_get : forall k, (forall s, ClearsGuard (k s)) -> ClearsGuard (GetThis k)
| CG_modify : forall f k,
    (forall s, isProcessingRequest (f s) = isProcessingRequest s) ->
    ClearsGuard k -> ClearsGuard (Modify f k)
| CG_print : forall line k, ClearsGuard k -> ClearsGuard (Print line k)
| CG_construct : forall c k, (forall h, ClearsGuard (k h)) -> ClearsGuard (Construct c k)
| CG_today : forall k, (forall d, ClearsGuard (k d)) -> ClearsGuard (Today k)
| CG_await : forall r k, (forall o, ClearsGuard (k o)) -> ClearsGuard (Await r k).

(** Suspended handlers that are what the guard takes them for: the
    handler of a free-text line will clear the guard, the others leave it
    alone. *)
Definition guardedList (tasks : list Task) : Prop :=
  forall t, In t tasks ->
    forall o,
      if isFreeText (task_input t) then ClearsGuard (task_resume t o)
      else KeepsGuard (task_resume t o).

Definition tasksGuarded (m : Machine) : Prop := guardedList (m_tasks m).

(** The invariant of the reentrancy guard: the flag is set exactly while a
    turn is in flight, and at most one is. *)
Definition guardInvariant (m : Machine) : Prop :=
  tasksGuarded m
  /\ List.length (turnsInFlight m) = (if busy m then 1%nat else 0%nat).

(** The machine once [initialize] has connected and [startChat] has
    installed the handler. *)
Definition bootMachine : Machine := mkMachine connectedRuntime [] false.

(** Outcomes for [Settle]: everything succeeds and the model answers
    [reply]; or every request fails. *)
Definition allFine (reply : ModelResponse) : forall r : request, settled (response r) :=
  fun r => answer (flakyWorld 0 (JsError "HTTP 404") twoTasks reply) r 0%nat.

Definition allFail (error : thrown) : forall r : request, settled (response r) :=
  fun r => Rejected error.

(** An error that [callToolWithRetry] passes on as it came: the one it
    throws for a missing client, or a rejection of a tool invocation. *)
Definition rawError (w : World) (toolName : string) (args : JsValue)
    (error : thrown) : Prop :=
  error = JsError "MCP client not initialized"
  \/ exists client n, answer w (CallTool client toolName args) n = Rejected error.

(** * Further definitions

    The rest of the class, the configuration and the properties stated
    further down. *)

(** ** What a program does to the history

    [AppendsOnly p]: every assignment of [p] leaves the history as it is
    or longer, the entries it had at their places. *)

Inductive AppendsOnly {A : Type} : prog A -> Prop :=
| AO_ret : forall a, AppendsOnly (Ret a)
| AO_throw : forall e, AppendsOnly (Throw e)
| AO_exit : AppendsOnly Exit
| AO_get : forall k, (forall s, AppendsOnly (k s)) -> AppendsOnly (GetThis k)
| AO_modify : forall f k,
    (forall s, exists more,
        conversationHistory (f s) = conversationHistory s ++ more) ->
    AppendsOnly k -> AppendsOnly (Modify f k)
| AO_print : forall line k, AppendsOnly k -> AppendsOnly (Print line k)
| AO_construct : forall c k, (forall h, AppendsOnly (k h)) -> AppendsOnly (Construct c k)
| AO_today : forall k, (forall d, AppendsOnly (k d)) -> AppendsOnly (Today k)
| AO_await : forall r k, (forall o, AppendsOnly (k o)) -> AppendsOnly (Await r k).

(** The suspended handlers only append. *)
Definition tasksAppendOnly (m : Machine) : Prop :=
  forall t, In t (m_tasks m) -> forall o, AppendsOnly (task_resume t o).

(** The history of the machine. *)
Definition historyOf (m : Machine) : list Turn :=
  conversationHistory (this (m_runtime m)).

(** ** The sessions a program starts *)

Definition isNewChat (c : construction) : bool :=
  match c with
  | NewChat _ _ => true
  | _ => false
  end.

(** [modelWithTools.startChat(...)] calls in a trace. *)
Fixpoint chatsStarted (t : list effect) : nat :=
  match t with
  | [] => 0
  | Constructed c _ :: rest =>
      ((if isNewChat c then 1 else 0) + chatsStarted rest)%nat
  | Requested _ :: rest => chatsStarted rest
  end.

(** [StartsNoChat p]: [p] constructs no chat session. *)
Inductive StartsNoChat {A : Type} : prog A -> Prop :=
| SN_ret : forall a, StartsNoChat (Ret a)
| SN_throw : forall e, StartsNoChat (Throw e)
| SN_exit : StartsNoChat Exit
| SN_get : forall k, (forall s, StartsNoChat (k s)) -> StartsNoChat (GetThis k)
| SN_modify : forall f k, StartsNoChat k -> StartsNoChat (Modify f k)
| SN_print : forall line k, StartsNoChat k -> StartsNoChat (Print line k)
| SN_construct : forall c k,
    isNewChat c = false ->
    (forall h, StartsNoChat (k h)) -> StartsNoChat (Construct c k)
| SN_today : forall k, (forall d, StartsNoChat (k d)) -> StartsNoChat (Today k)
| SN_await : forall r k, (forall o, StartsNoChat (k o)) -> StartsNoChat (Await r k).

(** ** Clients closed and clients used *)

(** The clients a trace has asked to close, added to [closed]. *)
Fixpoint closedAfter (closed : list handle) (t : list effect) : list handle :=
  match t with
  | [] => closed
  | Requested (CloseClient c) :: rest => closedAfter (c :: closed) rest
  | _ :: rest => closedAfter closed rest
  end.

(** A tool invocation of [t] on a client of [closed], or on one that an
    earlier request of [t] closed. *)
Fixpoint invokesClosed (closed : list handle) (t : list effect) : bool :=
  match t with
  | [] => false
  | Requested (CallTool c _ _) :: rest =>
      existsb (Nat.eqb c) closed || invokesClosed closed rest
  | Requested (CloseClient c) :: rest => invokesClosed (c :: closed) rest
  | _ :: rest => invokesClosed closed rest
  end.

(** The client installed is one the trace has not closed, and the
    identities met so far are below the next free one. *)
Definition clientInUse (rt : Runtime) : Prop :=
  (forall c, In c (closedAfter [] (trace rt)) -> (c < nextHandle rt)%nat)
  /\ (forall c, mcpClient (this rt) = Some c ->
                (c < nextHandle rt)%nat /\ ~ In c (closedAfter [] (trace rt))).

(** The identities met so far are below the next free one and no tool
    has been invoked on a closed client; the client installed may be one
    that is being closed. *)
Definition handlesInOrder (rt : Runtime) : Prop :=
  (forall c, In c (closedAfter [] (trace rt)) -> (c < nextHandle rt)%nat)
  /\ (forall c, mcpClient (this rt) = Some c -> (c < nextHandle rt)%nat)
  /\ invokesClosed [] (trace rt) = false.

(** The clients are in order: the one installed is in use, and no tool
    has been invoked on a client after its [close]. *)
Definition clientsInOrder (rt : Runtime) : Prop :=
  clientInUse rt /\ invokesClosed [] (trace rt) = false.

(** [KeepsClients p]: run to its end, [p] keeps the clients in order. *)
Definition KeepsClients {A : Type} (p : prog A) : Prop :=
  forall (w : World) (rt : Runtime),
    clientsInOrder rt -> clientsInOrder (fst (run w p rt)).

(** ** What can stop the console

    [NoExit p]: [p] has no [process.exit].  [Quiet p]: [p] has none and
    lets no error escape either. *)

Inductive NoExit {A : Type} : prog A -> Prop :=
| NE_ret : forall a, NoExit (Ret a)
| NE_throw : forall e, NoExit (Throw e)
| NE_get : forall k, (forall s, NoExit (k s)) -> NoExit (GetThis k)
| NE_modify : forall f k, NoExit k -> NoExit (Modify f k)
| NE_print : forall line k, NoExit k -> NoExit (Print line k)
| NE_construct : forall c k, (forall h, NoExit (k h)) -> NoExit (Construct c k)
| NE_today : forall k, (forall d, NoExit (k d)) -> NoExit (Today k)
| NE_await : forall r k, (forall o, NoExit (k o)) -> NoExit (Await r k).

Inductive Quiet {A : Type} : prog A -> Prop :=
| QT_ret : forall a, Quiet (Ret a)
| QT_get : forall k, (forall s, Quiet (k s)) -> Quiet (GetThis k)
| QT_modify : forall f k, Quiet k -> Quiet (Modify f k)
| QT_print : forall line k, Quiet k -> Quiet (Print line k)
| QT_construct : forall c k, (forall h, Quiet (k h)) -> Quiet (Construct c k)
| QT_today : forall k, (forall d, Quiet (k d)) -> Quiet (Today k)
| QT_await : forall r k, (forall o, Quiet (k o)) -> Quiet (Await r k).

(** The suspended handlers are quiet. *)
Definition tasksQuiet (m : Machine) : Prop :=
  forall t, In t (m_tasks m) -> forall o, Quiet (task_resume t o).

(** The lines [exit] and [quit]. *)
Definition isExitLine (e : event) : bool :=
  match e with
  | Line input =>
      match classify input with
      | CmdExit => true
      | _ => false
      end
  | Settle _ _ => false
  end.

(** * The configuration: [validateEnvironment]

    The messages are given by their text; the pictograph that opens some
    of them is left out. *)

Module Config.

Record AppConfig : Type := mkAppConfig {
  geminiApiKey : string;
  todoistApiToken : string
}.

(** [process.env], as far as it is read: a variable is unset or holds a
    string. *)
Record Environment : Type := mkEnvironment {
  GEMINI_API_KEY : option string;
  TODOIST_API_TOKEN : option string
}.

Inductive Output : Type :=
| ConsoleError (text : string)
| ConsoleLog (text : string).

(** A function that returns, or ends the process with [process.exit]. *)
Inductive Outcome (A : Type) : Type :=
| Proceeds (a : A)
| ProcessExit (code : Z).
Arguments Proceeds {A} a.
Arguments ProcessExit {A} code.

(** The value of a variable when it is truthy: set, and not the empty
    string. *)
Definition truthyValue (v : option string) : option string :=
  match v with
  | Some s => if (s =? "")%string then None else Some s
  | None => None
  end.

Definition doubleQuote : string := String (ascii_of_nat 34) EmptyString.

Definition validateEnvironment (env : Environment) : list Output * Outcome AppConfig :=
  let geminiApiKey := GEMINI_API_KEY env in
  let todoistApiToken := TODOIST_API_TOKEN env in
  match truthyValue geminiApiKey with
  | None =>
      ([ConsoleError "Missing required environment variable: GEMINI_API_KEY";
        ConsoleLog "To get your Gemini API key:";
        ConsoleLog "   1. Visit https://aistudio.google.com/app/apikey";
        ConsoleLog "   2. Create a new API key";
        ConsoleLog ("   3. Set it as an environment variable: export GEMINI_API_KEY="
                    ++ doubleQuote ++ "your-key-here" ++ doubleQuote)%string],
       ProcessExit 1)
  | Some geminiApiKey =>
      match truthyValue todoistApiToken with
      | None =>
          ([ConsoleError "Missing required environment variable: TODOIST_API_TOKEN";
            ConsoleLog "To get your Todoist API token:";
            ConsoleLog "   1. Visit https://todoist.com/prefs/integrations";
            ConsoleLog ("   2. Scroll down to " ++ doubleQuote ++ "API token"
                        ++ doubleQuote ++ " section")%string;
            ConsoleLog "   3. Copy your API token";
            ConsoleLog ("   4. Set it as an environment variable: export TODOIST_API_TOKEN="
                        ++ doubleQuote ++ "your-token-here" ++ doubleQuote)%string],
           ProcessExit 1)
      | Some todoistApiToken =>
          ([], Proceeds (mkAppConfig geminiApiKey todoistApiToken))
      end
  end.

End Config.

(** * Start-up: [initialize] and [startChat] *)

(** The fields [geminiAI], [model] and [rl] of the class, which nothing
    assigns once [initialize] is done: whether each holds its object. *)
Record Components : Type := mkComponents {
  geminiAI : bool;
  model : bool;
  rl : bool
}.

(** The fields as the declarations of the class leave them. *)
Definition newComponents : Components := mkComponents false false false.
Definition newThis : This := mkThis None None [] false [] None.

Definition initializeGemini (c : Components) : prog Components :=
  (* this.geminiAI = new GoogleGenerativeAI(...); this.model = ... *)
  say (LogText "Gemini AI initialized") ;;
  Ret (mkComponents true true (rl c)).

Definition initializeMCP : prog unit :=
  ensureMCPConnection.

Definition setupConsoleInterface (c : Components) : Components :=
  mkComponents (geminiAI c) (model c) true.

Definition initialize (c : Components) : prog Components :=
  say (LogText "Initializing components...") ;;
  (* Initialize Gemini AI *)
  c <- initializeGemini c ;;
  (* Initialize MCP connection to Todoist *)
  initializeMCP ;;
  (* Setup console interface *)
  let c := setupConsoleInterface c in
  say (LogText ("Initialization complete!" ++ Str.newline)%string) ;;
  Ret c.

Definition isNull {A : Type} (field : option A) : bool :=
  match field with
  | Some _ => false
  | None => true
  end.

(** [startChat] up to the point where it installs the handlers [onLine]
    and [onClose]. *)
Definition startChat (c : Components) : prog unit :=
  s <- getThis ;;
  if negb (rl c) || negb (model c) || isNull (mcpClient s) then
    Throw (JsError "Application not properly initialized")
  (* Additional validation to ensure objects are in valid state *)
  else if negb (geminiAI c) || isNull (mcpTransport s) then
    Throw (JsError "Core components not properly initialized")
  (* Validate that we have tools available *)
  else if (List.length (availableTools s) =? 0)%nat then
    Throw (JsError "No MCP tools available - connection may be invalid")
  else
    say (LogText "Chat started! You can now ask questions about your Todoist tasks or request new tasks.") ;;
    say (LogText "Examples:") ;;
    say (LogText ("   - " ++ Config.doubleQuote ++ "What tasks do I have today?"
                  ++ Config.doubleQuote)%string) ;;
    say (LogText ("   - " ++ Config.doubleQuote
                  ++ "Create a task to buy groceries tomorrow"
                  ++ Config.doubleQuote)%string) ;;
    say (LogText ("   - " ++ Config.doubleQuote ++ "Show me my overdue tasks"
                  ++ Config.doubleQuote)%string) ;;
    say (LogText ("   - Type " ++ Config.doubleQuote ++ "exit" ++ Config.doubleQuote
                  ++ " to quit")%string) ;;
    say (LogText ("   - Type " ++ Config.doubleQuote ++ "history" ++ Config.doubleQuote
                  ++ " to see conversation history")%string) ;;
    say (LogText ("   - Type " ++ Config.doubleQuote ++ "clear" ++ Config.doubleQuote
                  ++ " to clear conversation history")%string) ;;
    say (LogText ("   - Type " ++ Config.doubleQuote ++ "test" ++ Config.doubleQuote
                  ++ " to test task finding functionality" ++ Str.newline)%string) ;;
    say Prompt.

(** * The HTTP clients: [TodoistRestClient] and [TodoistMCPTransport] *)

Module Http.

(** What [fetch] resolves to, with what its body readers give. *)
Record HttpResponse : Type := mkHttpResponse {
  resp_ok : bool;                       (* response.ok *)
  resp_status : Z;                      (* response.status *)
  resp_contentType : option string;     (* response.headers.get('content-type') *)
  resp_text : settled string;           (* await response.text() *)
  resp_json : settled JsValue           (* await response.json() *)
}.

(** The second argument of [fetch]; [init_body] is the value given to
    [JSON.stringify]. *)
Record RequestInit : Type := mkRequestInit {
  init_method : option string;
  init_headers : list (string * string);
  init_body : option JsValue
}.

(** The handlers of the transport, as they are called. *)
Inductive HandlerCall : Type :=
| OnMessage (message : JsValue)
| OnClose
| OnError (error : thrown).

(** Programs over [fetch], the handlers and the console. *)
Inductive io (A : Type) : Type :=
| Done (a : A)
| Fail (e : thrown)
| Fetch (url : string) (init : RequestInit) (k : settled HttpResponse -> io A)
| Notify (call : HandlerCall) (k : option thrown -> io A)
| Log (text : string) (k : io A).
Arguments Done {A} a.
Arguments Fail {A} e.
Arguments Fetch {A} url init k.
Arguments Notify {A} call k.
Arguments Log {A} text k.

Fixpoint andThen {A B : Type} (p : io A) (f : A -> io B) : io B :=
  match p with
  | Done a => f a
  | Fail e => Fail e
  | Fetch url init k => Fetch url init (fun o => andThen (k o) f)
  | Notify call k => Notify call (fun o => andThen (k o) f)
  | Log text k => Log text (andThen k f)
  end.

Fixpoint orCatch {A : Type} (p : io A) (h : thrown -> io A) : io A :=
  match p with
  | Done a => Done a
  | Fail e => h e
  | Fetch url init k => Fetch url init (fun o => orCatch (k o) h)
  | Notify call k => Notify call (fun o => orCatch (k o) h)
  | Log text k => Log text (orCatch k h)
  end.

(** [await promise] *)
Definition settle {A : Type} (outcome : settled A) : io A :=
  match outcome with
  | Fulfilled v => Done v
  | Rejected e => Fail e
  end.

(** [await fetch(url, init)] *)
Definition fetch (url : string) (init : RequestInit) : io HttpResponse :=
  Fetch url init settle.

(** A call of a handler, which returns or throws. *)
Definition notify (call : HandlerCall) : io unit :=
  Notify call (fun o => match o with
                        | Some e => Fail e
                        | None => Done tt
                        end).

(** The world of these programs: what the network answers and which
    handler calls throw. *)
Record Net : Type := mkNet {
  respond : string -> RequestInit -> settled HttpResponse;
  handlerThrows : HandlerCall -> option thrown
}.

Inductive Event : Type :=
| Fetched (url : string) (init : RequestInit)
| Called (call : HandlerCall)
| Logged (text : string).

Fixpoint perform {A : Type} (net : Net) (p : io A) : list Event * settled A :=
  match p with
  | Done a => ([], Fulfilled a)
  | Fail e => ([], Rejected e)
  | Fetch url init k =>
      let (events, outcome) := perform net (k (respond net url init)) in
      (Fetched url init :: events, outcome)
  | Notify call k =>
      let (events, outcome) := perform net (k (handlerThrows net call)) in
      (Called call :: events, outcome)
  | Log text k =>
      let (events, outcome) := perform net k in
      (Logged text :: events, outcome)
  end.

(** [{ ...base, ...extra }] on headers. *)
Fixpoint setHeader (headers : list (string * string)) (name value : string)
  : list (string * string) :=
  match headers with
  | [] => [(name, value)]
  | (n, v) :: rest =>
      if (n =? name)%string then (n, value) :: rest
      else (n, v) :: setHeader rest name value
  end.

Definition spread (base extra : list (string * string)) : list (string * string) :=
  fold_left (fun headers nv => setHeader headers (fst nv) (snd nv)) extra base.

(** [contentType && contentType.includes('application/json')] *)
Definition mentionsJson (contentType : option string) : bool :=
  match contentType with
  | Some contentType =>
      negb (contentType =? "")%string && Str.includes contentType "application/json"
  | None => false
  end.

End Http.

Module Rest.
Import Http.

Definition baseUrl : string := "https://api.todoist.com/rest/v2".

(** [options = {}] *)
Definition noOptions : RequestInit := mkRequestInit None [] None.

Definition makeRequest (apiToken endpoint : string) (options : RequestInit)
  : io JsValue :=
  let url := (baseUrl ++ endpoint)%string in
  andThen
    (fetch url
       (mkRequestInit
          (init_method options)
          (spread [("Authorization", ("Bearer " ++ apiToken)%string);
                   ("Content-Type", "application/json")]
                  (init_headers options))
          (init_body options)))
    (fun response =>
       if negb (resp_ok response) then
         andThen (settle (resp_text response))
           (fun errorText =>
              Fail (JsError ("Todoist API error " ++ Str.ofZ (resp_status response)
                             ++ ": " ++ errorText)%string))
       else
         (* Handle empty responses (like for DELETE requests) *)
         let contentType := resp_contentType response in
         if mentionsJson contentType then settle (resp_json response)
         else Done JNull).

Definition getProjects (apiToken : string) : io JsValue :=
  makeRequest apiToken "/projects" noOptions.

Definition createTask (apiToken : string) (data : JsValue) : io JsValue :=
  makeRequest apiToken "/tasks" (mkRequestInit (Some "POST") [] (Some data)).

Definition updateTask (apiToken taskId : string) (data : JsValue) : io JsValue :=
  makeRequest apiToken ("/tasks/" ++ taskId)%string
              (mkRequestInit (Some "POST") [] (Some data)).

Definition closeTask (apiToken taskId : string) : io unit :=
  andThen (makeRequest apiToken ("/tasks/" ++ taskId ++ "/close")%string
                       (mkRequestInit (Some "POST") [] None))
          (fun _ => Done tt).

Definition reopenTask (apiToken taskId : string) : io unit :=
  andThen (makeRequest apiToken ("/tasks/" ++ taskId ++ "/reopen")%string
                       (mkRequestInit (Some "POST") [] None))
          (fun _ => Done tt).

Definition deleteTask (apiToken taskId : string) : io unit :=
  andThen (makeRequest apiToken ("/tasks/" ++ taskId)%string
                       (mkRequestInit (Some "DELETE") [] None))
          (fun _ => Done tt).

(** Test the connection *)
Definition testConnection (apiToken : string) : io bool :=
  orCatch (andThen (getProjects apiToken) (fun _ => Done true))
          (fun error => Done false).

End Rest.

Module Transport.
Import Http.

(** The transport: its address, its token and which handlers are set. *)
Record TodoistMCPTransport : Type := mkTransport {
  url : string;
  token : string;
  onMessage : bool;
  onClose : bool;
  onError : bool
}.

Definition setMessageHandler (t : TodoistMCPTransport) : TodoistMCPTransport :=
  mkTransport (url t) (token t) true (onClose t) (onError t).

Definition setCloseHandler (t : TodoistMCPTransport) : TodoistMCPTransport :=
  mkTransport (url t) (token t) (onMessage t) true (onError t).

Definition setErrorHandler (t : TodoistMCPTransport) : TodoistMCPTransport :=
  mkTransport (url t) (token t) (onMessage t) (onClose t) true.

Definition start (t : TodoistMCPTransport) : io unit :=
  (* For HTTP-based MCP, we don't need to "start" a persistent connection *)
  Log "HTTP MCP transport ready" (Done tt).

Definition send (t : TodoistMCPTransport) (message : JsValue) : io unit :=
  orCatch
    (andThen
       (fetch (url t)
          (mkRequestInit (Some "POST")
             [("Authorization", ("Bearer " ++ token t)%string);
              ("Content-Type", "application/json")]
             (Some message)))
       (fun response =>
          andThen
            (if negb (resp_ok response) then
               andThen (settle (resp_text response))
                 (fun errorText =>
                    Fail (JsError ("HTTP " ++ Str.ofZ (resp_status response)
                                   ++ ": " ++ errorText)%string))
             else Done tt)
            (fun _ =>
               andThen (settle (resp_json response))
                 (fun responseData =>
                    if onMessage t then notify (OnMessage responseData)
                    else Done tt))))
    (fun error =>
       if onError t then notify (OnError error) else Done tt).

Definition close (t : TodoistMCPTransport) : io unit :=
  if onClose t then notify OnClose else Done tt.

End Transport.

(** * Properties *)

(** ** Property lists *)

Module JsFacts.

Lemma indexKey_named (i : nat) (key : string) :
  namedKey key = true -> (Js.indexKey i =? key)%string = false.
Proof.
  unfold Js.indexKey. intros Hk.
  destruct key as [|c key]; [discriminate|].
  destruct (Nat.to_uint i); cbn [NilEmpty.string_of_uint];
    try reflexivity;
    apply String.eqb_neq; intros Heq; injection Heq as Hc _; subst c;
    vm_compute in Hk; discriminate.
Qed.

Lemma get_indexed_named (l : list JsValue) (i : nat) (key : string) :
  namedKey key = true ->
  Js.get (Js.indexedFrom i l) key = JUndefined.
Proof.
  intros Hk. revert i. induction l as [|x l IH]; intros i; cbn; [reflexivity|].
  rewrite indexKey_named by exact Hk. apply IH.
Qed.

Lemma keys_indexed_named (A : Type) (l : list A) (i : nat) (key : string) :
  namedKey key = true ->
  existsb (fun k => (k =? key)%string) (map fst (Js.indexedFrom i l)) = false.
Proof.
  intros Hk. revert i. induction l as [|x l IH]; intros i; cbn; [reflexivity|].
  rewrite indexKey_named by exact Hk. apply IH.
Qed.

Lemma get_delete_ne (fs : list (string * JsValue)) (key k : string) :
  (key =? k)%string = false -> Js.get (Js.delete key fs) k = Js.get fs k.
Proof.
  intros Hne. unfold Js.delete.
  induction fs as [|[k0 v0] fs IH]; [reflexivity|].
  cbn [filter fst]. destruct (k0 =? key)%string eqn:E0; cbn [negb Js.get].
  - apply String.eqb_eq in E0. subst k0. rewrite Hne. exact IH.
  - rewrite IH. reflexivity.
Qed.

Lemma get_set_same (fs : list (string * JsValue)) (key : string) (v : JsValue) :
  Js.get (Js.set fs key v) key = v.
Proof.
  induction fs as [|[k0 v0] fs IH]; cbn.
  - rewrite String.eqb_refl. reflexivity.
  - destruct (k0 =? key)%string eqn:E0; cbn; rewrite E0; [reflexivity|exact IH].
Qed.

Lemma get_set_ne (fs : list (string * JsValue)) (key k : string) (v : JsValue) :
  (key =? k)%string = false -> Js.get (Js.set fs key v) k = Js.get fs k.
Proof.
  intros Hne. induction fs as [|[k0 v0] fs IH]; cbn.
  - rewrite Hne. reflexivity.
  - destruct (k0 =? key)%string eqn:E0; cbn.
    + apply String.eqb_eq in E0. subst k0. rewrite Hne. reflexivity.
    + rewrite IH. reflexivity.
Qed.

Lemma keys_set_present (fs : list (string * JsValue)) (key : string) (v : JsValue) :
  Js.truthy (Js.get fs key) = true -> Js.keys (Js.set fs key v) = Js.keys fs.
Proof.
  unfold Js.keys. induction fs as [|[k0 v0] fs IH]; cbn; [discriminate|].
  destruct (k0 =? key)%string eqn:E0; cbn; [reflexivity|].
  intros Ht. rewrite IH by exact Ht. reflexivity.
Qed.

Lemma keys_delete (fs : list (string * JsValue)) (key : string) :
  Js.keys (Js.delete key fs) = filter (fun k => negb (k =? key)%string) (Js.keys fs).
Proof.
  unfold Js.keys, Js.delete. induction fs as [|[k0 v0] fs IH]; cbn; [reflexivity|].
  destruct (k0 =? key)%string; cbn; rewrite IH; reflexivity.
Qed.

Lemma depth_field (fs : list (string * JsValue)) (k : string) (c : JsValue) :
  In (k, c) fs -> (Js.depth c < Js.depth (JObj fs))%nat.
Proof.
  induction fs as [|[k0 v0] fs IH]; cbn; [tauto|].
  intros [Heq | Hin].
  - injection Heq as _ ->. lia.
  - specialize (IH Hin). cbn in IH. lia.
Qed.

Lemma depth_indexed (l : list JsValue) (i : nat) (k : string) (c : JsValue) :
  In (k, c) (Js.indexedFrom i l) -> (Js.depth c < Js.depth (JArr l))%nat.
Proof.
  revert i. induction l as [|x l IH]; intros i; cbn; [tauto|].
  intros [Heq | Hin].
  - injection Heq as _ ->. lia.
  - specialize (IH _ Hin). cbn in IH. lia.
Qed.

Lemma depth_chars (s : string) (i : nat) (k : string) (c : JsValue) :
  In (k, c) (Js.indexedFrom i (Js.chars s)) -> Js.depth c = O.
Proof.
  revert i. induction s as [|a s IH]; intros i; cbn; [tauto|].
  intros [Heq | Hin].
  - injection Heq as _ <-. reflexivity.
  - exact (IH _ Hin).
Qed.

(** A property of a value is no deeper than the value. *)
Lemma depth_entry (v : JsValue) (k : string) (c : JsValue) :
  In (k, c) (Js.entries v) -> (Js.depth c <= Js.depth v)%nat.
Proof.
  intros Hin. destruct v; cbn [Js.entries] in Hin; try contradiction.
  - rewrite (depth_chars _ _ _ _ Hin). lia.
  - apply depth_indexed in Hin. lia.
  - apply depth_field in Hin. lia.
Qed.

Lemma schemaObject_cases (v : JsValue) :
  isSchemaObject v = true ->
  (exists elems, v = JArr elems) \/ (exists fields, v = JObj fields).
Proof.
  destruct v; unfold isSchemaObject; cbn; rewrite ?andb_false_r;
    try discriminate; intros _; [left|right]; eexists; reflexivity.
Qed.

Lemma depth_entry_object (v : JsValue) (k : string) (c : JsValue) :
  isSchemaObject v = true ->
  In (k, c) (Js.entries v) -> (Js.depth c < Js.depth v)%nat.
Proof.
  intros Hv Hin.
  destruct (schemaObject_cases _ Hv) as [[l ->] | [fs ->]]; cbn [Js.entries] in Hin.
  - exact (depth_indexed _ _ _ _ Hin).
  - exact (depth_field _ _ _ Hin).
Qed.

Lemma depth_prop_object (v : JsValue) (key : string) :
  isSchemaObject v = true -> (Js.depth (Js.prop v key) < Js.depth v)%nat.
Proof.
  unfold Js.prop. intros Hv.
  assert (H : forall fs, (forall k c, In (k, c) fs -> (Js.depth c < Js.depth v)%nat) ->
                         (0 < Js.depth v)%nat ->
                         (Js.depth (Js.get fs key) < Js.depth v)%nat).
  { induction fs as [|[k0 v0] fs IH]; cbn; intros Hall Hpos; [exact Hpos|].
    destruct (k0 =? key)%string.
    - apply (Hall k0). left. reflexivity.
    - apply IH; [|exact Hpos]. intros k c Hin. apply (Hall k). right. exact Hin. }
  apply H.
  - intros k c. apply depth_entry_object. exact Hv.
  - destruct (schemaObject_cases _ Hv) as [[l ->] | [fs ->]]; cbn; lia.
Qed.

Lemma entries_falsy (v : JsValue) : Js.truthy v = false -> Js.entries v = [].
Proof.
  destruct v; cbn; try reflexivity; try discriminate.
  destruct s; cbn; [reflexivity|discriminate].
Qed.

End JsFacts.

(** ** The schema cleaner *)

Module CleanFacts.
Import JsFacts.

Lemma depth_get_bound (fs : list (string * JsValue)) (key : string) (n : nat) :
  (forall k c, In (k, c) fs -> (Js.depth c < n)%nat) -> (0 < n)%nat ->
  (Js.depth (Js.get fs key) < n)%nat.
Proof.
  induction fs as [|[k0 v0] fs IH]; cbn; intros Hall Hpos; [exact Hpos|].
  destruct (k0 =? key)%string.
  - apply (Hall k0). left. reflexivity.
  - apply IH; [|exact Hpos]. intros k c Hin. apply (Hall k). right. exact Hin.
Qed.

Lemma depth_stripped (v : JsValue) (key : string) :
  isSchemaObject v = true ->
  (Js.depth (Js.get (Js.delete additionalPropertiesFlag
                       (Js.delete schemaMarker (Js.entries v))) key)
   < Js.depth v)%nat.
Proof.
  intros Hv. apply depth_get_bound.
  - intros k c Hin. unfold Js.delete in Hin.
    apply filter_In in Hin. destruct Hin as [Hin _].
    apply filter_In in Hin. destruct Hin as [Hin _].
    exact (depth_entry_object _ _ _ Hv Hin).
  - destruct (schemaObject_cases _ Hv) as [[l ->] | [fs ->]]; cbn; lia.
Qed.

Lemma guard_schemaObject (v : JsValue) :
  negb (Js.truthy v) || negb (Js.typeofObject v) = negb (isSchemaObject v).
Proof. unfold isSchemaObject. rewrite negb_andb. reflexivity. Qed.

(** The body only calls [recur] on values nested strictly deeper. *)
Lemma cleanSchemaBody_ext (r1 r2 : JsValue -> JsValue) (v : JsValue) :
  (forall c, (Js.depth c < Js.depth v)%nat -> r1 c = r2 c) ->
  cleanSchemaBody r1 v = cleanSchemaBody r2 v.
Proof.
  intros Hr. unfold cleanSchemaBody. rewrite guard_schemaObject.
  destruct (isSchemaObject v) eqn:Hv; cbn [negb]; [|reflexivity].
  set (stripped := Js.delete additionalPropertiesFlag
                     (Js.delete schemaMarker (Js.entries v))).
  assert (Hprops :
    map (fun kv => (fst kv, r1 (snd kv)))
        (filter (fun kv => makesProperty (fst kv))
                (Js.entries (Js.get stripped "properties")))
    = map (fun kv => (fst kv, r2 (snd kv)))
          (filter (fun kv => makesProperty (fst kv))
                  (Js.entries (Js.get stripped "properties")))).
  { apply map_ext_in. intros [k c] Hin. cbn [fst snd]. f_equal. apply Hr.
    apply filter_In in Hin. destruct Hin as [Hin _].
    apply depth_entry in Hin.
    pose proof (depth_stripped v "properties" Hv) as Hd. fold stripped in Hd. lia. }
  rewrite Hprops.
  match goal with
  | |- context [if Js.truthy (Js.get ?c "items") then _ else _] =>
      assert (Hitems : Js.get c "items" = Js.get stripped "items")
  end.
  { destruct (Js.truthy (Js.get stripped "properties")); [|reflexivity].
    apply get_set_ne. reflexivity. }
  rewrite !Hitems.
  rewrite (Hr (Js.get stripped "items")); [reflexivity|].
  apply depth_stripped. exact Hv.
Qed.

Lemma cleanSchemaFuel_enough (f1 f2 : nat) (v : JsValue) :
  (Js.depth v < f1)%nat -> (Js.depth v < f2)%nat ->
  cleanSchemaFuel f1 v = cleanSchemaFuel f2 v.
Proof.
  revert f2 v. induction f1 as [|f1 IH]; intros f2 v H1 H2; [lia|].
  destruct f2 as [|f2]; [lia|]. cbn [cleanSchemaFuel].
  apply cleanSchemaBody_ext. intros c Hc. apply IH; lia.
Qed.

(** [cleanSchemaForGemini] satisfies the recursive equation of the
    source function: the fuel of the model plays no part. *)
Lemma cleanSchemaForGemini_unfold (schema : JsValue) :
  cleanSchemaForGemini schema = cleanSchemaBody cleanSchemaForGemini schema.
Proof.
  unfold cleanSchemaForGemini at 1. cbn [cleanSchemaFuel].
  apply cleanSchemaBody_ext. intros c Hc.
  unfold cleanSchemaForGemini. apply cleanSchemaFuel_enough; lia.
Qed.

Lemma filter_filter (A : Type) (f g : A -> bool) (l : list A) :
  filter f (filter g l) = filter (fun x => g x && f x) l.
Proof.
  induction l as [|x l IH]; cbn; [reflexivity|].
  destruct (g x); cbn; [destruct (f x)|]; rewrite IH; reflexivity.
Qed.

Lemma no_metadata_after_filter (l : list string) (m : string) :
  metadataKey m = true ->
  existsb (fun k => (k =? m)%string) (filter (fun k => negb (metadataKey k)) l) = false.
Proof.
  intros Hm. induction l as [|k l IH]; cbn; [reflexivity|].
  destruct (metadataKey k) eqn:Hk; cbn; [exact IH|].
  rewrite IH, orb_false_r. apply String.eqb_neq. intros ->. congruence.
Qed.

(** What the body leaves of a schema object, with [recur] the cleaner. *)
Lemma cleanSchemaBody_object (recur : JsValue -> JsValue) (schema : JsValue) :
  isSchemaObject schema = true ->
  exists cleaned,
    cleanSchemaBody recur schema = JObj cleaned
    /\ Js.keys cleaned
       = filter (fun k => negb (metadataKey k)) (Js.keys (Js.entries schema))
    /\ (forall key, cleanedKey key = false -> Js.get cleaned key = Js.prop schema key)
    /\ Js.get cleaned "properties"
       = (if Js.truthy (Js.prop schema "properties")
          then JObj (map (fun kv => (fst kv, recur (snd kv)))
                         (filter (fun kv => makesProperty (fst kv))
                                 (Js.entries (Js.prop schema "properties"))))
          else Js.prop schema "properties")
    /\ Js.get cleaned "items"
       = (if Js.truthy (Js.prop schema "items")
          then recur (Js.prop schema "items")
          else Js.prop schema "items").
Proof.
  intros Hv. unfold cleanSchemaBody. rewrite guard_schemaObject, Hv. cbn [negb].
  set (stripped := Js.delete additionalPropertiesFlag
                     (Js.delete schemaMarker (Js.entries schema))).
  assert (Hget : forall key, metadataKey key = false ->
                             Js.get stripped key = Js.prop schema key).
  { intros key Hk. unfold metadataKey in Hk. apply orb_false_elim in Hk.
    destruct Hk as [H1 H2]. unfold stripped, Js.prop.
    rewrite !get_delete_ne; [reflexivity| |]; rewrite String.eqb_sym; assumption. }
  assert (Hkeys : Js.keys stripped
                  = filter (fun k => negb (metadataKey k)) (Js.keys (Js.entries schema))).
  { unfold stripped. rewrite !keys_delete, filter_filter.
    apply filter_ext. intros k. unfold metadataKey.
    rewrite negb_orb. reflexivity. }
  rewrite (Hget "properties") by reflexivity.
  set (withProps :=
         if Js.truthy (Js.prop schema "properties")
         then Js.set stripped "properties"
                (JObj (map (fun kv => (fst kv, recur (snd kv)))
                           (filter (fun kv => makesProperty (fst kv))
                                   (Js.entries (Js.prop schema "properties")))))
         else stripped).
  assert (Hitems : Js.get withProps "items" = Js.prop schema "items").
  { unfold withProps. destruct (Js.truthy (Js.prop schema "properties"));
      [rewrite get_set_ne by reflexivity|]; apply Hget; reflexivity. }
  assert (HkeysP : Js.keys withProps = Js.keys stripped).
  { unfold withProps. destruct (Js.truthy (Js.prop schema "properties")) eqn:Ht;
      [|reflexivity].
    apply keys_set_present. rewrite (Hget "properties") by reflexivity. exact Ht. }
  rewrite Hitems.
  eexists. split; [reflexivity|]. repeat split.
  - destruct (Js.truthy (Js.prop schema "items")) eqn:Ht.
    + rewrite keys_set_present by (rewrite Hitems; exact Ht). congruence.
    + congruence.
  - intros key Hk. unfold cleanedKey in Hk.
    apply orb_false_elim in Hk. destruct Hk as [Hk Hi].
    apply orb_false_elim in Hk. destruct Hk as [Hk Hp].
    assert (Hw : Js.get withProps key = Js.prop schema key).
    { unfold withProps. destruct (Js.truthy (Js.prop schema "properties")).
      - rewrite get_set_ne by (rewrite String.eqb_sym; exact Hp). apply Hget. exact Hk.
      - apply Hget. exact Hk. }
    destruct (Js.truthy (Js.prop schema "items")); [|exact Hw].
    rewrite get_set_ne by (rewrite String.eqb_sym; exact Hi). exact Hw.
  - assert (Hw : Js.get withProps "properties"
                 = if Js.truthy (Js.prop schema "properties")
                   then JObj (map (fun kv => (fst kv, recur (snd kv)))
                                  (filter (fun kv => makesProperty (fst kv))
                                          (Js.entries (Js.prop schema "properties"))))
                   else Js.prop schema "properties").
    { unfold withProps. destruct (Js.truthy (Js.prop schema "properties")).
      - apply get_set_same.
      - apply Hget. reflexivity. }
    destruct (Js.truthy (Js.prop schema "items")); [|exact Hw].
    rewrite get_set_ne by reflexivity. exact Hw.
  - destruct (Js.truthy (Js.prop schema "items")) eqn:Ht.
    + apply get_set_same.
    + exact Hitems.
Qed.

Lemma delete_absent (fs : list (string * JsValue)) (key : string) :
  existsb (fun k => (k =? key)%string) (Js.keys fs) = false ->
  Js.delete key fs = fs.
Proof.
  unfold Js.delete, Js.keys. induction fs as [|[k v] fs IH]; cbn; [reflexivity|].
  intros H. apply orb_false_elim in H. destruct H as [Hk Hrest].
  rewrite Hk. cbn. rewrite IH by exact Hrest. reflexivity.
Qed.


Lemma cleanSchemaBody_passthrough (recur : JsValue -> JsValue) (schema : JsValue) :
  isSchemaObject schema = false -> cleanSchemaBody recur schema = schema.
Proof.
  intros Hv. unfold cleanSchemaBody. rewrite guard_schemaObject, Hv. reflexivity.
Qed.

Lemma prop_named_primitive (v : JsValue) (key : string) :
  isSchemaObject v = false -> namedKey key = true -> Js.prop v key = JUndefined.
Proof.
  intros Hv Hk. unfold Js.prop.
  destruct v; cbn [Js.entries Js.get]; try reflexivity; try discriminate.
  apply get_indexed_named. exact Hk.
Qed.

Lemma hasOwn_named_primitive (v : JsValue) (key : string) :
  isSchemaObject v = false -> namedKey key = true -> Js.hasOwn v key = false.
Proof.
  intros Hv Hk. unfold Js.hasOwn, Js.keys.
  destruct v; cbn [Js.entries map existsb]; try reflexivity; try discriminate.
  apply keys_indexed_named. exact Hk.
Qed.

(** Nothing but itself is met from a value that is not a schema object,
    and it carries no metadata field. *)
Lemma reaches_primitive (v d : JsValue) (m : string) :
  Reaches v d -> isSchemaObject v = false -> namedKey m = true ->
  Js.hasOwn d m = false.
Proof.
  intros Hr. induction Hr as [v | v k c d Hin _ _ | v d _ IH]; intros Hv Hm.
  - apply hasOwn_named_primitive; assumption.
  - rewrite prop_named_primitive in Hin by (exact Hv || reflexivity).
    contradiction.
  - apply IH; [|exact Hm].
    rewrite prop_named_primitive by (exact Hv || reflexivity). reflexivity.
Qed.

Lemma reaches_falsy (v d : JsValue) (m : string) :
  Reaches v d -> Js.truthy v = false -> namedKey m = true -> Js.hasOwn d m = false.
Proof.
  intros Hr Hv Hm. apply (reaches_primitive v d m Hr); [|exact Hm].
  unfold isSchemaObject. rewrite Hv. reflexivity.
Qed.

Lemma cleaned_no_metadata (n : nat) :
  forall schema d m,
    (Js.depth schema < n)%nat ->
    Reaches (cleanSchemaForGemini schema) d ->
    metadataKey m = true -> namedKey m = true ->
    Js.hasOwn d m = false.
Proof.
  induction n as [|n IH]; intros schema d m Hn Hr Hm Hnamed; [lia|].
  rewrite cleanSchemaForGemini_unfold in Hr.
  destruct (isSchemaObject schema) eqn:Hv.
  2:{ rewrite cleanSchemaBody_passthrough in Hr by exact Hv.
      exact (reaches_primitive _ _ _ Hr Hv Hnamed). }
  destruct (cleanSchemaBody_object cleanSchemaForGemini schema Hv)
    as (cleaned & Heq & Hkeys & _ & Hprops & Hitems).
  rewrite Heq in Hr.
  pose proof (depth_prop_object schema "properties" Hv) as Hdp.
  pose proof (depth_prop_object schema "items" Hv) as Hdi.
  inversion Hr as [v Hv0 Hd | v k c d0 Hin Hrc Hv0 Hd | v d0 Hri Hv0 Hd]; subst.
  - unfold Js.hasOwn. cbn [Js.entries]. rewrite Hkeys.
    apply no_metadata_after_filter. exact Hm.
  - unfold Js.prop in Hin. cbn [Js.entries] in Hin. rewrite Hprops in Hin.
    destruct (Js.truthy (Js.prop schema "properties")) eqn:Ht.
    + cbn [Js.entries] in Hin. apply in_map_iff in Hin.
      destruct Hin as ([k0 c0] & Hkc & Hin0). cbn [fst snd] in Hkc.
      injection Hkc as _ <-.
      apply filter_In in Hin0. destruct Hin0 as [Hin0 _].
      apply (IH c0 d m); try assumption.
      apply depth_entry in Hin0. lia.
    + rewrite (entries_falsy _ Ht) in Hin. contradiction.
  - unfold Js.prop in Hri. cbn [Js.entries] in Hri. rewrite Hitems in Hri.
    destruct (Js.truthy (Js.prop schema "items")) eqn:Ht.
    + apply (IH (Js.prop schema "items") d m); try assumption. lia.
    + exact (reaches_falsy _ _ _ Hri Ht Hnamed).
Qed.

End CleanFacts.

Example cleanSchemaForGemini_sample :
  cleanSchemaForGemini sampleSchema
  = JObj [("type", JStr "object");
          ("properties",
            JObj [("labels",
                    JObj [("type", JStr "array");
                          ("items", JObj [("type", JStr "string")])]);
                  ("content", JObj [("type", JStr "string")])]);
          ("required", JArr [JStr "content"])].
Proof. reflexivity. Qed.




(** ** Running programs *)

Module RunFacts.

Local Open Scope prog_scope.

Lemma run_bind (A B : Type) (w : World) (p : prog A) (f : A -> prog B) :
  forall rt,
    run w (bind p f) rt
    = match run w p rt with
      | (rt', Returned a) => run w (f a) rt'
      | (rt', Raised e) => (rt', Raised e)
      | (rt', Exited) => (rt', Exited)
      end.
Proof.
  induction p as [a | e | | k IH | g k IH | l k IH | c k IH | k IH | r k IH];
    intros rt; cbn [bind run]; try reflexivity; auto.
Qed.

Lemma run_tryCatch (A : Type) (w : World) (p : prog A) (h : thrown -> prog A) :
  forall rt,
    run w (tryCatch p h) rt
    = match run w p rt with
      | (rt', Raised e) => run w (h e) rt'
      | other => other
      end.
Proof.
  induction p as [a | e | | k IH | g k IH | l k IH | c k IH | k IH | r k IH];
    intros rt; cbn [tryCatch run]; try reflexivity; auto.
Qed.

Lemma run_tryFinally (A : Type) (w : World) (p : prog A) (cleanup : prog unit) :
  forall rt,
    run w (tryFinally p cleanup) rt
    = match run w p rt with
      | (rt', Returned a) => run w (cleanup ;; Ret a) rt'
      | (rt', Raised e) => run w (cleanup ;; Throw e) rt'
      | (rt', Exited) => (rt', Exited)
      end.
Proof.
  induction p as [a | e | | k IH | g k IH | l k IH | c k IH | k IH | r k IH];
    intros rt; cbn [tryFinally run]; try reflexivity; auto.
Qed.

Lemma occurrences_app (k : requestKind) (t1 t2 : list effect) :
  occurrences k (t1 ++ t2) = (occurrences k t1 + occurrences k t2)%nat.
Proof. unfold occurrences. rewrite filter_app, length_app. reflexivity. Qed.

Lemma occurrences_snoc_constructed (k : requestKind) (t : list effect)
    (c : construction) (h : handle) :
  occurrences k (t ++ [Constructed c h]) = occurrences k t.
Proof. rewrite occurrences_app. unfold occurrences at 2. cbn. lia. Qed.

Lemma occurrences_snoc_requested (k : requestKind) (t : list effect) (r : request) :
  occurrences k (t ++ [Requested r])
  = (occurrences k t + if sameKind (kindOf r) k then 1 else 0)%nat.
Proof.
  rewrite occurrences_app. unfold occurrences at 2. cbn.
  destruct (sameKind (kindOf r) k); reflexivity.
Qed.

(** A run only ever adds to the trace. *)
Lemma run_trace_extends (A : Type) (w : World) (p : prog A) :
  forall rt, exists more, trace (fst (run w p rt)) = trace rt ++ more.
Proof.
  induction p as [a | e | | k IH | g k IH | l k IH | c k IH | k IH | r k IH];
    intros rt; cbn [run].
  1-3: exists []; cbn; rewrite app_nil_r; reflexivity.
  - apply IH.
  - destruct (IH (onThis g rt)) as [more Hm]. exists more. exact Hm.
  - destruct (IH (printed l rt)) as [more Hm]. exists more. exact Hm.
  - destruct (IH (nextHandle rt) (constructed c rt)) as [more Hm].
    exists (Constructed c (nextHandle rt) :: more). rewrite Hm. cbn [constructed trace].
    rewrite <- app_assoc. reflexivity.
  - apply IH.
  - destruct (IH (answer w r (occurrences (kindOf r) (trace rt))) (requested r rt))
      as [more Hm].
    exists (Requested r :: more). rewrite Hm. cbn [requested trace].
    rewrite <- app_assoc. reflexivity.
Qed.

End RunFacts.

(** Symbolic execution of [run] up to the next answer of the world. *)
Ltac run_simpl :=
  repeat (progress
    (cbn [bind say modify getThis await construct today tryCatch tryFinally run
          constructed printed onThis requested trace this nextHandle console
          set_mcpClient set_mcpTransport set_availableTools set_isProcessingRequest
          set_conversationHistory set_currentChat
          mcpClient mcpTransport availableTools isProcessingRequest
          conversationHistory currentChat kindOf sameKind pushHistory];
     rewrite ?RunFacts.occurrences_snoc_requested,
             ?RunFacts.occurrences_snoc_constructed, ?Nat.add_0_r)).

Ltac case_answer :=
  match goal with
  | |- context [answer ?w ?r ?n] => destruct (answer w r n) as [?|?] eqn:?
  end.

Ltac counts :=
  unfold sameConversation, reconnects, invocations, listings, messagesSent in *;
  run_simpl.

(** ** The connection *)

Module ConnectionFacts.
Import RunFacts.
Local Open Scope prog_scope.

(** [ensureMCPConnection] always installs a new client and makes one
    connection attempt; it returns when the world lets the connection
    and the listing succeed. *)
Lemma ensureMCPConnection_run (w : World) (rt : Runtime) :
  exists rt' c,
    run w ensureMCPConnection rt = (rt', c)
    /\ (c = Returned tt \/ exists e, c = Raised e)
    /\ reconnects rt' = S (reconnects rt)
    /\ invocations rt' = invocations rt
    /\ mcpClient (this rt') = Some (S (nextHandle rt))
    /\ sameConversation rt rt'
    /\ (reconnectSucceeds w (reconnects rt) (listings rt) ->
        c = Returned tt /\ listings rt' = S (listings rt)).
Proof.
  unfold ensureMCPConnection. run_simpl.
  case_answer; run_simpl; [case_answer; run_simpl|];
    (eexists _, _; split; [reflexivity|]; counts;
     repeat split; eauto; try lia);
    exfalso;
    match goal with
    | H : reconnectSucceeds _ _ _ |- _ => destruct H as [Hc Hl]
    end;
    first [ specialize (Hc (S (nextHandle rt)) (nextHandle rt)); congruence
          | destruct (Hl (S (nextHandle rt))) as [tools Ht]; congruence ].
Qed.

Lemma closeClientQuietly_run (w : World) (rt : Runtime) :
  exists rt', run w closeClientQuietly rt = (rt', Returned tt)
    /\ reconnects rt' = reconnects rt /\ invocations rt' = invocations rt
    /\ listings rt' = listings rt /\ sameConversation rt rt'
    /\ nextHandle rt' = nextHandle rt.
Proof.
  unfold closeClientQuietly. run_simpl.
  destruct (mcpClient (this rt)); run_simpl; [case_answer; run_simpl|];
    (eexists; split; [try destruct value; reflexivity|]; counts; repeat split; lia).
Qed.

Lemma closeTransportQuietly_run (w : World) (rt : Runtime) :
  exists rt', run w closeTransportQuietly rt = (rt', Returned tt)
    /\ reconnects rt' = reconnects rt /\ invocations rt' = invocations rt
    /\ listings rt' = listings rt /\ sameConversation rt rt'
    /\ nextHandle rt' = nextHandle rt.
Proof.
  unfold closeTransportQuietly. run_simpl.
  destruct (mcpTransport (this rt)); run_simpl; [case_answer; run_simpl|];
    (eexists; split; [try destruct value; reflexivity|]; counts; repeat split; lia).
Qed.

Lemma reconnectMCP_run (w : World) (rt : Runtime) :
  exists rt' c,
    run w reconnectMCP rt = (rt', c)
    /\ (c = Returned tt \/ exists e, c = Raised e)
    /\ reconnects rt' = S (reconnects rt)
    /\ invocations rt' = invocations rt
    /\ (exists client, mcpClient (this rt') = Some client)
    /\ sameConversation rt rt'
    /\ (reconnectSucceeds w (reconnects rt) (listings rt) ->
        c = Returned tt /\ listings rt' = S (listings rt)).
Proof.
  unfold reconnectMCP. rewrite run_bind. cbn [say run].
  rewrite run_bind.
  destruct (closeClientQuietly_run w (printed LogReconnecting rt))
    as (rt2 & -> & Hr2 & Hi2 & Hl2 & Hs2 & _).
  rewrite run_bind.
  destruct (closeTransportQuietly_run w rt2) as (rt3 & -> & Hr3 & Hi3 & Hl3 & Hs3 & _).
  destruct (ensureMCPConnection_run w rt3)
    as (rt' & c & Hrun & Hc & Hr & Hi & Hm & Hs & Hok).
  exists rt', c. rewrite Hrun. split; [reflexivity|].
  unfold reconnects, invocations, listings, sameConversation, messagesSent in *.
  cbn [printed trace this] in *.
  rewrite Hr3, Hr2, Hl3, Hl2 in Hok.
  repeat split; try (intuition congruence); eauto.
Qed.

Lemma sameConversation_refl (rt : Runtime) : sameConversation rt rt.
Proof. unfold sameConversation. auto. Qed.

Lemma sameConversation_trans (rt1 rt2 rt3 : Runtime) :
  sameConversation rt1 rt2 -> sameConversation rt2 rt3 -> sameConversation rt1 rt3.
Proof. unfold sameConversation. intuition congruence. Qed.

End ConnectionFacts.

(** ** Retrying a tool call *)

Module RetryFacts.
Import RunFacts ConnectionFacts.
Local Open Scope prog_scope.

Lemma callToolAttempt_returns (w : World) (rt : Runtime) (toolName : string)
    (args : JsValue) (maxRetries attempt : Z) (client : handle) (result : ToolResult) :
  mcpClient (this rt) = Some client ->
  answer w (CallTool client toolName args) (invocations rt) = Fulfilled result ->
  run w (callToolAttempt toolName args maxRetries attempt) rt
  = (requested (CallTool client toolName args) rt, Returned (Some result)).
Proof.
  intros Hc Ha. unfold callToolAttempt. run_simpl. rewrite Hc. run_simpl.
  fold (invocations rt). rewrite Ha. reflexivity.
Qed.

Lemma callToolAttempt_rethrows (w : World) (rt : Runtime) (toolName : string)
    (args : JsValue) (maxRetries attempt : Z) (client : handle) (error : thrown) :
  mcpClient (this rt) = Some client ->
  answer w (CallTool client toolName args) (invocations rt) = Rejected error ->
  isConnectionError (errorMessage error) && (attempt <? maxRetries) = false ->
  run w (callToolAttempt toolName args maxRetries attempt) rt
  = (requested (CallTool client toolName args) rt, Raised error).
Proof.
  intros Hc Ha Hno. unfold callToolAttempt. run_simpl. rewrite Hc. run_simpl.
  fold (invocations rt). rewrite Ha. run_simpl. rewrite Hno. reflexivity.
Qed.

Lemma callToolAttempt_reconnects (w : World) (rt : Runtime) (toolName : string)
    (args : JsValue) (maxRetries attempt : Z) (client : handle) (error : thrown) :
  mcpClient (this rt) = Some client ->
  answer w (CallTool client toolName args) (invocations rt) = Rejected error ->
  isConnectionError (errorMessage error) = true ->
  attempt < maxRetries ->
  exists rt',
    run w (callToolAttempt toolName args maxRetries attempt) rt = (rt', Returned None)
    /\ invocations rt' = S (invocations rt)
    /\ reconnects rt' = S (reconnects rt)
    /\ (exists client', mcpClient (this rt') = Some client')
    /\ sameConversation rt rt'
    /\ (reconnectSucceeds w (reconnects rt) (listings rt) ->
        listings rt' = S (listings rt)).
Proof.
  intros Hc Ha Hconn Hlt. unfold callToolAttempt. run_simpl. rewrite Hc. run_simpl.
  fold (invocations rt). rewrite Ha. run_simpl. rewrite Hconn.
  assert (Hltb : (attempt <? maxRetries) = true) by (apply Z.ltb_lt; exact Hlt).
  rewrite Hltb. cbn [andb]. run_simpl.
  rewrite run_tryCatch, run_bind.
  set (rt1 := printed _ (requested _ rt)).
  destruct (reconnectMCP_run w rt1)
    as (rt2 & c & Hrun & Hcases & Hr & Hi & Hm & Hs & Hok).
  rewrite Hrun.
  assert (Hne : (attempt =? maxRetries) = false) by (apply Z.eqb_neq; lia).
  subst rt1. unfold reconnects, invocations, listings, sameConversation, messagesSent in *.
  cbn [printed requested trace this] in *.
  rewrite ?occurrences_snoc_requested in *. cbn [kindOf sameKind] in *.
  rewrite ?Nat.add_0_r in *.
  destruct Hcases as [-> | [e ->]]; run_simpl; [|rewrite Hne; run_simpl];
    (eexists; split; [reflexivity|]; run_simpl;
     repeat split; try (intuition congruence); try lia; eauto).
Qed.

Lemma callToolAttempt_first_request (w : World) (rt : Runtime) (toolName : string)
    (args : JsValue) (maxRetries attempt : Z) (client : handle) :
  mcpClient (this rt) = Some client ->
  exists rest,
    trace (fst (run w (callToolAttempt toolName args maxRetries attempt) rt))
    = trace rt ++ Requested (CallTool client toolName args) :: rest.
Proof.
  intros Hc. unfold callToolAttempt. run_simpl. rewrite Hc. run_simpl.
  match goal with
  | |- context [run w ?p ?rt0] => destruct (run_trace_extends _ w p rt0) as [more Hm]
  end.
  exists more. rewrite Hm. cbn [requested trace]. rewrite <- app_assoc. reflexivity.
Qed.

(** One turn of the loop, whatever the world does: it never exits the
    process, it leaves the conversation alone, it keeps a client
    installed, and with a client installed its first effect is the
    invocation. *)
Lemma callToolAttempt_any (w : World) (rt : Runtime) (toolName : string)
    (args : JsValue) (maxRetries attempt : Z) :
  exists rt' c,
    run w (callToolAttempt toolName args maxRetries attempt) rt = (rt', c)
    /\ ((exists o, c = Returned o) \/ (exists e, c = Raised e))
    /\ sameConversation rt rt'
    /\ ((exists client, mcpClient (this rt) = Some client) ->
        exists client, mcpClient (this rt') = Some client)
    /\ (forall client, mcpClient (this rt) = Some client ->
        exists rest,
          trace rt' = trace rt ++ Requested (CallTool client toolName args) :: rest).
Proof.
  assert (Hfirst : forall rt' c client,
             run w (callToolAttempt toolName args maxRetries attempt) rt = (rt', c) ->
             mcpClient (this rt) = Some client ->
             exists rest,
               trace rt' = trace rt ++ Requested (CallTool client toolName args) :: rest).
  { intros rt' c client Hrun Hc.
    destruct (callToolAttempt_first_request w rt toolName args maxRetries attempt
                client Hc) as [rest Hrest].
    rewrite Hrun in Hrest. exists rest. exact Hrest. }
  destruct (mcpClient (this rt)) as [client|] eqn:Hc.
  - destruct (answer w (CallTool client toolName args) (invocations rt))
      as [result|error] eqn:Ha.
    + pose proof (callToolAttempt_returns w rt toolName args maxRetries attempt client
                    result Hc Ha) as Hrun.
      eexists _, _. split; [exact Hrun|]. counts.
      repeat split; eauto; try lia.
      intros client0 Heq. injection Heq as <-. exists []. reflexivity.
    + destruct (isConnectionError (errorMessage error) && (attempt <? maxRetries))
        eqn:Hcond.
      * apply andb_prop in Hcond. destruct Hcond as [Hconn Hlt].
        apply Z.ltb_lt in Hlt.
        destruct (callToolAttempt_reconnects w rt toolName args maxRetries attempt
                    client error Hc Ha Hconn Hlt)
          as (rt' & Hrun & Hi & Hr & Hc' & Hs & _).
        exists rt', (Returned None). split; [exact Hrun|].
        split; [eauto|]. split; [exact Hs|]. split; eauto.
      * pose proof (callToolAttempt_rethrows w rt toolName args maxRetries attempt client
                      error Hc Ha Hcond) as Hrun.
        eexists _, _. split; [exact Hrun|]. counts.
        repeat split; eauto; try lia.
        intros client0 Heq. injection Heq as <-. exists []. reflexivity.
  - clear Hfirst. unfold callToolAttempt. run_simpl. rewrite Hc. run_simpl.
    replace (isConnectionError (errorMessage (JsError "MCP client not initialized")))
      with false by (vm_compute; reflexivity).
    cbn [andb]. run_simpl.
    eexists _, _. split; [reflexivity|]. counts.
    repeat split; eauto; try lia; try discriminate.
    intros [client Heq]. discriminate.
Qed.

Section Loop.

Variable w : World.
Variables (toolName : string) (args : JsValue) (maxRetries : Z).

(** The loop makes no use of fuel beyond the turns that remain. *)
Lemma callToolLoop_fuel :
  forall fuel1 fuel2 attempt,
    maxRetries + 1 - attempt <= Z.of_nat fuel1 ->
    maxRetries + 1 - attempt <= Z.of_nat fuel2 ->
    callToolLoop fuel1 toolName args maxRetries attempt
    = callToolLoop fuel2 toolName args maxRetries attempt.
Proof.
  induction fuel1 as [|fuel1 IH]; intros fuel2 attempt H1 H2.
  - destruct fuel2 as [|fuel2]; cbn [callToolLoop]; [reflexivity|].
    assert (Hle : (attempt <=? maxRetries) = false) by (apply Z.leb_gt; lia).
    rewrite Hle. reflexivity.
  - destruct fuel2 as [|fuel2]; cbn [callToolLoop].
    + assert (Hle : (attempt <=? maxRetries) = false) by (apply Z.leb_gt; lia).
      rewrite Hle. reflexivity.
    + destruct (attempt <=? maxRetries) eqn:Hle; [|reflexivity].
      f_equal. rewrite (IH fuel2 (attempt + 1)) by lia. reflexivity.
Qed.

(** Success at the [j]-th turn from [attempt] on, after [j] failures that
    each lead to a good reconnect. *)
Lemma callToolLoop_succeeds_after (result : ToolResult) :
  forall (j fuel : nat) (attempt : Z) (rt : Runtime) (fails : nat -> thrown),
    (exists client, mcpClient (this rt) = Some client) ->
    (j < fuel)%nat ->
    attempt + Z.of_nat j <= maxRetries ->
    (forall i, (i < j)%nat ->
       invocationFails w toolName args (invocations rt + i) (fails i)
       /\ isConnectionError (errorMessage (fails i)) = true
       /\ reconnectSucceeds w (reconnects rt + i) (listings rt + i)) ->
    invocationReturns w toolName args (invocations rt + j) result ->
    exists rt',
      run w (callToolLoop fuel toolName args maxRetries attempt) rt
      = (rt', Returned result)
      /\ invocations rt' = (invocations rt + j + 1)%nat
      /\ reconnects rt' = (reconnects rt + j)%nat
      /\ sameConversation rt rt'.
Proof.
  induction j as [|j IH]; intros fuel attempt rt fails [client Hc] Hfuel Hle Hfail Hok.
  - destruct fuel as [|fuel]; [lia|]. cbn [callToolLoop].
    assert (Hleb : (attempt <=? maxRetries) = true) by (apply Z.leb_le; lia).
    rewrite Hleb, run_bind.
    rewrite (callToolAttempt_returns w rt toolName args maxRetries attempt client result Hc)
      by (rewrite <- (Nat.add_0_r (invocations rt)); apply Hok).
    cbn [run]. eexists. split; [reflexivity|]. counts.
    repeat split; lia.
  - destruct fuel as [|fuel]; [lia|]. cbn [callToolLoop].
    assert (Hleb : (attempt <=? maxRetries) = true) by (apply Z.leb_le; lia).
    rewrite Hleb, run_bind.
    destruct (Hfail O ltac:(lia)) as (Hf0 & Hconn0 & Hrec0).
    rewrite Nat.add_0_r in Hf0. rewrite !Nat.add_0_r in Hrec0.
    destruct (callToolAttempt_reconnects w rt toolName args maxRetries attempt
                client (fails O) Hc (Hf0 client) Hconn0 ltac:(lia))
      as (rt1 & Hrun & Hi1 & Hr1 & Hc1 & Hs1 & Hl1).
    rewrite Hrun.
    specialize (Hl1 Hrec0).
    destruct (IH fuel (attempt + 1) rt1 (fun i => fails (S i)) Hc1 ltac:(lia) ltac:(lia))
      as (rt' & Hrun' & Hi' & Hr' & Hs').
    + intros i Hi. rewrite Hi1, Hr1, Hl1.
      replace (S (invocations rt) + i)%nat with (invocations rt + S i)%nat by lia.
      replace (S (reconnects rt) + i)%nat with (reconnects rt + S i)%nat by lia.
      replace (S (listings rt) + i)%nat with (listings rt + S i)%nat by lia.
      apply Hfail. lia.
    + rewrite Hi1. replace (S (invocations rt) + j)%nat with (invocations rt + S j)%nat by lia.
      exact Hok.
    + exists rt'. split; [exact Hrun'|].
      repeat split; try lia.
      all: unfold sameConversation in *; intuition congruence.
Qed.

(** Failure at every turn up to the last one, which is [n] turns after
    [attempt]: the last error leaves the loop as it came. *)
Lemma callToolLoop_exhausts :
  forall (n fuel : nat) (attempt : Z) (rt : Runtime) (fails : nat -> thrown),
    (exists client, mcpClient (this rt) = Some client) ->
    (n < fuel)%nat ->
    attempt + Z.of_nat n = maxRetries ->
    (forall i, (i <= n)%nat ->
       invocationFails w toolName args (invocations rt + i) (fails i)
       /\ isConnectionError (errorMessage (fails i)) = true) ->
    exists rt',
      run w (callToolLoop fuel toolName args maxRetries attempt) rt
      = (rt', Raised (fails n))
      /\ invocations rt' = (invocations rt + n + 1)%nat
      /\ reconnects rt' = (reconnects rt + n)%nat
      /\ sameConversation rt rt'.
Proof.
  induction n as [|n IH]; intros fuel attempt rt fails [client Hc] Hfuel Hle Hfail.
  - destruct fuel as [|fuel]; [lia|]. cbn [callToolLoop].
    assert (Hleb : (attempt <=? maxRetries) = true) by (apply Z.leb_le; lia).
    rewrite Hleb, run_bind.
    destruct (Hfail O ltac:(lia)) as (Hf0 & Hconn0). rewrite Nat.add_0_r in Hf0.
    rewrite (callToolAttempt_rethrows w rt toolName args maxRetries attempt client
               (fails O) Hc (Hf0 client)).
    + eexists. split; [reflexivity|]. counts. repeat split; lia.
    + assert (Hltb : (attempt <? maxRetries) = false) by (apply Z.ltb_ge; lia).
      rewrite Hltb. apply andb_false_r.
  - destruct fuel as [|fuel]; [lia|]. cbn [callToolLoop].
    assert (Hleb : (attempt <=? maxRetries) = true) by (apply Z.leb_le; lia).
    rewrite Hleb, run_bind.
    destruct (Hfail O ltac:(lia)) as (Hf0 & Hconn0). rewrite Nat.add_0_r in Hf0.
    destruct (callToolAttempt_reconnects w rt toolName args maxRetries attempt
                client (fails O) Hc (Hf0 client) Hconn0 ltac:(lia))
      as (rt1 & Hrun & Hi1 & Hr1 & Hc1 & Hs1 & _).
    rewrite Hrun.
    destruct (IH fuel (attempt + 1) rt1 (fun i => fails (S i)) Hc1 ltac:(lia) ltac:(lia))
      as (rt' & Hrun' & Hi' & Hr' & Hs').
    + intros i Hi. rewrite Hi1.
      replace (S (invocations rt) + i)%nat with (invocations rt + S i)%nat by lia.
      apply Hfail. lia.
    + exists rt'. split; [exact Hrun'|].
      repeat split; try lia.
      all: unfold sameConversation in *; intuition congruence.
Qed.

(** The loop, whatever the world does. *)
Lemma callToolLoop_any :
  forall (fuel : nat) (attempt : Z) (rt : Runtime),
  exists rt' c,
    run w (callToolLoop fuel toolName args maxRetries attempt) rt = (rt', c)
    /\ ((exists result, c = Returned result) \/ (exists e, c = Raised e))
    /\ sameConversation rt rt'
    /\ ((exists client, mcpClient (this rt) = Some client) ->
        exists client, mcpClient (this rt') = Some client)
    /\ (forall client, mcpClient (this rt) = Some client ->
        (0 < fuel)%nat -> attempt <= maxRetries ->
        exists rest,
          trace rt' = trace rt ++ Requested (CallTool client toolName args) :: rest).
Proof.
  induction fuel as [|fuel IH]; intros attempt rt; cbn [callToolLoop].
  - cbn [run]. eexists _, _. split; [reflexivity|].
    split; [eauto|]. split; [apply sameConversation_refl|]. split; [auto|].
    intros; lia.
  - destruct (attempt <=? maxRetries) eqn:Hle.
    + rewrite run_bind.
      destruct (callToolAttempt_any w rt toolName args maxRetries attempt)
        as (rt1 & c1 & Hrun & Hc1 & Hs1 & Hcl1 & Htr1).
      rewrite Hrun. destruct Hc1 as [[[result|] ->] | [e ->]].
      * cbn [run]. eexists _, _. split; [reflexivity|].
        split; [eauto|]. split; [exact Hs1|]. split; [exact Hcl1|].
        intros client Hc _ _. exact (Htr1 client Hc).
      * destruct (IH (attempt + 1) rt1) as (rt2 & c2 & Hrun2 & Hc2 & Hs2 & Hcl2 & _).
        exists rt2, c2. split; [exact Hrun2|].
        split; [exact Hc2|]. split; [exact (sameConversation_trans _ _ _ Hs1 Hs2)|].
        split; [auto|].
        intros client Hc _ _. destruct (Htr1 client Hc) as [rest Hrest].
        destruct (run_trace_extends _ w
                    (callToolLoop fuel toolName args maxRetries (attempt + 1)) rt1)
          as [more Hmore].
        rewrite Hrun2 in Hmore. cbn [fst] in Hmore.
        exists (rest ++ more). rewrite Hmore, Hrest, <- app_assoc. reflexivity.
      * eexists _, _. split; [reflexivity|].
        split; [eauto|]. split; [exact Hs1|]. split; [exact Hcl1|].
        intros client Hc _ _. exact (Htr1 client Hc).
    + cbn [run]. eexists _, _. split; [reflexivity|].
      split; [eauto|]. split; [apply sameConversation_refl|]. split; [auto|].
      intros client _ _ Hle'. apply Z.leb_gt in Hle. lia.
Qed.

End Loop.

(** How one turn of the loop can end: an error leaves it as it came, and
    the loop goes on only when retries remain. *)
Lemma callToolAttempt_ends (w : World) (rt rt' : Runtime) (toolName : string)
    (args : JsValue) (maxRetries attempt : Z) (c : completion (option ToolResult)) :
  run w (callToolAttempt toolName args maxRetries attempt) rt = (rt', c) ->
  match c with
  | Returned (Some _) => True
  | Returned None => attempt < maxRetries
  | Raised error => rawError w toolName args error
  | Exited => False
  end.
Proof.
  destruct (mcpClient (this rt)) as [client|] eqn:Hc.
  - destruct (answer w (CallTool client toolName args) (invocations rt))
      as [result|error] eqn:Ha.
    + rewrite (callToolAttempt_returns w rt toolName args maxRetries attempt client
                 result Hc Ha).
      intros Heq. injection Heq as _ <-. exact I.
    + destruct (isConnectionError (errorMessage error) && (attempt <? maxRetries))
        eqn:Hcond.
      * apply andb_prop in Hcond. destruct Hcond as [Hconn Hlt].
        apply Z.ltb_lt in Hlt.
        destruct (callToolAttempt_reconnects w rt toolName args maxRetries attempt
                    client error Hc Ha Hconn Hlt) as (rt1 & Hrun & _).
        rewrite Hrun. intros Heq. injection Heq as _ <-. exact Hlt.
      * rewrite (callToolAttempt_rethrows w rt toolName args maxRetries attempt client
                   error Hc Ha Hcond).
        intros Heq. injection Heq as _ <-. right. exists client, (invocations rt).
        exact Ha.
  - unfold callToolAttempt. run_simpl. rewrite Hc. run_simpl.
    replace (isConnectionError (errorMessage (JsError "MCP client not initialized")))
      with false by (vm_compute; reflexivity).
    cbn [andb]. run_simpl. intros Heq. injection Heq as _ <-. left. reflexivity.
Qed.

Section Raw.

Variable w : World.
Variables (toolName : string) (args : JsValue) (maxRetries : Z).

(** With turns left and fuel for them, whatever the loop throws is a raw
    error: the [throw] after the loop and the wrapped [throw] are never
    reached. *)
Lemma callToolLoop_raises_raw :
  forall (fuel : nat) (attempt : Z) (rt rt' : Runtime) (error : thrown),
    attempt <= maxRetries ->
    maxRetries + 1 - attempt <= Z.of_nat fuel ->
    run w (callToolLoop fuel toolName args maxRetries attempt) rt = (rt', Raised error) ->
    rawError w toolName args error.
Proof.
  induction fuel as [|fuel IH]; intros attempt rt rt' error Hle Hfuel; [lia|].
  cbn [callToolLoop].
  assert (Hleb : (attempt <=? maxRetries) = true) by (apply Z.leb_le; exact Hle).
  rewrite Hleb, run_bind.
  destruct (run w (callToolAttempt toolName args maxRetries attempt) rt)
    as [rt1 c] eqn:Hrun.
  pose proof (callToolAttempt_ends w rt rt1 toolName args maxRetries attempt c Hrun)
    as Hend.
  destruct c as [[result|] | e |].
  - cbn [run]. discriminate.
  - intros Hloop. apply (IH (attempt + 1) rt1 rt' error); [lia|lia|exact Hloop].
  - intros Heq. injection Heq as _ <-. exact Hend.
  - contradiction.
Qed.

End Raw.

End RetryFacts.

(** ** ToolInvoker: the claims on [callToolWithRetry] *)

(** C1. With at most [maxRetries + 1] attempts allowed: if the first
    [k - 1] invocation attempts each fail with a connection-class error,
    every reconnect they trigger succeeds, and the [k]-th attempt
    succeeds, then [callToolWithRetry] returns the result of the [k]-th
    attempt, after exactly [k - 1] reconnects and [k] invocation attempts,
    which is at most [maxRetries + 1]. *)
Theorem callToolWithRetry_succeeds_on_attempt_k :
  forall (w : World) (rt : Runtime) (toolName : string) (args : JsValue)
         (maxRetries : Z) (k : nat) (fails : nat -> thrown) (result : ToolResult),
    (exists client, mcpClient (this rt) = Some client) ->
    (1 <= k)%nat ->
    Z.of_nat k <= maxRetries + 1 ->
    (forall i, (i < k - 1)%nat ->
       invocationFails w toolName args (invocations rt + i) (fails i)
       /\ isConnectionError (errorMessage (fails i)) = true
       /\ reconnectSucceeds w (reconnects rt + i) (listings rt + i)) ->
    invocationReturns w toolName args (invocations rt + (k - 1)) result ->
    exists rt',
      run w (callToolWithRetry toolName args maxRetries) rt = (rt', Returned result)
      /\ reconnects rt' = (reconnects rt + (k - 1))%nat
      /\ invocations rt' = (invocations rt + k)%nat
      /\ Z.of_nat (invocations rt' - invocations rt) <= maxRetries + 1.
Proof.
  intros w rt toolName args maxRetries k fails result Hc Hk HkN Hfail Hok.
  unfold callToolWithRetry.
  destruct (RetryFacts.callToolLoop_succeeds_after w toolName args maxRetries result
              (k - 1) (Z.to_nat (maxRetries + 1)) 0 rt fails Hc)
    as (rt' & Hrun & Hi & Hr & _); try assumption; try lia.
  exists rt'. split; [exact Hrun|]. repeat split; lia.
Qed.

Lemma callToolWithRetry_succeeds_on_attempt_k_witness :
  exists rt',
    run (flakyWorld 2 (JsError "HTTP 404") twoTasks plainReply)
        (callToolWithRetry "find-tasks-by-date" todayArgs 2) connectedRuntime
    = (rt', Returned twoTasks)
    /\ reconnects rt' = 2%nat
    /\ invocations rt' = 3%nat
    /\ Z.of_nat (invocations rt' - 0) <= 2 + 1.
Proof.
  apply (callToolWithRetry_succeeds_on_attempt_k
           (flakyWorld 2 (JsError "HTTP 404") twoTasks plainReply) connectedRuntime
           "find-tasks-by-date" todayArgs 2 3 (fun _ => JsError "HTTP 404") twoTasks).
  - exists 1%nat. reflexivity.
  - lia.
  - lia.
  - intros i Hi. assert (Hcases : i = 0%nat \/ i = 1%nat) by lia.
    destruct Hcases as [-> | ->]; (split; [intros client; reflexivity|]);
      (split; [reflexivity|]);
      (split; [intros client transport; reflexivity
              |intros client; eexists; reflexivity]).
  - intros client. reflexivity.
Defined.

(** C2. If the first invocation attempt fails with an error that is not
    connection-class, [callToolWithRetry] propagates that very error at
    once: the run consists of that one invocation, with no reconnect and
    no other effect. *)
Theorem callToolWithRetry_propagates_other_errors :
  forall (w : World) (rt : Runtime) (toolName : string) (args : JsValue)
         (maxRetries : Z) (client : handle) (error : thrown),
    0 <= maxRetries ->
    mcpClient (this rt) = Some client ->
    answer w (CallTool client toolName args) (invocations rt) = Rejected error ->
    isConnectionError (errorMessage error) = false ->
    run w (callToolWithRetry toolName args maxRetries) rt
    = (requested (CallTool client toolName args) rt, Raised error)
    /\ invocations (requested (CallTool client toolName args) rt)
       = S (invocations rt)
    /\ reconnects (requested (CallTool client toolName args) rt) = reconnects rt.
Proof.
  intros w rt toolName args maxRetries client error Hmax Hc Ha Hno.
  unfold callToolWithRetry.
  destruct (Z.to_nat (maxRetries + 1)) as [|fuel] eqn:Hfuel; [lia|].
  cbn [callToolLoop].
  assert (Hleb : (0 <=? maxRetries) = true) by (apply Z.leb_le; exact Hmax).
  rewrite Hleb, RunFacts.run_bind.
  rewrite (RetryFacts.callToolAttempt_rethrows w rt toolName args maxRetries 0
             client error Hc Ha) by (rewrite Hno; reflexivity).
  split; [reflexivity|]. counts. split; lia.
Qed.

Lemma callToolWithRetry_propagates_other_errors_witness :
  run (flakyWorld 1 (JsError "Task not found") twoTasks plainReply)
      (callToolWithRetry "complete-task" todayArgs 2) connectedRuntime
  = (requested (CallTool 1%nat "complete-task" todayArgs) connectedRuntime,
     Raised (JsError "Task not found"))
  /\ invocations (requested (CallTool 1%nat "complete-task" todayArgs) connectedRuntime)
     = 1%nat
  /\ reconnects (requested (CallTool 1%nat "complete-task" todayArgs) connectedRuntime)
     = 0%nat.
Proof.
  apply (callToolWithRetry_propagates_other_errors
           (flakyWorld 1 (JsError "Task not found") twoTasks plainReply)
           connectedRuntime "complete-task" todayArgs 2 1%nat
           (JsError "Task not found")).
  - lia.
  - reflexivity.
  - reflexivity.
  - reflexivity.
Defined.

(** C3, as the claim states it, fails: when all three attempts fail with
    a connection-class error, what [callToolWithRetry] throws is the error
    of the last attempt as it came, and its message does not name the
    tool. *)
Lemma callToolWithRetry_last_error_not_wrapped :
  snd (run (flakyWorld 3 (JsError "connection reset") twoTasks plainReply)
           (callToolWithRetry "find-tasks-by-date" todayArgs 2) connectedRuntime)
  = Raised (JsError "connection reset")
  /\ ~ (exists message,
          snd (run (flakyWorld 3 (JsError "connection reset") twoTasks plainReply)
                   (callToolWithRetry "find-tasks-by-date" todayArgs 2)
                   connectedRuntime)
          = Raised (JsError message)
          /\ Str.includes message "find-tasks-by-date" = true).
Proof.
  split; [vm_compute; reflexivity|].
  intros [message [Hrun Hnames]].
  vm_compute in Hrun. injection Hrun as <-.
  vm_compute in Hnames. discriminate.
Qed.

(** Whatever [callToolWithRetry] throws, with at least one attempt allowed,
    is an error that came to it, never one of its own [Failed to execute
    ... after n attempts]: the wrapped [throw] sits under
    [attempt < maxRetries] and asks for [attempt === maxRetries], and the
    [throw] after the loop follows a last turn that always returns or
    throws. *)
Lemma callToolWithRetry_never_wraps :
  forall (w : World) (rt rt' : Runtime) (toolName : string) (args : JsValue)
         (maxRetries : Z) (error : thrown),
    0 <= maxRetries ->
    run w (callToolWithRetry toolName args maxRetries) rt = (rt', Raised error) ->
    rawError w toolName args error.
Proof.
  intros w rt rt' toolName args maxRetries error Hmax Hrun.
  apply (RetryFacts.callToolLoop_raises_raw w toolName args maxRetries
           (Z.to_nat (maxRetries + 1)) 0 rt rt' error); [exact Hmax|lia|exact Hrun].
Qed.

(** C3, amended. If every one of the [maxRetries + 1] invocation attempts
    fails with a connection-class error, [callToolWithRetry] makes exactly
    [maxRetries + 1] invocation attempts and [maxRetries] reconnects,
    whatever comes of the reconnects, and then rethrows the error of the
    last attempt unchanged. *)
Theorem callToolWithRetry_rethrows_last_error :
  forall (w : World) (rt : Runtime) (toolName : string) (args : JsValue)
         (maxRetries : Z) (fails : nat -> thrown),
    (exists client, mcpClient (this rt) = Some client) ->
    0 <= maxRetries ->
    (forall i, Z.of_nat i <= maxRetries ->
       invocationFails w toolName args (invocations rt + i) (fails i)
       /\ isConnectionError (errorMessage (fails i)) = true) ->
    exists rt',
      run w (callToolWithRetry toolName args maxRetries) rt
      = (rt', Raised (fails (Z.to_nat maxRetries)))
      /\ Z.of_nat (invocations rt') = Z.of_nat (invocations rt) + maxRetries + 1
      /\ Z.of_nat (reconnects rt') = Z.of_nat (reconnects rt) + maxRetries.
Proof.
  intros w rt toolName args maxRetries fails Hc Hmax Hfail.
  unfold callToolWithRetry.
  destruct (RetryFacts.callToolLoop_exhausts w toolName args maxRetries
              (Z.to_nat maxRetries) (Z.to_nat (maxRetries + 1)) 0 rt fails Hc)
    as (rt' & Hrun & Hi & Hr & _); try lia.
  - intros i Hi. apply Hfail. lia.
  - exists rt'. split; [exact Hrun|]. split; lia.
Qed.

Lemma callToolWithRetry_rethrows_last_error_witness :
  exists rt',
    run (flakyWorld 3 (JsError "connection reset") twoTasks plainReply)
        (callToolWithRetry "find-tasks-by-date" todayArgs 2) connectedRuntime
    = (rt', Raised (JsError "connection reset"))
    /\ Z.of_nat (invocations rt') = Z.of_nat 0 + 2 + 1
    /\ Z.of_nat (reconnects rt') = Z.of_nat 0 + 2.
Proof.
  apply (callToolWithRetry_rethrows_last_error
           (flakyWorld 3 (JsError "connection reset") twoTasks plainReply)
           connectedRuntime "find-tasks-by-date" todayArgs 2
           (fun _ => JsError "connection reset")).
  - exists 1%nat. reflexivity.
  - lia.
  - intros i Hi. split; [|reflexivity].
    intros client. cbn [flakyWorld answer].
    assert (Hlt : (invocations connectedRuntime + i <? 3)%nat = true)
      by (apply Nat.ltb_lt; cbn; lia).
    rewrite Hlt. reflexivity.
Defined.

(** ** The orchestrator: tool calls of one response *)

Module OrchestratorFacts.
Import RunFacts ConnectionFacts RetryFacts.
Local Open Scope prog_scope.

Lemma executeFunctionCall_run (w : World) (rt : Runtime) (call : FunctionCall)
    (acc : list FunctionResponse) :
  run w (executeFunctionCall call acc) rt
  = match run w (callToolWithRetry (call_name call) (argsOrEmpty call) defaultMaxRetries)
              (printed (LogExecuting (call_name call)) rt) with
    | (rt1, Returned toolResult) => (rt1, Returned (acc ++ [okResponse call toolResult]))
    | (rt1, Raised error) =>
        (printed (ErrTool (call_name call) (errorMessage error)) rt1,
         Returned (acc ++ [errorResponse call error]))
    | (rt1, Exited) => (rt1, Exited)
    end.
Proof.
  unfold executeFunctionCall. rewrite run_tryCatch. cbn [bind say run].
  rewrite run_bind.
  destruct (run w _ (printed _ rt)) as [rt1 [toolResult | error |]]; reflexivity.
Qed.

(** One call of the batch always leaves a result, the error result when
    the call threw. *)
Lemma executeFunctionCall_any (w : World) (rt : Runtime) (call : FunctionCall)
    (acc : list FunctionResponse) :
  exists rt1 r,
    run w (executeFunctionCall call acc) rt = (rt1, Returned (acc ++ [r]))
    /\ fr_name r = call_name call
    /\ sameConversation rt rt1
    /\ ((exists client, mcpClient (this rt) = Some client) ->
        exists client, mcpClient (this rt1) = Some client)
    /\ (forall client, mcpClient (this rt) = Some client ->
        exists rest,
          trace rt1
          = trace rt ++ Requested (CallTool client (call_name call) (argsOrEmpty call))
                     :: rest)
    /\ (forall rt2 error,
          run w (callToolWithRetry (call_name call) (argsOrEmpty call) defaultMaxRetries)
              (printed (LogExecuting (call_name call)) rt) = (rt2, Raised error) ->
          r = errorResponse call error).
Proof.
  rewrite executeFunctionCall_run. unfold callToolWithRetry.
  destruct (callToolLoop_any w (call_name call) (argsOrEmpty call) defaultMaxRetries
              (Z.to_nat (defaultMaxRetries + 1)) 0
              (printed (LogExecuting (call_name call)) rt))
    as (rt1 & c & Hrun & Hc & Hs & Hcl & Htr).
  rewrite Hrun.
  assert (Hs' : sameConversation rt rt1) by exact Hs.
  assert (Htr' : forall client, mcpClient (this rt) = Some client ->
                   exists rest,
                     trace rt1
                     = trace rt
                       ++ Requested (CallTool client (call_name call) (argsOrEmpty call))
                       :: rest).
  { intros client Hclient. apply (Htr client Hclient); vm_compute; [lia|discriminate]. }
  destruct Hc as [[toolResult ->] | [error ->]].
  - exists rt1, (okResponse call toolResult). split; [reflexivity|].
    split; [reflexivity|]. split; [exact Hs'|]. split; [exact Hcl|].
    split; [exact Htr'|]. intros rt2 error Heq. discriminate.
  - exists (printed (ErrTool (call_name call) (errorMessage error)) rt1),
           (errorResponse call error).
    split; [reflexivity|]. split; [reflexivity|]. split; [exact Hs'|].
    split; [exact Hcl|]. split; [exact Htr'|].
    intros rt2 error' Heq. injection Heq as _ <-. reflexivity.
Qed.

Lemma executeFunctionCalls_cons (w : World) (rt rt1 : Runtime) (call : FunctionCall)
    (calls : list FunctionCall) (acc acc' : list FunctionResponse) :
  run w (executeFunctionCall call acc) rt = (rt1, Returned acc') ->
  run w (executeFunctionCalls (call :: calls) acc) rt
  = run w (executeFunctionCalls calls acc') rt1.
Proof.
  intros Hrun. cbn [executeFunctionCalls]. rewrite run_bind, Hrun. reflexivity.
Qed.

Lemma executeFunctionCalls_any (w : World) :
  forall (calls : list FunctionCall) (rt : Runtime) (acc : list FunctionResponse),
  exists rt' rs,
    run w (executeFunctionCalls calls acc) rt = (rt', Returned (acc ++ rs))
    /\ map fr_name rs = map call_name calls
    /\ sameConversation rt rt'
    /\ ((exists client, mcpClient (this rt) = Some client) ->
        exists client, mcpClient (this rt') = Some client)
    /\ (forall i call,
          nth_error calls i = Some call ->
          (forall rt2 error,
             run w (toolCallOf call)
                 (printed (LogExecuting (call_name call))
                          (stateBeforeCall w calls acc rt i))
             = (rt2, Raised error) ->
             nth_error rs i = Some (errorResponse call error))
          /\ ((exists client, mcpClient (this rt) = Some client) ->
              exists client rest,
                trace rt'
                = trace (stateBeforeCall w calls acc rt i)
                  ++ Requested (CallTool client (call_name call) (argsOrEmpty call))
                  :: rest)).
Proof.
  induction calls as [|call0 calls IH]; intros rt acc.
  - cbn [executeFunctionCalls run]. exists rt, []. rewrite app_nil_r.
    split; [reflexivity|]. split; [reflexivity|].
    split; [apply sameConversation_refl|]. split; [auto|].
    intros i call Hnth. destruct i; discriminate.
  - destruct (executeFunctionCall_any w rt call0 acc)
      as (rt1 & r & Hrun1 & Hname & Hs1 & Hcl1 & Htr1 & Herr1).
    destruct (IH rt1 (acc ++ [r])) as (rt' & rs & Hrun & Hnames & Hs & Hcl & Hcalls).
    exists rt', (r :: rs).
    rewrite (executeFunctionCalls_cons w rt rt1 call0 calls acc (acc ++ [r]) Hrun1).
    rewrite Hrun, <- app_assoc. split; [reflexivity|].
    split; [cbn [map]; congruence|].
    split; [exact (sameConversation_trans _ _ _ Hs1 Hs)|].
    split; [auto|].
    intros i call Hnth. destruct i as [|i].
    + injection Hnth as <-. unfold stateBeforeCall. cbn [firstn executeFunctionCalls run fst].
      split.
      * intros rt2 error Hraise. cbn [nth_error]. f_equal.
        exact (Herr1 rt2 error Hraise).
      * intros [client Hclient]. destruct (Htr1 client Hclient) as [rest Hrest].
        destruct (run_trace_extends _ w (executeFunctionCalls calls (acc ++ [r])) rt1)
          as [more Hmore].
        rewrite Hrun in Hmore. cbn [fst] in Hmore.
        exists client, (rest ++ more). rewrite Hmore, Hrest, <- app_assoc. reflexivity.
    + cbn [nth_error] in Hnth.
      assert (Hbefore : stateBeforeCall w (call0 :: calls) acc rt (S i)
                        = stateBeforeCall w calls (acc ++ [r]) rt1 i).
      { unfold stateBeforeCall. cbn [firstn].
        rewrite (executeFunctionCalls_cons w rt rt1 call0 (firstn i calls) acc
                   (acc ++ [r]) Hrun1).
        reflexivity. }
      rewrite Hbefore. destruct (Hcalls i call Hnth) as [Herr Htr].
      split; [exact Herr|]. intros Hclient. apply Htr. auto.
Qed.

(** The first result of a batch is the result of its first call: the
    content the tool returned, or the description of the error thrown. *)
Lemma executeFunctionCalls_head (w : World) (rt rt1 : Runtime) (call : FunctionCall)
    (calls : list FunctionCall) (r0 : FunctionResponse)
    (others : list FunctionResponse) :
  run w (executeFunctionCalls (call :: calls) []) rt = (rt1, Returned (r0 :: others)) ->
  match run w (callToolWithRetry (call_name call) (argsOrEmpty call) defaultMaxRetries)
            (printed (LogExecuting (call_name call)) rt) with
  | (_, Returned toolResult) =>
      r0 = mkFunctionResponse (call_name call)
             (JObj [("content", result_content toolResult)])
  | (_, Raised error) =>
      r0 = mkFunctionResponse (call_name call)
             (JObj [("content",
                     JStr ("Error: " ++ match error with
                                        | JsError message => message
                                        | JsOther text => text
                                        end)%string)])
  | (_, Exited) => False
  end.
Proof.
  cbn [executeFunctionCalls]. rewrite run_bind, executeFunctionCall_run.
  destruct (run w (callToolWithRetry (call_name call) (argsOrEmpty call)
                     defaultMaxRetries)
                (printed (LogExecuting (call_name call)) rt))
    as [rtc [toolResult | error | ]]; [| |discriminate].
  - destruct (executeFunctionCalls_any w calls rtc ([] ++ [okResponse call toolResult]))
      as (rt' & rs & Hrun & _).
    rewrite Hrun. intros H. injection H as _ <- _. reflexivity.
  - destruct (executeFunctionCalls_any w calls
                (printed (ErrTool (call_name call) (errorMessage error)) rtc)
                ([] ++ [errorResponse call error]))
      as (rt' & rs & Hrun & _).
    rewrite Hrun. intros H. injection H as _ <- _. destruct error; reflexivity.
Qed.

Lemma functionResponse_eta (r : FunctionResponse) :
  mkFunctionResponse (fr_name r) (fr_response r) = r.
Proof. destruct r. reflexivity. Qed.

(** With tool calls in the response, [handleModelResponse] runs the
    batch and then sends one message, which carries
    [functionResponses[0]] alone. *)
Lemma handleModelResponse_with_calls (w : World) (rt : Runtime) (result : ModelResponse)
    (chat : handle) (call : FunctionCall) (calls : list FunctionCall) :
  response_functionCalls result = Some (call :: calls) ->
  exists rt1 r0 others rt2 c,
    run w (executeFunctionCalls (call :: calls) []) (printed LogUsingTools rt)
    = (rt1, Returned (r0 :: others))
    /\ run w (handleModelResponse result (Some chat)) rt = (rt2, c)
    /\ trace rt2
       = trace rt1 ++ [Requested (SendMessage chat (FunctionResponseParts [r0]))]
    /\ (c = Returned tt \/ exists e, c = Raised e).
Proof.
  intros Hcalls.
  destruct (executeFunctionCalls_any w (call :: calls) (printed LogUsingTools rt) [])
    as (rt1 & rs & Hrun & Hnames & _).
  destruct rs as [|r0 others]; [discriminate|]. cbn [app] in Hrun.
  unfold handleModelResponse. rewrite Hcalls.
  cbn [bind say run]. rewrite run_bind, Hrun.
  cbn [followUpMessage bind]. rewrite functionResponse_eta. run_simpl.
  case_answer; run_simpl.
  - destruct (Str.nonBlank (response_text value)); run_simpl;
      (exists rt1, r0, others; eexists _, _; split; [reflexivity|];
       split; [reflexivity|]; split; [reflexivity|]; left; reflexivity).
  - exists rt1, r0, others. eexists _, _. split; [reflexivity|].
    split; [reflexivity|]. split; [reflexivity|]. right. eexists. reflexivity.
Qed.

End OrchestratorFacts.

(** ** The orchestrator: one user turn *)

Module TurnFacts.
Import RunFacts ConnectionFacts RetryFacts OrchestratorFacts.
Local Open Scope prog_scope.

(** [handleModelResponse], whatever the world does: it adds at most one
    entry to the history, a model entry, and leaves the session and the
    guard alone. *)
Lemma handleModelResponse_any (w : World) (rt : Runtime) (result : ModelResponse)
    (chat : option handle) :
  exists rt' c entries,
    run w (handleModelResponse result chat) rt = (rt', c)
    /\ (c = Returned tt \/ exists e, c = Raised e)
    /\ conversationHistory (this rt') = conversationHistory (this rt) ++ entries
    /\ Forall (fun t => turn_role t = RoleModel /\ Str.nonBlank (turn_text t) = true)
              entries
    /\ currentChat (this rt') = currentChat (this rt)
    /\ isProcessingRequest (this rt') = isProcessingRequest (this rt).
Proof.
  unfold handleModelResponse.
  destruct (response_functionCalls result) as [[|call calls]|] eqn:Hcalls.
  1, 3: destruct (Str.nonBlank (response_text result)); run_simpl;
    (eexists _, _, []; split; [reflexivity|]; rewrite app_nil_r;
     repeat split; auto).
  cbn [bind say run]. rewrite run_bind.
  destruct (executeFunctionCalls_any w (call :: calls) (printed LogUsingTools rt) [])
    as (rt1 & rs & Hrun & _ & (Hflag & Hhist & Hchat & _) & _).
  cbn [app] in Hrun. rewrite Hrun.
  cbn [printed this] in Hflag, Hhist, Hchat.
  destruct chat as [chat|]; run_simpl.
  2:{ eexists _, _, []. split; [reflexivity|]. rewrite app_nil_r.
      repeat split; eauto. }
  destruct rs as [|r0 others]; cbn [followUpMessage bind]; run_simpl.
  { eexists _, _, []. split; [reflexivity|]. rewrite app_nil_r.
    repeat split; eauto. }
  case_answer; run_simpl.
  - destruct (Str.nonBlank (response_text value)) eqn:Htext; run_simpl.
    + eexists _, _, [_]. split; [reflexivity|]. run_simpl.
      rewrite Hhist. repeat split; auto.
    + eexists _, _, []. split; [reflexivity|]. rewrite app_nil_r. run_simpl.
      repeat split; auto.
  - eexists _, _, []. split; [reflexivity|]. rewrite app_nil_r. run_simpl.
    repeat split; eauto.
Qed.

(** What [processUserInput] does once the first reply is there. *)
Lemma afterFirstReply_any (w : World) (rt : Runtime) (result : ModelResponse) :
  exists rt' c entries more,
    run w ((if Str.nonBlank (response_text result)
            then pushHistory RoleModel (response_text result)
            else Print WarnEmptyInitial (say (DebugInitial result)));;
           GetThis (fun s : This => handleModelResponse result (currentChat s))) rt
    = (rt', c)
    /\ (c = Returned tt \/ exists e, c = Raised e)
    /\ conversationHistory (this rt') = conversationHistory (this rt) ++ entries
    /\ Forall (fun t => turn_role t = RoleModel /\ Str.nonBlank (turn_text t) = true)
              entries
    /\ currentChat (this rt') = currentChat (this rt)
    /\ isProcessingRequest (this rt') = isProcessingRequest (this rt)
    /\ trace rt' = trace rt ++ more.
Proof.
  rewrite run_bind.
  destruct (Str.nonBlank (response_text result)) eqn:Htext; run_simpl.
  - match goal with
    | |- context [run w ?p ?rt0] =>
        destruct (handleModelResponse_any w rt0 result (currentChat (this rt)))
          as (rt' & c & entries & Hrun & Hc & Hhist & Hall & Hchat & Hflag);
        destruct (run_trace_extends _ w p rt0) as [more Hmore]
    end.
    run_simpl. rewrite Hrun in *. cbn [fst] in Hmore.
    exists rt', c, (mkTurn RoleModel (response_text result) :: entries), more.
    split; [reflexivity|]. split; [exact Hc|].
    revert Hhist Hchat Hflag Hmore. run_simpl. intros Hhist Hchat Hflag Hmore.
    split; [rewrite Hhist, <- app_assoc; reflexivity|].
    split; [constructor; auto|]. auto.
  - match goal with
    | |- context [run w ?p ?rt0] =>
        destruct (handleModelResponse_any w rt0 result (currentChat (this rt)))
          as (rt' & c & entries & Hrun & Hc & Hhist & Hall & Hchat & Hflag);
        destruct (run_trace_extends _ w p rt0) as [more Hmore]
    end.
    run_simpl. rewrite Hrun in *. cbn [fst] in Hmore.
    exists rt', c, entries, more.
    split; [reflexivity|]. split; [exact Hc|].
    revert Hhist Hchat Hflag Hmore. run_simpl. intros Hhist Hchat Hflag Hmore.
    auto.
Qed.

Lemma processUserInput_any (w : World) (rt : Runtime) (userInput : string) :
  exists rt' modelEntries more,
    run w (processUserInput userInput) rt = (rt', Returned tt)
    /\ conversationHistory (this rt')
       = conversationHistory (this rt) ++ mkTurn RoleUser userInput :: modelEntries
    /\ Forall (fun t => turn_role t = RoleModel /\ Str.nonBlank (turn_text t) = true)
              modelEntries
    /\ (forall e,
          answer w (SendMessage (chatFor rt) (UserText userInput)) (messagesSent rt)
          = Rejected e ->
          modelEntries = [])
    /\ currentChat (this rt') = Some (chatFor rt)
    /\ isProcessingRequest (this rt') = isProcessingRequest (this rt)
    /\ trace rt'
       = trace rt
         ++ match currentChat (this rt) with
            | Some _ => []
            | None =>
                [Constructed
                   (NewChat
                      (map (fun tool =>
                              mkFunctionDeclaration
                                (tool_name tool) (tool_description tool)
                                (cleanSchemaForGemini (tool_inputSchema tool)))
                           (availableTools (this rt)))
                      (mkSystemPrompt
                         (Str.join Str.newline
                            (map (fun tool =>
                                    ("- " ++ tool_name tool ++ ": "
                                     ++ tool_description tool)%string)
                                 (availableTools (this rt))))
                         (dayString w 0) (dayString w 1) (dayString w 7)
                         (dayString w (-1))))
                   (nextHandle rt)]
            end
         ++ Requested (SendMessage (chatFor rt) (UserText userInput)) :: more.
Proof.
  unfold processUserInput, createSystemPrompt, chatFor.
  cbn [bind say run]. rewrite run_tryCatch. run_simpl.
  destruct (currentChat (this rt)) as [chat|] eqn:Hchat; run_simpl; rewrite ?Hchat;
    run_simpl; fold (messagesSent rt).
  - case_answer; run_simpl.
    + match goal with
      | |- context [run w ?p ?rt0] =>
          destruct (afterFirstReply_any w rt0 value)
            as (rt' & c & entries & more & Hrun & Hc & Hhist & Hall & Hch & Hflag & Htr)
      end.
      rewrite Hrun. revert Hhist Hch Hflag Htr. run_simpl. intros Hhist Hch Hflag Htr.
      destruct Hc as [-> | [e ->]];
        (eexists _, entries, more; split; [reflexivity|]; run_simpl;
         split; [rewrite Hhist, <- app_assoc; reflexivity|];
         split; [exact Hall|]; split; [intros; discriminate|];
         split; [congruence|]; split; [exact Hflag|];
         rewrite Htr, <- app_assoc; reflexivity).
    + eexists _, [], []. split; [reflexivity|]. run_simpl.
      repeat split; auto.
  - case_answer; run_simpl.
    + match goal with
      | |- context [run w ?p ?rt0] =>
          destruct (afterFirstReply_any w rt0 value)
            as (rt' & c & entries & more & Hrun & Hc & Hhist & Hall & Hch & Hflag & Htr)
      end.
      rewrite Hrun. revert Hhist Hch Hflag Htr. run_simpl. intros Hhist Hch Hflag Htr.
      destruct Hc as [-> | [e ->]];
        (eexists _, entries, more; split; [reflexivity|]; run_simpl;
         split; [rewrite Hhist, <- app_assoc; reflexivity|];
         split; [exact Hall|]; split; [intros; discriminate|];
         split; [congruence|]; split; [exact Hflag|];
         rewrite Htr, <- !app_assoc; reflexivity).
    + eexists _, [], []. split; [reflexivity|]. run_simpl.
      repeat split; auto. rewrite <- app_assoc. reflexivity.
Qed.

(** When [processUserInput] comes to its first [await], the call to the
    model, the user's entry is already in the history. *)
Lemma processUserInput_suspends (day : Z -> string) (userInput : string) (rt : Runtime) :
  exists rt' k,
    runSync day (processUserInput userInput) rt
    = (rt', Blocked (SendMessage (chatFor rt) (UserText userInput)) k)
    /\ conversationHistory (this rt')
       = conversationHistory (this rt) ++ [mkTurn RoleUser userInput].
Proof.
  unfold processUserInput, createSystemPrompt, chatFor.
  cbn [bind say modify getThis today construct tryCatch runSync pushHistory
       onThis printed this currentChat].
  destruct (currentChat (this rt)) as [chat|] eqn:Hchat;
    cbn [bind say modify getThis today construct await tryCatch runSync
         pushHistory onThis printed constructed this
         set_currentChat set_conversationHistory currentChat];
    rewrite ?Hchat;
    cbn [bind say modify getThis today construct await tryCatch runSync
         pushHistory onThis printed constructed this
         set_currentChat set_conversationHistory currentChat];
    (eexists _, _; split; [reflexivity|]); reflexivity.
Qed.

End TurnFacts.

(** ** What a tool call and a batch cost *)

Module RetryBounds.
Import RunFacts ConnectionFacts RetryFacts.
Local Open Scope prog_scope.

(** What one turn of the loop costs: at most one invocation, and one
    connection attempt exactly when it asks for another turn. *)
Lemma callToolAttempt_counts (w : World) (rt rt' : Runtime) (toolName : string)
    (args : JsValue) (maxRetries attempt : Z) (c : completion (option ToolResult)) :
  run w (callToolAttempt toolName args maxRetries attempt) rt = (rt', c) ->
  (invocations rt <= invocations rt' <= S (invocations rt))%nat
  /\ match c with
     | Returned None =>
         attempt < maxRetries
         /\ invocations rt' = S (invocations rt)
         /\ reconnects rt' = S (reconnects rt)
     | _ => reconnects rt' = reconnects rt
     end.
Proof.
  destruct (mcpClient (this rt)) as [client|] eqn:Hc.
  - destruct (answer w (CallTool client toolName args) (invocations rt))
      as [result|error] eqn:Ha.
    + rewrite (callToolAttempt_returns w rt toolName args maxRetries attempt client
                 result Hc Ha).
      intros Heq. injection Heq as <- <-. counts. lia.
    + destruct (isConnectionError (errorMessage error) && (attempt <? maxRetries))
        eqn:Hcond.
      * apply andb_prop in Hcond. destruct Hcond as [Hconn Hlt].
        apply Z.ltb_lt in Hlt.
        destruct (callToolAttempt_reconnects w rt toolName args maxRetries attempt
                    client error Hc Ha Hconn Hlt) as (rt1 & Hrun & Hi & Hr & _).
        rewrite Hrun. intros Heq. injection Heq as <- <-. lia.
      * rewrite (callToolAttempt_rethrows w rt toolName args maxRetries attempt client
                   error Hc Ha Hcond).
        intros Heq. injection Heq as <- <-. counts. lia.
  - unfold callToolAttempt. run_simpl. rewrite Hc. run_simpl.
    replace (isConnectionError (errorMessage (JsError "MCP client not initialized")))
      with false by (vm_compute; reflexivity).
    cbn [andb]. run_simpl. intros Heq. injection Heq as <- <-. lia.
Qed.

Section Bound.

Variable w : World.
Variables (toolName : string) (args : JsValue) (maxRetries : Z).

Lemma callToolLoop_bounded :
  forall (fuel : nat) (attempt : Z) (rt rt' : Runtime) (c : completion ToolResult),
    attempt <= maxRetries + 1 ->
    run w (callToolLoop fuel toolName args maxRetries attempt) rt = (rt', c) ->
    (invocations rt <= invocations rt')%nat
    /\ (reconnects rt <= reconnects rt')%nat
    /\ Z.of_nat (invocations rt' - invocations rt) <= maxRetries + 1 - attempt
    /\ Z.of_nat (reconnects rt' - reconnects rt) <= Z.max 0 (maxRetries - attempt)
    /\ (reconnects rt' - reconnects rt <= invocations rt' - invocations rt)%nat.
Proof.
  induction fuel as [|fuel IH]; intros attempt rt rt' c Hle; cbn [callToolLoop].
  - cbn [run]. intros Heq. injection Heq as <- _. lia.
  - destruct (attempt <=? maxRetries) eqn:Hleb.
    + apply Z.leb_le in Hleb. rewrite run_bind.
      destruct (run w (callToolAttempt toolName args maxRetries attempt) rt)
        as [rt1 c1] eqn:Hrun.
      destruct (callToolAttempt_counts w rt rt1 toolName args maxRetries attempt c1 Hrun)
        as [Hinv Hrec].
      destruct c1 as [[result|] | e |].
      * cbn [run]. intros Heq. injection Heq as <- _. lia.
      * destruct Hrec as (Hlt & Hi1 & Hr1). intros Hloop.
        destruct (IH (attempt + 1) rt1 rt' c ltac:(lia) Hloop)
          as (Hi & Hr & Hib & Hrb & Hri).
        lia.
      * intros Heq. injection Heq as <- _. lia.
      * intros Heq. injection Heq as <- _. lia.
    + cbn [run]. intros Heq. injection Heq as <- _. lia.
Qed.

End Bound.

(** What one call costs, whatever the world does. *)
Lemma callToolWithRetry_cost (w : World) (rt : Runtime) (toolName : string)
    (args : JsValue) (maxRetries : Z) :
  exists rt' c,
    run w (callToolWithRetry toolName args maxRetries) rt = (rt', c)
    /\ ((exists result, c = Returned result) \/ (exists e, c = Raised e))
    /\ (invocations rt <= invocations rt')%nat
    /\ (reconnects rt <= reconnects rt')%nat
    /\ Z.of_nat (invocations rt' - invocations rt) <= Z.max 0 (maxRetries + 1)
    /\ Z.of_nat (reconnects rt' - reconnects rt) <= Z.max 0 maxRetries
    /\ (reconnects rt' - reconnects rt <= invocations rt' - invocations rt)%nat
    /\ sameConversation rt rt'
    /\ (maxRetries < 0 ->
        rt' = rt /\ c = Raised (JsError (failedAfter toolName maxRetries))).
Proof.
  unfold callToolWithRetry.
  destruct (callToolLoop_any w toolName args maxRetries
              (Z.to_nat (maxRetries + 1)) 0 rt)
    as (rt' & c & Hrun & Hc & Hsame & _).
  exists rt', c. split; [exact Hrun|]. split; [exact Hc|].
  destruct (Z_lt_le_dec maxRetries 0) as [Hneg | Hpos].
  - assert (Hfuel : Z.to_nat (maxRetries + 1) = 0%nat) by lia.
    rewrite Hfuel in Hrun. cbn [callToolLoop run] in Hrun.
    injection Hrun as <- <-.
    repeat split; try lia; try apply Hsame.
  - destruct (callToolLoop_bounded w toolName args maxRetries
                (Z.to_nat (maxRetries + 1)) 0 rt rt' c ltac:(lia) Hrun)
      as (Hi & Hr & Hib & Hrb & Hri).
    repeat split; try lia; try apply Hsame.
Qed.

(** With the default of [maxRetries], a first invocation that returns
    ends the call, and so does one rejected with an error that is not
    connection-class. *)
Lemma callToolWithRetry_first_returns (w : World) (rt : Runtime) (toolName : string)
    (args : JsValue) (client : handle) (result : ToolResult) :
  mcpClient (this rt) = Some client ->
  answer w (CallTool client toolName args) (invocations rt) = Fulfilled result ->
  run w (callToolWithRetry toolName args defaultMaxRetries) rt
  = (requested (CallTool client toolName args) rt, Returned result).
Proof.
  intros Hc Ha. unfold callToolWithRetry, defaultMaxRetries.
  change (Z.to_nat (2 + 1)) with 3%nat. cbn [callToolLoop].
  change (0 <=? 2) with true. cbv iota. rewrite run_bind.
  rewrite (callToolAttempt_returns w rt toolName args 2 0 client result Hc Ha).
  reflexivity.
Qed.

Lemma callToolWithRetry_first_rethrows (w : World) (rt : Runtime) (toolName : string)
    (args : JsValue) (client : handle) (error : thrown) :
  mcpClient (this rt) = Some client ->
  answer w (CallTool client toolName args) (invocations rt) = Rejected error ->
  isConnectionError (errorMessage error) = false ->
  run w (callToolWithRetry toolName args defaultMaxRetries) rt
  = (requested (CallTool client toolName args) rt, Raised error).
Proof.
  intros Hc Ha Hno. unfold callToolWithRetry, defaultMaxRetries.
  change (Z.to_nat (2 + 1)) with 3%nat. cbn [callToolLoop].
  change (0 <=? 2) with true. cbv iota. rewrite run_bind.
  rewrite (callToolAttempt_rethrows w rt toolName args 2 0 client error Hc Ha)
    by (rewrite Hno; reflexivity).
  reflexivity.
Qed.

End RetryBounds.

Module BatchBounds.
Import RunFacts ConnectionFacts RetryFacts OrchestratorFacts.

(** The batch costs at most three invocations and two connection
    attempts for each call the model asked for. *)
Lemma executeFunctionCalls_cost (w : World) :
  forall (calls : list FunctionCall) (rt : Runtime) (acc : list FunctionResponse),
  exists rt' rs,
    run w (executeFunctionCalls calls acc) rt = (rt', Returned (acc ++ rs))
    /\ map fr_name rs = map call_name calls
    /\ sameConversation rt rt'
    /\ (invocations rt <= invocations rt' <= invocations rt + 3 * List.length calls)%nat
    /\ (reconnects rt <= reconnects rt' <= reconnects rt + 2 * List.length calls)%nat.
Proof.
  induction calls as [|call calls IH]; intros rt acc.
  - exists rt, []. cbn [executeFunctionCalls run List.length map].
    rewrite app_nil_r. repeat split; try lia; apply sameConversation_refl.
  - cbn [executeFunctionCalls]. rewrite run_bind, executeFunctionCall_run.
    destruct (RetryBounds.callToolWithRetry_cost w (printed (LogExecuting (call_name call)) rt)
                (call_name call) (argsOrEmpty call) defaultMaxRetries)
      as (rt1 & c & Hrun & Hc & Hi & Hr & Hib & Hrb & _ & Hs & _).
    rewrite Hrun.
    assert (Hi3 : (invocations rt1 <= invocations rt + 3)%nat).
    { revert Hi Hib. unfold invocations, defaultMaxRetries. cbn [printed trace]. lia. }
    assert (Hr2 : (reconnects rt1 <= reconnects rt + 2)%nat).
    { revert Hr Hrb. unfold reconnects, defaultMaxRetries. cbn [printed trace]. lia. }
    assert (Hi0 : (invocations rt <= invocations rt1)%nat) by exact Hi.
    assert (Hr0 : (reconnects rt <= reconnects rt1)%nat) by exact Hr.
    assert (Hs0 : sameConversation rt rt1) by exact Hs.
    destruct Hc as [[result ->] | [e ->]].
    + destruct (IH rt1 (acc ++ [okResponse call result]))
        as (rt' & rs & Hrun' & Hnames & Hs' & Hi' & Hr').
      exists rt', (okResponse call result :: rs).
      rewrite Hrun', <- app_assoc. split; [reflexivity|].
      split; [cbn [map okResponse fr_name]; congruence|].
      split; [exact (sameConversation_trans _ _ _ Hs0 Hs')|].
      cbn [List.length]. split; lia.
    + destruct (IH (printed (ErrTool (call_name call) (errorMessage e)) rt1)
                  (acc ++ [errorResponse call e]))
        as (rt' & rs & Hrun' & Hnames & Hs' & Hi' & Hr').
      exists rt', (errorResponse call e :: rs).
      rewrite Hrun', <- app_assoc. split; [reflexivity|].
      split; [cbn [map errorResponse fr_name]; congruence|].
      split; [exact (sameConversation_trans _ rt1 _ Hs0 Hs')|].
      revert Hi' Hr'. unfold invocations, reconnects. cbn [printed trace List.length].
      unfold invocations, reconnects in Hi3, Hr2, Hi0, Hr0. split; lia.
Qed.

(** The second half of a turn whose first reply asks for tools. *)
Lemma toolRound_run (w : World) (rt : Runtime) (reply : ModelResponse) (chat : handle)
    (call : FunctionCall) (calls : list FunctionCall) :
  response_functionCalls reply = Some (call :: calls) ->
  exists rt' first before,
    run w (tryCatch (handleModelResponse reply (Some chat))
                    (fun error => say (ErrGemini error))) rt
    = (rt', Returned tt)
    /\ fr_name first = call_name call
    /\ trace rt'
       = trace rt ++ before
         ++ [Requested (SendMessage chat (FunctionResponseParts [first]))]
    /\ messagesSent rt' = S (messagesSent rt)
    /\ conversationHistory (this rt')
       = conversationHistory (this rt)
         ++ match answer w (SendMessage chat (FunctionResponseParts [first]))
                    (messagesSent rt) with
            | Fulfilled followUp =>
                if Str.nonBlank (response_text followUp)
                then [mkTurn RoleModel (response_text followUp)] else []
            | Rejected _ => []
            end
    /\ currentChat (this rt') = currentChat (this rt)
    /\ (invocations rt' <= invocations rt + 3 * S (List.length calls))%nat
    /\ (reconnects rt' <= reconnects rt + 2 * S (List.length calls))%nat
    /\ (forall client toolResult,
          mcpClient (this rt) = Some client ->
          answer w (CallTool client (call_name call) (argsOrEmpty call)) (invocations rt)
          = Fulfilled toolResult ->
          first = mkFunctionResponse (call_name call)
                    (JObj [("content", result_content toolResult)]))
    /\ (forall client error,
          mcpClient (this rt) = Some client ->
          answer w (CallTool client (call_name call) (argsOrEmpty call)) (invocations rt)
          = Rejected error ->
          isConnectionError (errorMessage error) = false ->
          first = mkFunctionResponse (call_name call)
                    (JObj [("content", JStr ("Error: " ++ errorMessage error)%string)])).
Proof.
  intros Hcalls.
  destruct (executeFunctionCalls_cost w (call :: calls) (printed LogUsingTools rt) [])
    as (rt1 & rs & Hrun & Hnames & Hs & Hi & Hr).
  destruct rs as [|first others]; [discriminate|].
  injection Hnames as Hname _.
  pose proof (executeFunctionCalls_head w _ rt1 call calls first others Hrun) as Hhead.
  assert (Hret : forall client toolResult,
             mcpClient (this rt) = Some client ->
             answer w (CallTool client (call_name call) (argsOrEmpty call))
                    (invocations rt) = Fulfilled toolResult ->
             first = mkFunctionResponse (call_name call)
                       (JObj [("content", result_content toolResult)])).
  { intros client toolResult Hc Ha.
    rewrite (RetryBounds.callToolWithRetry_first_returns
               w (printed (LogExecuting (call_name call)) (printed LogUsingTools rt))
               (call_name call) (argsOrEmpty call) client toolResult Hc Ha) in Hhead.
    exact Hhead. }
  assert (Hrej : forall client error,
             mcpClient (this rt) = Some client ->
             answer w (CallTool client (call_name call) (argsOrEmpty call))
                    (invocations rt) = Rejected error ->
             isConnectionError (errorMessage error) = false ->
             first = mkFunctionResponse (call_name call)
                       (JObj [("content",
                               JStr ("Error: " ++ errorMessage error)%string)])).
  { intros client error Hc Ha Hno.
    rewrite (RetryBounds.callToolWithRetry_first_rethrows
               w (printed (LogExecuting (call_name call)) (printed LogUsingTools rt))
               (call_name call) (argsOrEmpty call) client error Hc Ha Hno) in Hhead.
    rewrite Hhead. destruct error; reflexivity. }
  destruct (run_trace_extends _ w (executeFunctionCalls (call :: calls) [])
              (printed LogUsingTools rt)) as [before Hbefore].
  rewrite Hrun in Hbefore. cbn [fst printed trace] in Hbefore.
  destruct Hs as (Hflag & Hhist & Hchat & Hsent).
  revert Hi Hr Hsent Hhist Hchat.
  unfold invocations, reconnects, messagesSent. cbn [printed trace this List.length].
  intros Hi Hr Hsent Hhist Hchat.
  cbn [app] in Hrun.
  unfold handleModelResponse, messagesSent. rewrite Hcalls, run_tryCatch.
  cbn [bind say run]. rewrite run_bind, Hrun.
  cbn [followUpMessage bind]. rewrite functionResponse_eta. run_simpl.
  rewrite Hsent.
  destruct (answer w (SendMessage chat (FunctionResponseParts [first]))
              (occurrences KSendMessage (trace rt))) as [followUp | e] eqn:Hanswer;
    run_simpl;
    [destruct (Str.nonBlank (response_text followUp)) eqn:Hblank; run_simpl|];
    (eexists _, first, before; split; [reflexivity|]; run_simpl;
     split; [exact Hname|];
     split; [rewrite Hbefore, <- app_assoc; reflexivity|];
     split; [rewrite ?Hsent; lia|];
     split; [rewrite Hanswer, ?Hblank, Hhist, ?app_nil_r; reflexivity|];
     split; [exact Hchat|]; split; [lia|]; split; [lia|];
     split; [exact Hret | exact Hrej]).
Qed.

End BatchBounds.

(** C4. When the response of the model holds two or more tool-call
    requests, [handleModelResponse] executes every one of them and
    collects one result per call, in order, without sending anything to
    the model meanwhile; the follow-up message it then sends is the only
    one, and it holds the result of the first call alone: under the name
    of that call, the content its tool call returned, or [Error: ] and
    the message of the error it threw.  The results of the later calls,
    which exist, are not in it. *)
Theorem handleModelResponse_relays_first_result_only :
  forall (w : World) (rt : Runtime) (result : ModelResponse) (chat : handle)
         (first second : FunctionCall) (rest : list FunctionCall),
    response_functionCalls result = Some (first :: second :: rest) ->
    exists rt1 r0 others rt2 c,
      run w (executeFunctionCalls (first :: second :: rest) []) (printed LogUsingTools rt)
      = (rt1, Returned (r0 :: others))
      /\ map fr_name (r0 :: others) = map call_name (first :: second :: rest)
      /\ ((exists client, mcpClient (this rt) = Some client) ->
          forall call, In call (first :: second :: rest) ->
            exists client pre post,
              trace rt1
              = pre ++ Requested (CallTool client (call_name call)
                                           (if Js.truthy (call_args call)
                                            then call_args call else JObj []))
                    :: post)
      /\ messagesSent rt1 = messagesSent rt
      /\ run w (handleModelResponse result (Some chat)) rt = (rt2, c)
      /\ trace rt2
         = trace rt1 ++ [Requested (SendMessage chat (FunctionResponseParts [r0]))]
      /\ others <> []
      /\ (forall rtCall toolResult,
            run w (callToolWithRetry (call_name first)
                                     (if Js.truthy (call_args first)
                                      then call_args first else JObj [])
                                     defaultMaxRetries)
                (printed (LogExecuting (call_name first)) (printed LogUsingTools rt))
            = (rtCall, Returned toolResult) ->
            r0 = mkFunctionResponse (call_name first)
                   (JObj [("content", result_content toolResult)]))
      /\ (forall rtCall error,
            run w (callToolWithRetry (call_name first)
                                     (if Js.truthy (call_args first)
                                      then call_args first else JObj [])
                                     defaultMaxRetries)
                (printed (LogExecuting (call_name first)) (printed LogUsingTools rt))
            = (rtCall, Raised error) ->
            r0 = mkFunctionResponse (call_name first)
                   (JObj [("content",
                           JStr ("Error: " ++ match error with
                                              | JsError message => message
                                              | JsOther text => text
                                              end)%string)])).
Proof.
  intros w rt result chat first second rest Hcalls.
  destruct (OrchestratorFacts.handleModelResponse_with_calls
              w rt result chat first (second :: rest) Hcalls)
    as (rt1 & r0 & others & rt2 & c & Hrun & Hhandle & Htrace & _).
  destruct (OrchestratorFacts.executeFunctionCalls_any
              w (first :: second :: rest) (printed LogUsingTools rt) [])
    as (rt1' & rs & Hrun' & Hnames & Hsame & _ & Hper).
  rewrite Hrun in Hrun'. injection Hrun' as <- <-.
  pose proof (OrchestratorFacts.executeFunctionCalls_head
                w _ rt1 first (second :: rest) r0 others Hrun) as Hhead.
  exists rt1, r0, others, rt2, c.
  split; [exact Hrun|]. split; [exact Hnames|]. split.
  - intros Hclient call Hin. apply In_nth_error in Hin. destruct Hin as [i Hi].
    destruct (Hper i call Hi) as [_ Hmade].
    destruct (Hmade Hclient) as (client & post & Hpost).
    exists client, (trace (stateBeforeCall w (first :: second :: rest) []
                             (printed LogUsingTools rt) i)), post.
    exact Hpost.
  - split; [apply Hsame|]. split; [exact Hhandle|]. split; [exact Htrace|].
    split; [destruct others; discriminate|]. split.
    + intros rtCall toolResult Hcall. fold (argsOrEmpty first) in Hcall.
      rewrite Hcall in Hhead. exact Hhead.
    + intros rtCall error Hcall. fold (argsOrEmpty first) in Hcall.
      rewrite Hcall in Hhead. exact Hhead.
Qed.

Lemma handleModelResponse_relays_first_result_only_witness :
  exists rt1 r0 others rt2 c,
    run (flakyWorld 1 (JsError "Task not found") twoTasks plainReply)
        (executeFunctionCalls batchCalls []) (printed LogUsingTools connectedRuntime)
    = (rt1, Returned (r0 :: others))
    /\ map fr_name (r0 :: others) = ["complete-task"; "find-tasks-by-date"]
    /\ run (flakyWorld 1 (JsError "Task not found") twoTasks plainReply)
           (handleModelResponse batchResponse (Some 7%nat)) connectedRuntime
       = (rt2, c)
    /\ trace rt2
       = trace rt1 ++ [Requested (SendMessage 7%nat (FunctionResponseParts [r0]))]
    /\ others <> []
    /\ r0 = mkFunctionResponse "complete-task"
              (JObj [("content", JStr "Error: Task not found")]).
Proof.
  destruct (handleModelResponse_relays_first_result_only
              (flakyWorld 1 (JsError "Task not found") twoTasks plainReply)
              connectedRuntime batchResponse 7%nat
              (mkFunctionCall "complete-task" (JObj [("id", JStr "42")]))
              (mkFunctionCall "find-tasks-by-date" todayArgs) [] eq_refl)
    as (rt1 & r0 & others & rt2 & c & Hrun & Hnames & _ & _ & Hhandle & Htrace
        & Hothers & _ & Hraised).
  exists rt1, r0, others, rt2, c.
  split; [exact Hrun|]. split; [exact Hnames|]. split; [exact Hhandle|].
  split; [exact Htrace|]. split; [exact Hothers|].
  apply (Hraised
           (requested (CallTool 1%nat "complete-task" (JObj [("id", JStr "42")]))
              (printed (LogExecuting "complete-task")
                 (printed LogUsingTools connectedRuntime)))
           (JsError "Task not found")).
  vm_compute. reflexivity.
Defined.

(** What the follow-up message of the sample batch holds: the error result
    of the first call, and not the tasks the second call returned. *)
Example handleModelResponse_sample_follow_up :
  filter (isRequestOf KSendMessage)
         (trace (fst (run (flakyWorld 1 (JsError "Task not found") twoTasks plainReply)
                          (handleModelResponse batchResponse (Some 7%nat))
                          connectedRuntime)))
  = [Requested
       (SendMessage 7%nat
          (FunctionResponseParts
             [mkFunctionResponse "complete-task"
                (JObj [("content", JStr "Error: Task not found")])]))].
Proof. vm_compute. reflexivity. Qed.

(** With a first call that returns, the follow-up holds the content of
    what it returned. *)
Example handleModelResponse_sample_follow_up_returned :
  filter (isRequestOf KSendMessage)
         (trace (fst (run (flakyWorld 0 (JsError "Task not found") twoTasks plainReply)
                          (handleModelResponse batchResponse (Some 7%nat))
                          connectedRuntime)))
  = [Requested
       (SendMessage 7%nat
          (FunctionResponseParts
             [mkFunctionResponse "complete-task"
                (JObj [("content", JArr [JStr "Buy milk"; JStr "Call Ann"])])]))].
Proof. vm_compute. reflexivity. Qed.

(** C5. In a batch of tool calls, when the call made for the [i]-th
    request, [callToolWithRetry] on its name and its arguments, throws,
    the result collected for it is the error description: under the name
    of the request, the content [Error: ] followed by the message of the
    error thrown.  The batch still returns one result per request, and
    every later request is still executed: it gets its result, and with a
    client installed its invocation is made.  The turn goes on as well:
    [handleModelResponse] comes to send its follow-up message. *)
Theorem executeFunctionCalls_survives_failed_call :
  forall (w : World) (rt : Runtime) (calls : list FunctionCall),
  exists rt' responses,
    run w (executeFunctionCalls calls []) rt = (rt', Returned responses)
    /\ map fr_name responses = map call_name calls
    /\ (forall i call rt2 error,
          nth_error calls i = Some call ->
          run w (callToolWithRetry (call_name call)
                                   (if Js.truthy (call_args call) then call_args call
                                    else JObj [])
                                   defaultMaxRetries)
              (printed (LogExecuting (call_name call)) (stateBeforeCall w calls [] rt i))
          = (rt2, Raised error) ->
          nth_error responses i
          = Some (mkFunctionResponse (call_name call)
                    (JObj [("content",
                            JStr ("Error: " ++ match error with
                                               | JsError message => message
                                               | JsOther text => text
                                               end)%string)]))
          /\ (forall j later,
                (i < j)%nat ->
                nth_error calls j = Some later ->
                (exists r, nth_error responses j = Some r /\ fr_name r = call_name later)
                /\ ((exists client, mcpClient (this rt) = Some client) ->
                    exists client rest,
                      trace rt'
                      = trace (stateBeforeCall w calls [] rt j)
                        ++ Requested (CallTool client (call_name later)
                                               (argsOrEmpty later))
                        :: rest)))
    /\ (forall result chat call rest,
          calls = call :: rest ->
          response_functionCalls result = Some calls ->
          exists rt2 c,
            run w (handleModelResponse result (Some chat)) rt = (rt2, c)
            /\ messagesSent rt2 = S (messagesSent rt)).
Proof.
  intros w rt calls.
  destruct (OrchestratorFacts.executeFunctionCalls_any w calls rt [])
    as (rt' & rs & Hrun & Hnames & _ & _ & Hper).
  exists rt', rs. split; [exact Hrun|]. split; [exact Hnames|]. split.
  - intros i call rt2 error Hi Hraise.
    destruct (Hper i call Hi) as [Herr _].
    split; [rewrite (Herr rt2 error Hraise); destruct error; reflexivity|].
    intros j later Hlt Hj. destruct (Hper j later Hj) as [_ Hmade].
    split; [|exact Hmade].
    assert (Hmap : nth_error (map call_name calls) j = Some (call_name later))
      by (rewrite nth_error_map, Hj; reflexivity).
    rewrite <- Hnames, nth_error_map in Hmap.
    destruct (nth_error rs j) as [r|]; [|discriminate].
    exists r. split; [reflexivity|]. injection Hmap as ->. reflexivity.
  - intros result chat call rest -> Hcalls.
    destruct (OrchestratorFacts.handleModelResponse_with_calls
                w rt result chat call rest Hcalls)
      as (rt1 & r0 & others & rt2 & c & Hbatch & Hhandle & Htrace & _).
    destruct (OrchestratorFacts.executeFunctionCalls_any
                w (call :: rest) (printed LogUsingTools rt) [])
      as (rt1' & rs' & Hbatch' & _ & (_ & _ & _ & Hsent) & _).
    rewrite Hbatch in Hbatch'. injection Hbatch' as <- _.
    exists rt2, c. split; [exact Hhandle|].
    unfold messagesSent in *. rewrite Htrace, RunFacts.occurrences_snoc_requested.
    cbn [kindOf sameKind printed trace] in *. lia.
Qed.

Lemma executeFunctionCalls_survives_failed_call_witness :
  exists rt' responses,
    run (flakyWorld 1 (JsError "Task not found") twoTasks plainReply)
        (executeFunctionCalls batchCalls []) connectedRuntime
    = (rt', Returned responses)
    /\ nth_error responses 0
       = Some (mkFunctionResponse "complete-task"
                 (JObj [("content", JStr "Error: Task not found")]))
    /\ (exists r, nth_error responses 1 = Some r /\ fr_name r = "find-tasks-by-date").
Proof.
  destruct (executeFunctionCalls_survives_failed_call
              (flakyWorld 1 (JsError "Task not found") twoTasks plainReply)
              connectedRuntime batchCalls)
    as (rt' & responses & Hrun & _ & Hcalls & _).
  exists rt', responses. split; [exact Hrun|].
  destruct (Hcalls 0%nat (mkFunctionCall "complete-task" (JObj [("id", JStr "42")]))
              (requested (CallTool 1%nat "complete-task" (JObj [("id", JStr "42")]))
                         (printed (LogExecuting "complete-task") connectedRuntime))
              (JsError "Task not found") eq_refl)
    as [Herr Hlater].
  - vm_compute. reflexivity.
  - split; [exact Herr|].
    destruct (Hlater 1%nat (mkFunctionCall "find-tasks-by-date" todayArgs)
                ltac:(lia) eq_refl) as [Hr _].
    exact Hr.
Defined.

(** ** ConversationState: the claims on the history *)

(** C8, as the claim states it, fails: the model cannot be reached, the
    call for the turn fails, and the user's entry of that turn is in the
    history all the same. *)
Lemma processUserInput_keeps_user_turn_of_failed_call :
  answer modelDownWorld
         (SendMessage (chatFor connectedRuntime) (UserText "What tasks do I have today?"))
         (messagesSent connectedRuntime)
  = Rejected (JsError "fetch failed")
  /\ conversationHistory (this connectedRuntime) = []
  /\ conversationHistory
       (this (fst (run modelDownWorld (processUserInput "What tasks do I have today?")
                       connectedRuntime)))
     = [mkTurn RoleUser "What tasks do I have today?"].
Proof. vm_compute. repeat split; reflexivity. Qed.

(** C8, amended.  For a turn that runs to its end with no other line of
    the console handled meanwhile.  The turn always returns.  The user's
    entry is appended before the model is called: it is in the history
    when the turn comes to wait for the reply, and it stays whatever
    comes of the call.  When the call is rejected nothing else is
    appended.  When it is answered, a model entry with the text of the
    reply follows if that text is not blank; and when the reply asks for
    tools, one more model entry follows, with the text of the reply to
    the follow-up message, the last request of the turn, if that reply
    arrives and its text is not blank.  Nothing else is appended. *)
Theorem processUserInput_appends_user_turn_then_model_turns :
  forall (w : World) (rt : Runtime) (userInput : string),
  exists rt',
    run w (processUserInput userInput) rt = (rt', Returned tt)
    /\ (exists rtCall k,
          runSync (dayString w) (processUserInput userInput) rt
          = (rtCall, Blocked (SendMessage (chatFor rt) (UserText userInput)) k)
          /\ conversationHistory (this rtCall)
             = conversationHistory (this rt) ++ [mkTurn RoleUser userInput])
    /\ match answer w (SendMessage (chatFor rt) (UserText userInput))
                    (messagesSent rt) with
       | Rejected _ =>
           conversationHistory (this rt')
           = conversationHistory (this rt) ++ [mkTurn RoleUser userInput]
       | Fulfilled reply =>
           match response_functionCalls reply with
           | Some (_ :: _) =>
               exists before message,
                 trace rt' = before ++ [Requested (SendMessage (chatFor rt) message)]
                 /\ messagesSent rt' = S (S (messagesSent rt))
                 /\ conversationHistory (this rt')
                    = conversationHistory (this rt)
                      ++ mkTurn RoleUser userInput
                         :: (if Str.nonBlank (response_text reply)
                             then [mkTurn RoleModel (response_text reply)] else [])
                         ++ match answer w (SendMessage (chatFor rt) message)
                                    (S (messagesSent rt)) with
                            | Fulfilled followUp =>
                                if Str.nonBlank (response_text followUp)
                                then [mkTurn RoleModel (response_text followUp)]
                                else []
                            | Rejected _ => []
                            end
           | _ =>
               messagesSent rt' = S (messagesSent rt)
               /\ conversationHistory (this rt')
                  = conversationHistory (this rt)
                    ++ mkTurn RoleUser userInput
                       :: (if Str.nonBlank (response_text reply)
                           then [mkTurn RoleModel (response_text reply)] else [])
           end
       end.
Proof.
  intros w rt userInput.
  destruct (TurnFacts.processUserInput_any w rt userInput)
    as (rt' & entries & more & Hrun & _).
  exists rt'. split; [exact Hrun|].
  split; [exact (TurnFacts.processUserInput_suspends (dayString w) userInput rt)|].
  assert (Hfst : rt' = fst (run w (processUserInput userInput) rt))
    by (rewrite Hrun; reflexivity).
  clear Hrun entries more.
  destruct (answer w (SendMessage (chatFor rt) (UserText userInput)) (messagesSent rt))
    as [reply | e] eqn:Hanswer.
  - destruct (response_functionCalls reply) as [[|call calls]|] eqn:Hcalls.
    + subst rt'. revert Hanswer.
      unfold processUserInput, createSystemPrompt, handleModelResponse, chatFor,
        messagesSent.
      run_simpl.
      destruct (currentChat (this rt)) as [chat|] eqn:Hchat; run_simpl; rewrite ?Hchat;
        run_simpl; intros Hanswer; rewrite Hanswer; run_simpl; rewrite ?Hcalls;
        destruct (Str.nonBlank (response_text reply)) eqn:Hblank; run_simpl;
        rewrite ?Hcalls, ?Hblank; run_simpl; cbn [fst]; run_simpl;
        (split; [lia | rewrite <- ?app_assoc; reflexivity]).
    + subst rt'. revert Hanswer.
      unfold processUserInput, createSystemPrompt, chatFor, messagesSent.
      run_simpl.
      destruct (currentChat (this rt)) as [chat|] eqn:Hchat; run_simpl; rewrite ?Hchat;
        run_simpl; intros Hanswer; rewrite Hanswer; run_simpl;
        destruct (Str.nonBlank (response_text reply)) eqn:Hblank; run_simpl;
        rewrite ?Hchat;
        match goal with
        | |- context [run w (tryCatch (handleModelResponse _ (Some ?c)) _) ?rtX] =>
            destruct (BatchBounds.toolRound_run w rtX reply c call calls Hcalls)
              as (rt' & first & before & Hrun & _ & Htrace & Hsent & Hhist & _)
        end;
        revert Htrace Hsent Hhist; counts; intros Htrace Hsent Hhist;
        rewrite Hrun; cbn [fst];
        eexists _, (FunctionResponseParts [first]);
        (split; [rewrite Htrace, !app_assoc; reflexivity|]);
        (split; [lia|]);
        rewrite Hhist;
        replace (occurrences KSendMessage (trace rt) + 1)%nat
          with (S (occurrences KSendMessage (trace rt))) by lia;
        rewrite <- ?app_assoc; reflexivity.
    + subst rt'. revert Hanswer.
      unfold processUserInput, createSystemPrompt, handleModelResponse, chatFor,
        messagesSent.
      run_simpl.
      destruct (currentChat (this rt)) as [chat|] eqn:Hchat; run_simpl; rewrite ?Hchat;
        run_simpl; intros Hanswer; rewrite Hanswer; run_simpl; rewrite ?Hcalls;
        destruct (Str.nonBlank (response_text reply)) eqn:Hblank; run_simpl;
        rewrite ?Hcalls, ?Hblank; run_simpl; cbn [fst]; run_simpl;
        (split; [lia | rewrite <- ?app_assoc; reflexivity]).
  - subst rt'. revert Hanswer.
    unfold processUserInput, createSystemPrompt, chatFor, messagesSent. run_simpl.
    destruct (currentChat (this rt)) as [chat|] eqn:Hchat; run_simpl; rewrite ?Hchat;
      run_simpl; intros Hanswer; rewrite Hanswer; run_simpl; reflexivity.
Qed.

Lemma processUserInput_appends_user_turn_then_model_turns_witness :
  (exists rt',
      run modelDownWorld (processUserInput "What tasks do I have today?")
          connectedRuntime
      = (rt', Returned tt)
      /\ conversationHistory (this rt')
         = [mkTurn RoleUser "What tasks do I have today?"])
  /\ (exists rt',
        run (flakyWorld 0 (JsError "HTTP 404") twoTasks plainReply)
            (processUserInput "What tasks do I have today?") connectedRuntime
        = (rt', Returned tt)
        /\ conversationHistory (this rt')
           = [mkTurn RoleUser "What tasks do I have today?";
              mkTurn RoleModel "You have 2 tasks due today."]).
Proof.
  split.
  - destruct (processUserInput_appends_user_turn_then_model_turns
                modelDownWorld connectedRuntime "What tasks do I have today?")
      as (rt' & Hrun & _ & Hhist).
    exists rt'. split; [exact Hrun | exact Hhist].
  - destruct (processUserInput_appends_user_turn_then_model_turns
                (flakyWorld 0 (JsError "HTTP 404") twoTasks plainReply)
                connectedRuntime "What tasks do I have today?")
      as (rt' & Hrun & _ & Hhist).
    exists rt'. split; [exact Hrun | exact (proj2 Hhist)].
Defined.

(** C9. [clearConversationHistory] empties the history, so that the
    snapshot that follows is the empty one, and drops the cached chat
    session, both at once; the next free-text turn then starts a new chat
    session and sends the user's text to it as its first message, as does
    any turn that finds no cached session.  A turn, for its part, resets
    neither. *)
Theorem clearConversationHistory_resets_history_and_session :
  forall (w : World) (rt : Runtime),
  exists rt1,
    run w clearConversationHistory rt = (rt1, Returned tt)
    /\ conversationHistory (this rt1) = []
    /\ currentChat (this rt1) = None
    /\ getConversationContext (this rt1) = "No conversation history yet."
    /\ trace rt1 = trace rt
    /\ (forall userInput,
        exists rt2 declarations system modelEntries more,
          run w (processUserInput userInput) rt1 = (rt2, Returned tt)
          /\ trace rt2
             = trace rt1
               ++ Constructed (NewChat declarations system) (nextHandle rt1)
               :: Requested (SendMessage (nextHandle rt1) (UserText userInput))
               :: more
          /\ currentChat (this rt2) = Some (nextHandle rt1)
          /\ conversationHistory (this rt2) = mkTurn RoleUser userInput :: modelEntries)
    /\ (forall rtN userInput,
          currentChat (this rtN) = None ->
          exists rt2 declarations system more,
            run w (processUserInput userInput) rtN = (rt2, Returned tt)
            /\ trace rt2
               = trace rtN
                 ++ Constructed (NewChat declarations system) (nextHandle rtN)
                 :: Requested (SendMessage (nextHandle rtN) (UserText userInput))
                 :: more)
    /\ (forall rt0 userInput,
          currentChat (this (fst (run w (processUserInput userInput) rt0))) <> None
          /\ conversationHistory (this (fst (run w (processUserInput userInput) rt0)))
             <> []).
Proof.
  intros w rt. eexists. split; [reflexivity|]. run_simpl.
  split; [reflexivity|]. split; [reflexivity|]. split; [reflexivity|].
  split; [reflexivity|]. split.
  - intros userInput.
    match goal with
    | |- context [run w _ ?rt1] =>
        destruct (TurnFacts.processUserInput_any w rt1 userInput)
          as (rt2 & modelEntries & more & Hrun & Hhist & _ & _ & Hchat & _ & Htrace)
    end.
    unfold chatFor in *. revert Hhist Hchat Htrace. run_simpl. intros Hhist Hchat Htrace.
    exists rt2. eexists _, _, modelEntries, more.
    split; [exact Hrun|]. split; [exact Htrace|]. split; [exact Hchat|]. exact Hhist.
  - split.
    + intros rtN userInput Hnone.
      destruct (TurnFacts.processUserInput_any w rtN userInput)
        as (rt2 & modelEntries & more & Hrun & _ & _ & _ & _ & _ & Htrace).
      unfold chatFor in Htrace. rewrite Hnone in Htrace. cbn [app] in Htrace.
      exists rt2. eexists _, _, more. split; [exact Hrun|exact Htrace].
    + intros rt0 userInput.
    destruct (TurnFacts.processUserInput_any w rt0 userInput)
      as (rt2 & modelEntries & more & Hrun & Hhist & _ & _ & Hchat & _).
      rewrite Hrun. cbn [fst]. rewrite Hchat, Hhist. split; [discriminate|].
      destruct (conversationHistory (this rt0)); discriminate.
Qed.

Lemma clearConversationHistory_resets_history_and_session_witness :
  exists rt1,
    run (flakyWorld 0 (JsError "HTTP 404") twoTasks plainReply)
        clearConversationHistory connectedRuntime = (rt1, Returned tt)
    /\ conversationHistory (this rt1) = []
    /\ currentChat (this rt1) = None
    /\ exists rt2 declarations system modelEntries more,
         run (flakyWorld 0 (JsError "HTTP 404") twoTasks plainReply)
             (processUserInput "What tasks do I have today?") rt1
         = (rt2, Returned tt)
         /\ trace rt2
            = trace rt1
              ++ Constructed (NewChat declarations system) (nextHandle rt1)
              :: Requested (SendMessage (nextHandle rt1)
                                        (UserText "What tasks do I have today?"))
              :: more
         /\ currentChat (this rt2) = Some (nextHandle rt1)
         /\ conversationHistory (this rt2)
            = mkTurn RoleUser "What tasks do I have today?" :: modelEntries.
Proof.
  destruct (clearConversationHistory_resets_history_and_session
              (flakyWorld 0 (JsError "HTTP 404") twoTasks plainReply) connectedRuntime)
    as (rt1 & Hrun & Hhist & Hchat & _ & _ & Hnext & _ & _).
  exists rt1. split; [exact Hrun|]. split; [exact Hhist|]. split; [exact Hchat|].
  exact (Hnext "What tasks do I have today?").
Defined.

(** ** The reentrancy guard *)

Module GuardFacts.
Local Open Scope prog_scope.

Lemma KeepsGuard_bind (A B : Type) (p : prog A) (f : A -> prog B) :
  KeepsGuard p -> (forall a, KeepsGuard (f a)) -> KeepsGuard (bind p f).
Proof.
  intros Hp Hf. induction Hp; cbn [bind]; try constructor; auto.
Qed.

Lemma KeepsGuard_tryCatch (A : Type) (p : prog A) (h : thrown -> prog A) :
  KeepsGuard p -> (forall e, KeepsGuard (h e)) -> KeepsGuard (tryCatch p h).
Proof.
  intros Hp Hh. induction Hp; cbn [tryCatch]; try constructor; auto.
Qed.

Lemma KeepsGuard_say (line : ConsoleLine) : KeepsGuard (say line).
Proof. repeat constructor. Qed.

Lemma KeepsGuard_getThis : KeepsGuard getThis.
Proof. repeat constructor. Qed.

Lemma KeepsGuard_construct (c : construction) : KeepsGuard (construct c).
Proof. repeat constructor. Qed.

Lemma KeepsGuard_today : KeepsGuard today.
Proof. repeat constructor. Qed.

Lemma KeepsGuard_await (r : request) : KeepsGuard (await r).
Proof. constructor. intros [v|e]; constructor. Qed.

Lemma KeepsGuard_modify (f : This -> This) :
  (forall s, isProcessingRequest (f s) = isProcessingRequest s) -> KeepsGuard (modify f).
Proof. intros Hf. repeat constructor. exact Hf. Qed.

Create HintDb guard.
#[local] Hint Resolve KeepsGuard_say KeepsGuard_getThis KeepsGuard_construct
  KeepsGuard_today KeepsGuard_await KG_ret KG_throw : guard.

(** Decompose a program into the pieces above. *)
Ltac keeps :=
  repeat (first
    [ solve [auto with guard]
    | match goal with
      | |- KeepsGuard (await ?r) => exact (KeepsGuard_await r)
      end
    | apply KeepsGuard_bind; [|intros]
    | apply KeepsGuard_tryCatch; [|intros]
    | apply KeepsGuard_modify; intros; reflexivity
    | progress (cbv zeta)
    | match goal with
      | |- KeepsGuard (match ?x with _ => _ end) => destruct x
      | |- KeepsGuard (if ?x then _ else _) => destruct x
      end ]).

Lemma KeepsGuard_ensureMCPConnection : KeepsGuard ensureMCPConnection.
Proof. unfold ensureMCPConnection. keeps. Qed.
#[local] Hint Resolve KeepsGuard_ensureMCPConnection : guard.

Lemma KeepsGuard_reconnectMCP : KeepsGuard reconnectMCP.
Proof.
  unfold reconnectMCP, closeClientQuietly, closeTransportQuietly. keeps.
Qed.
#[local] Hint Resolve KeepsGuard_reconnectMCP : guard.

Lemma KeepsGuard_callToolAttempt (toolName : string) (args : JsValue)
    (maxRetries attempt : Z) :
  KeepsGuard (callToolAttempt toolName args maxRetries attempt).
Proof.
  unfold callToolAttempt. keeps.
Qed.
#[local] Hint Resolve KeepsGuard_callToolAttempt : guard.

Lemma KeepsGuard_callToolWithRetry (toolName : string) (args : JsValue) (maxRetries : Z) :
  KeepsGuard (callToolWithRetry toolName args maxRetries).
Proof.
  unfold callToolWithRetry. generalize 0 as attempt.
  induction (Z.to_nat (maxRetries + 1)) as [|fuel IH]; intros attempt;
    cbn [callToolLoop]; keeps.
Qed.
#[local] Hint Resolve KeepsGuard_callToolWithRetry : guard.

Lemma KeepsGuard_executeFunctionCalls (calls : list FunctionCall) :
  forall acc, KeepsGuard (executeFunctionCalls calls acc).
Proof.
  induction calls as [|call calls IH]; intros acc; cbn [executeFunctionCalls];
    unfold executeFunctionCall; keeps.
Qed.
#[local] Hint Resolve KeepsGuard_executeFunctionCalls : guard.

Lemma KeepsGuard_handleModelResponse (result : ModelResponse) (chat : option handle) :
  KeepsGuard (handleModelResponse result chat).
Proof.
  unfold handleModelResponse, followUpMessage, pushHistory. keeps.
Qed.
#[local] Hint Resolve KeepsGuard_handleModelResponse : guard.

Lemma KeepsGuard_processUserInput (userInput : string) :
  KeepsGuard (processUserInput userInput).
Proof.
  unfold processUserInput, createSystemPrompt, pushHistory. keeps.
Qed.

Lemma KeepsGuard_clearConversationHistory : KeepsGuard clearConversationHistory.
Proof. unfold clearConversationHistory. keeps. Qed.

Lemma KeepsGuard_testTaskFinding : KeepsGuard testTaskFinding.
Proof. unfold testTaskFinding. keeps. Qed.

(** A turn under [try]/[catch]/[finally] clears the guard at its end. *)
Lemma ClearsGuard_guardedTurn (body : prog unit) :
  KeepsGuard body -> ClearsGuard (guardedTurn body).
Proof.
  unfold guardedTurn. intros Hbody.
  induction Hbody as [[] | e | | k _ IH | f k Hf _ IH | line k _ IH | c k _ IH
                      | k _ IH | r k _ IH];
    cbn [tryCatch tryFinally bind say modify]; try (constructor; auto; fail).
  apply CG_print. apply CG_done.
Qed.

Lemma runSync_keeps (day : Z -> string) (p : prog unit) :
  KeepsGuard p ->
  forall rt,
    isProcessingRequest (this (fst (runSync day p rt))) = isProcessingRequest (this rt)
    /\ match snd (runSync day p rt) with
       | Blocked r k => forall o, KeepsGuard (k o)
       | _ => True
       end.
Proof.
  intros Hp. induction Hp as [a | e | | k _ IH | f k Hf _ IH | line k _ IH | c k _ IH
                              | k _ IH | r k Hk _];
    intros rt; cbn [runSync fst snd]; auto.
  - destruct (IH (onThis f rt)) as [Hflag Hs]. split; [|exact Hs].
    rewrite Hflag. cbn [onThis this]. apply Hf.
  - apply (IH (printed line rt)).
  - apply (IH (nextHandle rt) (constructed c rt)).
Qed.

Lemma runSync_clears (day : Z -> string) (p : prog unit) :
  ClearsGuard p ->
  forall rt,
    isProcessingRequest (this rt) = true ->
    match snd (runSync day p rt) with
    | Blocked r k =>
        isProcessingRequest (this (fst (runSync day p rt))) = true
        /\ forall o, ClearsGuard (k o)
    | Finished => isProcessingRequest (this (fst (runSync day p rt))) = false
    | Crashed _ => False
    | Halted => True
    end.
Proof.
  intros Hp. induction Hp as [ | | k _ IH | f k Hf _ IH | line k _ IH | c k _ IH
                              | k _ IH | r k Hk _];
    intros rt Hbusy; cbn [runSync fst snd].
  - reflexivity.
  - exact I.
  - apply IH. exact Hbusy.
  - apply IH. cbn [onThis this]. rewrite Hf. exact Hbusy.
  - apply (IH (printed line rt)). exact Hbusy.
  - apply (IH (nextHandle rt) (constructed c rt)). exact Hbusy.
  - apply IH. exact Hbusy.
  - split; [exact Hbusy|exact Hk].
Qed.

Lemma In_removeAt (A : Type) (x : A) :
  forall (l : list A) (i : nat), In x (removeAt i l) -> In x l.
Proof.
  induction l as [|y l IH]; intros i Hin; [destruct i; exact Hin|].
  destruct i as [|i]; cbn [removeAt] in Hin.
  - right. exact Hin.
  - destruct Hin as [-> | Hin]; [left; reflexivity|right; exact (IH i Hin)].
Qed.

Lemma filter_removeAt (A : Type) (P : A -> bool) :
  forall (l : list A) (i : nat) (x : A),
    nth_error l i = Some x ->
    List.length (filter P l)
    = (List.length (filter P (removeAt i l)) + if P x then 1 else 0)%nat.
Proof.
  induction l as [|y l IH]; intros i x Hnth; [destruct i; discriminate|].
  destruct i as [|i]; cbn [nth_error removeAt filter] in *.
  - injection Hnth as ->. destruct (P x); cbn [List.length]; lia.
  - specialize (IH i x Hnth). destruct (P y); cbn [List.length]; lia.
Qed.

#[local] Hint Resolve KG_exit KeepsGuard_clearConversationHistory
  KeepsGuard_testTaskFinding KeepsGuard_processUserInput : guard.

Lemma onLine_keeps (input : string) :
  isFreeText input = false -> KeepsGuard (onLine input).
Proof.
  unfold isFreeText, onLine, onClose. intros Hfree.
  destruct (classify input); try discriminate; keeps.
Qed.

Lemma onLine_busy (day : Z -> string) (input userInput : string) (rt : Runtime) :
  classify input = FreeText userInput ->
  isProcessingRequest (this rt) = true ->
  runSync day (onLine input) rt = (printed Prompt (printed LogBusy rt), Finished).
Proof.
  intros Hclass Hbusy. unfold onLine. rewrite Hclass.
  cbn [bind getThis runSync]. rewrite Hbusy. reflexivity.
Qed.

Lemma onLine_idle (day : Z -> string) (input userInput : string) (rt : Runtime) :
  classify input = FreeText userInput ->
  isProcessingRequest (this rt) = false ->
  runSync day (onLine input) rt
  = runSync day (guardedTurn (processUserInput userInput))
            (onThis (set_isProcessingRequest true) rt).
Proof.
  intros Hclass Hbusy. unfold onLine. rewrite Hclass.
  cbn [bind getThis runSync]. rewrite Hbusy. reflexivity.
Qed.

Lemma turns_snoc (tasks : list Task) (t : Task) :
  List.length (filter (fun t => isFreeText (task_input t)) (tasks ++ [t]))
  = (List.length (filter (fun t => isFreeText (task_input t)) tasks)
     + if isFreeText (task_input t) then 1 else 0)%nat.
Proof.
  rewrite filter_app, length_app. cbn [filter].
  destruct (isFreeText (task_input t)); reflexivity.
Qed.

Lemma settleInto_keeps (day : Z -> string) (input : string) (others : list Task)
    (p : prog unit) (rt : Runtime) :
  isFreeText input = false ->
  KeepsGuard p ->
  guardedList others ->
  List.length (filter (fun t => isFreeText (task_input t)) others)
  = (if isProcessingRequest (this rt) then 1%nat else 0%nat) ->
  m_exited (settleInto input others (runSync day p rt)) = false ->
  guardInvariant (settleInto input others (runSync day p rt)).
Proof.
  intros Hfree Hp Hothers Hcount.
  destruct (runSync_keeps day p Hp rt) as [Hflag Hk].
  destruct (runSync day p rt) as [rt' [ | e | | r k]]; cbn [fst snd settleInto] in *;
    try discriminate; intros _; unfold guardInvariant, tasksGuarded, guardedList, turnsInFlight, busy;
    cbn [m_tasks m_runtime].
  - split; [exact Hothers|]. rewrite Hflag. exact Hcount.
  - split.
    + intros t Hin o. apply in_app_or in Hin. destruct Hin as [Hin | [<- | []]].
      * exact (Hothers t Hin o).
      * cbn [task_input task_resume]. rewrite Hfree. apply Hk.
    + rewrite turns_snoc. cbn [task_input]. rewrite Hfree, Hflag. lia.
Qed.

Lemma settleInto_clears (day : Z -> string) (input : string) (others : list Task)
    (p : prog unit) (rt : Runtime) :
  isFreeText input = true ->
  ClearsGuard p ->
  isProcessingRequest (this rt) = true ->
  guardedList others ->
  List.length (filter (fun t => isFreeText (task_input t)) others) = 0%nat ->
  m_exited (settleInto input others (runSync day p rt)) = false ->
  guardInvariant (settleInto input others (runSync day p rt)).
Proof.
  intros Hfree Hp Hbusy Hothers Hcount.
  pose proof (runSync_clears day p Hp rt Hbusy) as Hrun.
  destruct (runSync day p rt) as [rt' [ | e | | r k]]; cbn [fst snd settleInto] in *;
    try discriminate; intros _; unfold guardInvariant, tasksGuarded, guardedList, turnsInFlight, busy;
    cbn [m_tasks m_runtime].
  - split; [exact Hothers|]. rewrite Hrun. exact Hcount.
  - destruct Hrun as [Hflag Hk]. split.
    + intros t Hin o. apply in_app_or in Hin. destruct Hin as [Hin | [<- | []]].
      * exact (Hothers t Hin o).
      * cbn [task_input task_resume]. rewrite Hfree. apply Hk.
    + rewrite turns_snoc. cbn [task_input]. rewrite Hfree, Hflag. lia.
Qed.

Lemma step_keeps_invariant (day : Z -> string) (e : event) (m : Machine) :
  guardInvariant m ->
  m_exited (step day e m) = false ->
  guardInvariant (step day e m).
Proof.
  intros [Hguarded Hcount]. unfold step.
  destruct (m_exited m) eqn:Hexited; [intros _; split; assumption|].
  unfold tasksGuarded, guardedList, turnsInFlight, busy in *.
  destruct e as [input | i outcome].
  - destruct (isFreeText input) eqn:Hfree.
    + assert (Hclass : exists userInput, classify input = FreeText userInput).
      { unfold isFreeText in Hfree. destruct (classify input); try discriminate.
        eexists. reflexivity. }
      destruct Hclass as [userInput Hclass].
      destruct (isProcessingRequest (this (m_runtime m))) eqn:Hbusy.
      * rewrite (onLine_busy day input userInput _ Hclass Hbusy).
        cbn [settleInto]. intros _. split; [exact Hguarded|].
        unfold turnsInFlight, busy. cbn [m_tasks m_runtime printed this].
        rewrite Hbusy. exact Hcount.
      * rewrite (onLine_idle day input userInput _ Hclass Hbusy).
        apply settleInto_clears; try assumption.
        -- apply ClearsGuard_guardedTurn. apply KeepsGuard_processUserInput.
        -- reflexivity.
    + apply settleInto_keeps; try assumption. apply onLine_keeps. exact Hfree.
  - destruct (nth_error (m_tasks m) i) as [t|] eqn:Hnth;
      [|rewrite Hexited; intros _; split; assumption].
    assert (Hin : In t (m_tasks m)) by exact (nth_error_In _ _ Hnth).
    assert (Hothers : guardedList (removeAt i (m_tasks m))).
    { intros t' Hin'. apply Hguarded. exact (In_removeAt _ t' _ _ Hin'). }
    pose proof (filter_removeAt Task (fun t => isFreeText (task_input t))
                  (m_tasks m) i t Hnth) as Hrem.
    pose proof (Hguarded t Hin (outcome (task_request t))) as Ht.
    destruct (isFreeText (task_input t)) eqn:Hfree.
    + assert (Hbusy : isProcessingRequest (this (m_runtime m)) = true).
      { destruct (isProcessingRequest (this (m_runtime m))); [reflexivity|lia]. }
      apply settleInto_clears; try assumption.
      rewrite Hbusy in Hcount. lia.
    + apply settleInto_keeps; try assumption. lia.
Qed.

Lemma exec_exited (day : Z -> string) (events : list event) (m : Machine) :
  m_exited m = true -> exec day events m = m.
Proof.
  intros Hexited. induction events as [|e events IH]; cbn [exec]; [reflexivity|].
  unfold step. rewrite Hexited. exact IH.
Qed.

Lemma exec_keeps_invariant (day : Z -> string) (events : list event) :
  forall m,
    guardInvariant m ->
    m_exited (exec day events m) = false ->
    guardInvariant (exec day events m).
Proof.
  induction events as [|e events IH]; intros m Hinv Hlive; cbn [exec] in *; [exact Hinv|].
  apply IH; [|exact Hlive].
  apply step_keeps_invariant; [exact Hinv|].
  destruct (m_exited (step day e m)) eqn:Hexited; [|reflexivity].
  rewrite (exec_exited day events _ Hexited) in Hlive. congruence.
Qed.

Lemma booted_invariant (m : Machine) : booted m -> guardInvariant m.
Proof.
  intros (Htasks & _ & Hidle). unfold guardInvariant, tasksGuarded, guardedList, turnsInFlight, busy.
  rewrite Htasks, Hidle. split; [intros t []|reflexivity].
Qed.

(** A free-text line that finds the guard open starts a turn: the flag is
    set, the user's entry is in the history, the message is on its way to
    the model and the handler is suspended on it. *)
Lemma onLine_accepts (day : Z -> string) (input userInput : string) (rt : Runtime) :
  classify input = FreeText userInput ->
  isProcessingRequest (this rt) = false ->
  exists rt' k,
    runSync day (onLine input) rt
    = (rt', Blocked (SendMessage (chatFor rt) (UserText userInput)) k)
    /\ isProcessingRequest (this rt') = true
    /\ conversationHistory (this rt')
       = conversationHistory (this rt) ++ [mkTurn RoleUser userInput]
    /\ messagesSent rt' = S (messagesSent rt).
Proof.
  intros Hclass Hidle. rewrite (onLine_idle day input userInput rt Hclass Hidle).
  unfold guardedTurn, processUserInput, createSystemPrompt, chatFor.
  cbn [bind say modify getThis today construct tryCatch tryFinally runSync pushHistory
       onThis printed this set_isProcessingRequest currentChat].
  destruct (currentChat (this rt)) as [chat|] eqn:Hchat;
    cbn [bind say modify getThis today construct await tryCatch tryFinally runSync
         pushHistory onThis printed constructed this set_isProcessingRequest
         set_currentChat set_conversationHistory currentChat];
    rewrite ?Hchat;
    cbn [bind say modify getThis today construct await tryCatch tryFinally runSync
         pushHistory onThis printed constructed this set_isProcessingRequest
         set_currentChat set_conversationHistory currentChat];
    (eexists _, _; split; [reflexivity|]); counts;
    cbn [isProcessingRequest conversationHistory]; repeat split; lia.
Qed.

(** A line that reads as a reserved word once trimmed and lowered is that
    command. *)
Lemma classify_reserved (input word : string) (c : Command) :
  Str.toLowerCase (Str.trim input) = word ->
  (word = "history" /\ c = CmdHistory)
  \/ (word = "clear" /\ c = CmdClear)
  \/ (word = "test" /\ c = CmdTest) ->
  classify input = c.
Proof.
  intros Hlower Hword. unfold classify. rewrite Hlower.
  assert (Hne : (Str.trim input =? "")%string = false).
  { destruct (Str.trim input); [|reflexivity].
    cbn in Hlower. subst word.
    destruct Hword as [[H _] | [[H _] | [H _]]]; discriminate. }
  rewrite Hne.
  destruct Hword as [[-> ->] | [[-> ->] | [-> ->]]]; reflexivity.
Qed.

End GuardFacts.

(** ** The console: the claims on the guard *)

Example classify_trims_and_lowers :
  classify "  CLEAR " = CmdClear
  /\ classify "History" = CmdHistory
  /\ classify "test" = CmdTest
  /\ classify "clear my tasks" = FreeText "clear my tasks".
Proof. vm_compute. repeat split; reflexivity. Qed.

(** C7. In every state the console can reach, at most one free-text turn
    is in flight and the busy flag is set exactly while one is.  While it
    is set, a free-text line is rejected with the busy notice: nothing is
    queued, no request is made and the object is left as it was.  Once no
    turn is in flight any more, however the last one ended, the next
    free-text line is accepted: the flag is set, the user's entry recorded
    and the message sent to the model. *)
Theorem guard_rejects_free_text_while_turn_in_flight :
  forall (day : Z -> string) (events : list event) (m0 : Machine),
    booted m0 ->
    m_exited (exec day events m0) = false ->
    (List.length (turnsInFlight (exec day events m0)) <= 1)%nat
    /\ (busy (exec day events m0) = true <-> turnsInFlight (exec day events m0) <> [])
    /\ (forall input userInput,
          classify input = FreeText userInput ->
          (busy (exec day events m0) = true ->
           step day (Line input) (exec day events m0)
           = mkMachine (printed Prompt (printed LogBusy (m_runtime (exec day events m0))))
                       (m_tasks (exec day events m0)) false
           /\ trace (m_runtime (step day (Line input) (exec day events m0)))
              = trace (m_runtime (exec day events m0))
           /\ this (m_runtime (step day (Line input) (exec day events m0)))
              = this (m_runtime (exec day events m0)))
          /\ (turnsInFlight (exec day events m0) = [] ->
              exists rt' k,
                step day (Line input) (exec day events m0)
                = mkMachine rt'
                    (m_tasks (exec day events m0)
                     ++ [mkTask input
                           (SendMessage (chatFor (m_runtime (exec day events m0)))
                                        (UserText userInput))
                           k])
                    false
                /\ isProcessingRequest (this rt') = true
                /\ conversationHistory (this rt')
                   = conversationHistory (this (m_runtime (exec day events m0)))
                     ++ [mkTurn RoleUser userInput]
                /\ messagesSent rt' = S (messagesSent (m_runtime (exec day events m0))))).
Proof.
  intros day events m0 Hboot Hlive.
  destruct (GuardFacts.exec_keeps_invariant day events m0 (GuardFacts.booted_invariant m0 Hboot) Hlive)
    as [_ Hcount].
  set (m := exec day events m0) in *.
  assert (Hiff : busy m = true <-> turnsInFlight m <> []).
  { destruct (busy m); split; intros H; try reflexivity; try discriminate.
    - intros Hnil. rewrite Hnil in Hcount. discriminate.
    - destruct (turnsInFlight m); [congruence|discriminate]. }
  split; [destruct (busy m); lia|]. split; [exact Hiff|].
  intros input userInput Hclass. split.
  - intros Hbusy. unfold step. rewrite Hlive.
    rewrite (GuardFacts.onLine_busy day input userInput _ Hclass Hbusy). cbn [settleInto].
    repeat split.
  - intros Hnone.
    assert (Hidle : isProcessingRequest (this (m_runtime m)) = false).
    { fold (busy m). destruct (busy m); [|reflexivity].
      exfalso. apply (proj1 Hiff); [reflexivity|exact Hnone]. }
    destruct (GuardFacts.onLine_accepts day input userInput (m_runtime m) Hclass Hidle)
      as (rt' & k & Hrun & Hflag & Hhist & Hsent).
    exists rt', k. unfold step. rewrite Hlive, Hrun. cbn [settleInto].
    repeat split; assumption.
Qed.

Lemma guard_rejects_free_text_while_turn_in_flight_witness :
  (step Str.ofZ (Line "And tomorrow?")
        (exec Str.ofZ [Line "What tasks do I have today?"] bootMachine)
   = mkMachine
       (printed Prompt
          (printed LogBusy
             (m_runtime (exec Str.ofZ [Line "What tasks do I have today?"] bootMachine))))
       (m_tasks (exec Str.ofZ [Line "What tasks do I have today?"] bootMachine)) false)
  /\ (exists rt' k,
        step Str.ofZ (Line "And tomorrow?")
             (exec Str.ofZ [Line "What tasks do I have today?";
                            Settle 0 (allFail (JsError "fetch failed"))] bootMachine)
        = mkMachine rt'
            (m_tasks (exec Str.ofZ [Line "What tasks do I have today?";
                                    Settle 0 (allFail (JsError "fetch failed"))]
                           bootMachine)
             ++ [mkTask "And tomorrow?"
                   (SendMessage
                      (chatFor
                         (m_runtime
                            (exec Str.ofZ [Line "What tasks do I have today?";
                                           Settle 0 (allFail (JsError "fetch failed"))]
                                  bootMachine)))
                      (UserText "And tomorrow?"))
                   k])
            false
        /\ isProcessingRequest (this rt') = true).
Proof.
  assert (Hboot : booted bootMachine) by (repeat split).
  assert (Hclass : classify "And tomorrow?" = FreeText "And tomorrow?")
    by (vm_compute; reflexivity).
  split.
  - destruct (guard_rejects_free_text_while_turn_in_flight
                Str.ofZ [Line "What tasks do I have today?"] bootMachine Hboot)
      as (_ & _ & Hline); [vm_compute; reflexivity|].
    destruct (Hline "And tomorrow?" "And tomorrow?" Hclass) as [Hrejected _].
    destruct Hrejected as [Hstep _]; [vm_compute; reflexivity|exact Hstep].
  - destruct (guard_rejects_free_text_while_turn_in_flight
                Str.ofZ [Line "What tasks do I have today?";
                         Settle 0 (allFail (JsError "fetch failed"))]
                bootMachine Hboot)
      as (_ & _ & Hline); [vm_compute; reflexivity|].
    destruct (Hline "And tomorrow?" "And tomorrow?" Hclass) as [_ Haccepted].
    destruct Haccepted as (rt' & k & Hstep & Hflag & _); [vm_compute; reflexivity|].
    exists rt', k. split; [exact Hstep|exact Hflag].
Defined.

(** C10. The reserved commands are recognised, after trimming and
    without regard to case, before the guard is looked at: whatever the
    busy flag, [clear] empties the history and drops the cached chat
    session at once, leaving the suspended handlers and the flag as they
    are, [history] prints the history and [test] starts its tool calls;
    the busy notice is the answer to free text only. *)
Theorem reserved_commands_bypass_guard :
  forall (day : Z -> string) (m : Machine) (input : string),
    m_exited m = false ->
    (Str.toLowerCase (Str.trim input) = "clear" ->
     step day (Line input) m
     = mkMachine
         (printed Prompt
            (printed LogCleared
               (onThis (set_currentChat None)
                  (onThis (set_conversationHistory []) (m_runtime m)))))
         (m_tasks m) false
     /\ conversationHistory (this (m_runtime (step day (Line input) m))) = []
     /\ currentChat (this (m_runtime (step day (Line input) m))) = None
     /\ busy (step day (Line input) m) = busy m)
    /\ (Str.toLowerCase (Str.trim input) = "history" ->
        step day (Line input) m
        = mkMachine
            (printed Prompt
               (printed (LogText "")
                  (printed (LogText (getConversationContext (this (m_runtime m))))
                     (printed LogHistoryHeader (m_runtime m)))))
            (m_tasks m) false)
    /\ (Str.toLowerCase (Str.trim input) = "test" ->
        forall client,
          mcpClient (this (m_runtime m)) = Some client ->
          exists rt' k,
            step day (Line input) m
            = mkMachine rt'
                (m_tasks m
                 ++ [mkTask input
                       (CallTool client "find-tasks-by-date"
                                 (JObj [("startDate", JStr "today"); limit10]))
                       k])
                false
            /\ busy (step day (Line input) m) = busy m)
    /\ (forall userInput,
          classify input = FreeText userInput ->
          busy m = true ->
          step day (Line input) m
          = mkMachine (printed Prompt (printed LogBusy (m_runtime m))) (m_tasks m) false).
Proof.
  intros day m input Hlive. unfold step. rewrite Hlive.
  split; [|split; [|split]].
  - intros Hclear.
    assert (Hclass : classify input = CmdClear)
      by (apply (GuardFacts.classify_reserved input "clear"); auto).
    unfold onLine. rewrite Hclass. cbn. repeat split.
  - intros Hhistory.
    assert (Hclass : classify input = CmdHistory)
      by (apply (GuardFacts.classify_reserved input "history"); auto).
    unfold onLine. rewrite Hclass. reflexivity.
  - intros Htest client Hclient.
    assert (Hclass : classify input = CmdTest)
      by (apply (GuardFacts.classify_reserved input "test"); auto 6).
    unfold onLine. rewrite Hclass.
    unfold testTaskFinding, callToolWithRetry.
    change (Z.to_nat (defaultMaxRetries + 1)) with 3%nat.
    cbn [callToolLoop]. change (0 <=? defaultMaxRetries) with true.
    unfold callToolAttempt.
    cbn [bind say modify getThis await tryCatch runSync printed this].
    rewrite Hclient.
    cbn [bind say modify getThis await tryCatch runSync printed this settleInto].
    eexists _, _. split; [reflexivity|]. reflexivity.
  - intros userInput Hclass Hbusy.
    rewrite (GuardFacts.onLine_busy day input userInput _ Hclass Hbusy). reflexivity.
Qed.

Lemma reserved_commands_bypass_guard_witness :
  busy (exec Str.ofZ [Line "What tasks do I have today?"] bootMachine) = true
  /\ conversationHistory
       (this (m_runtime (exec Str.ofZ [Line "What tasks do I have today?"] bootMachine)))
     = [mkTurn RoleUser "What tasks do I have today?"]
  /\ conversationHistory
       (this (m_runtime
                (step Str.ofZ (Line "  CLEAR ")
                      (exec Str.ofZ [Line "What tasks do I have today?"] bootMachine))))
     = []
  /\ currentChat
       (this (m_runtime
                (step Str.ofZ (Line "  CLEAR ")
                      (exec Str.ofZ [Line "What tasks do I have today?"] bootMachine))))
     = None
  /\ m_tasks (step Str.ofZ (Line "  CLEAR ")
                   (exec Str.ofZ [Line "What tasks do I have today?"] bootMachine))
     = m_tasks (exec Str.ofZ [Line "What tasks do I have today?"] bootMachine).
Proof.
  destruct (reserved_commands_bypass_guard
              Str.ofZ (exec Str.ofZ [Line "What tasks do I have today?"] bootMachine)
              "  CLEAR ")
    as (Hclear & _); [vm_compute; reflexivity|].
  destruct Hclear as (Hstep & Hhistory & Hchat & _); [vm_compute; reflexivity|].
  split; [vm_compute; reflexivity|]. split; [vm_compute; reflexivity|].
  split; [exact Hhistory|]. split; [exact Hchat|].
  rewrite Hstep. reflexivity.
Defined.

(** * Further properties *)

(** ** The schema cleaner, once more *)

Module CleanAgain.
Import JsFacts CleanFacts.

Lemma set_get_present (fs : list (string * JsValue)) (key : string) :
  Js.truthy (Js.get fs key) = true -> Js.set fs key (Js.get fs key) = fs.
Proof.
  induction fs as [|[k v] fs IH]; cbn; [discriminate|].
  destruct (k =? key)%string eqn:Hk; [reflexivity|].
  intros Ht. rewrite IH by exact Ht. reflexivity.
Qed.

(** Filtering on the key goes through a map that keeps the keys. *)
Lemma filter_map_keys (f : string -> bool) (g : JsValue -> JsValue)
    (fs : list (string * JsValue)) :
  filter (fun kv => f (fst kv)) (map (fun kv => (fst kv, g (snd kv))) fs)
  = map (fun kv => (fst kv, g (snd kv))) (filter (fun kv => f (fst kv)) fs).
Proof.
  induction fs as [|[k v] fs IH]; cbn [map filter fst snd]; [reflexivity|].
  destruct (f k); cbn [map]; rewrite IH; reflexivity.
Qed.

(** A property list without metadata whose [properties] and [items] the
    cleaner leaves alone is left alone as a whole. *)
Lemma cleanSchemaBody_fixed (recur : JsValue -> JsValue)
    (cleaned : list (string * JsValue)) :
  existsb (fun k => (k =? schemaMarker)%string) (Js.keys cleaned) = false ->
  existsb (fun k => (k =? additionalPropertiesFlag)%string) (Js.keys cleaned) = false ->
  (Js.truthy (Js.get cleaned "properties") = true ->
   JObj (map (fun kv => (fst kv, recur (snd kv)))
             (filter (fun kv => makesProperty (fst kv))
                     (Js.entries (Js.get cleaned "properties"))))
   = Js.get cleaned "properties") ->
  (Js.truthy (Js.get cleaned "items") = true ->
   recur (Js.get cleaned "items") = Js.get cleaned "items") ->
  cleanSchemaBody recur (JObj cleaned) = JObj cleaned.
Proof.
  intros Hm Hf Hprops Hitems. unfold cleanSchemaBody.
  cbn [Js.truthy Js.typeofObject negb orb Js.entries].
  rewrite (delete_absent cleaned schemaMarker Hm).
  rewrite (delete_absent cleaned additionalPropertiesFlag Hf).
  destruct (Js.truthy (Js.get cleaned "properties")) eqn:Hp.
  - rewrite (Hprops eq_refl), (set_get_present cleaned "properties" Hp).
    destruct (Js.truthy (Js.get cleaned "items")) eqn:Hi; [|reflexivity].
    rewrite (Hitems eq_refl), (set_get_present cleaned "items" Hi). reflexivity.
  - destruct (Js.truthy (Js.get cleaned "items")) eqn:Hi; [|reflexivity].
    rewrite (Hitems eq_refl), (set_get_present cleaned "items" Hi). reflexivity.
Qed.

Lemma cleanSchemaForGemini_idempotent_upto (n : nat) :
  forall schema,
    (Js.depth schema < n)%nat ->
    cleanSchemaForGemini (cleanSchemaForGemini schema) = cleanSchemaForGemini schema.
Proof.
  induction n as [|n IH]; intros schema Hn; [lia|].
  destruct (isSchemaObject schema) eqn:Hv.
  2:{ rewrite (cleanSchemaForGemini_unfold schema).
      rewrite cleanSchemaBody_passthrough by exact Hv.
      rewrite cleanSchemaForGemini_unfold.
      apply cleanSchemaBody_passthrough. exact Hv. }
  rewrite (cleanSchemaForGemini_unfold schema).
  destruct (cleanSchemaBody_object cleanSchemaForGemini schema Hv)
    as (cleaned & Heq & Hkeys & _ & Hprops & Hitems).
  rewrite Heq, cleanSchemaForGemini_unfold.
  pose proof (depth_prop_object schema "properties" Hv) as Hdp.
  pose proof (depth_prop_object schema "items" Hv) as Hdi.
  apply cleanSchemaBody_fixed.
  - rewrite Hkeys. apply no_metadata_after_filter. reflexivity.
  - rewrite Hkeys. apply no_metadata_after_filter. reflexivity.
  - intros Ht. rewrite Hprops in *.
    destruct (Js.truthy (Js.prop schema "properties")) eqn:Hp; [|congruence].
    cbn [Js.entries]. f_equal. rewrite filter_map_keys, filter_filter.
    rewrite (filter_ext (fun kv => makesProperty (fst kv) && makesProperty (fst kv))
                        (fun kv => makesProperty (fst kv)))
      by (intros kv; apply andb_diag).
    rewrite map_map. apply map_ext_in.
    intros [k c] Hin. cbn [fst snd]. f_equal. apply IH.
    apply filter_In in Hin. destruct Hin as [Hin _].
    apply depth_entry in Hin. lia.
  - intros Ht. rewrite Hitems in *.
    destruct (Js.truthy (Js.prop schema "items")) eqn:Hi.
    + apply IH. lia.
    + congruence.
Qed.

End CleanAgain.

(** X1. Cleaning a schema that has been cleaned changes nothing: the
    cleaner is idempotent, on every value. *)
Theorem cleanSchemaForGemini_idempotent :
  forall schema : JsValue,
    cleanSchemaForGemini (cleanSchemaForGemini schema) = cleanSchemaForGemini schema.
Proof.
  intros schema. apply (CleanAgain.cleanSchemaForGemini_idempotent_upto (S (Js.depth schema))). lia.
Qed.

(** ** The cost of a tool call *)


(** X2. Whatever the tool service and the connection do, one
    [callToolWithRetry] returns or throws, with at most [maxRetries + 1]
    invocations and at most [maxRetries] connection attempts, none of them
    without a failed invocation before it, and leaves the conversation as
    it was; with a negative [maxRetries] it makes no invocation at all and
    throws the error of the end of the loop. *)
Theorem callToolWithRetry_bounded :
  forall (w : World) (rt : Runtime) (toolName : string) (args : JsValue)
         (maxRetries : Z),
  exists rt' c,
    run w (callToolWithRetry toolName args maxRetries) rt = (rt', c)
    /\ ((exists result, c = Returned result) \/ (exists e, c = Raised e))
    /\ (invocations rt <= invocations rt')%nat
    /\ (reconnects rt <= reconnects rt')%nat
    /\ Z.of_nat (invocations rt' - invocations rt) <= Z.max 0 (maxRetries + 1)
    /\ Z.of_nat (reconnects rt' - reconnects rt) <= Z.max 0 maxRetries
    /\ (reconnects rt' - reconnects rt <= invocations rt' - invocations rt)%nat
    /\ sameConversation rt rt'
    /\ (maxRetries < 0 ->
        rt' = rt /\ c = Raised (JsError (failedAfter toolName maxRetries))).
Proof.
  intros w rt toolName args maxRetries. unfold callToolWithRetry.
  destruct (RetryFacts.callToolLoop_any w toolName args maxRetries
              (Z.to_nat (maxRetries + 1)) 0 rt)
    as (rt' & c & Hrun & Hc & Hsame & _).
  exists rt', c. split; [exact Hrun|]. split; [exact Hc|].
  destruct (Z_lt_le_dec maxRetries 0) as [Hneg | Hpos].
  - assert (Hfuel : Z.to_nat (maxRetries + 1) = 0%nat) by lia.
    rewrite Hfuel in Hrun. cbn [callToolLoop run] in Hrun.
    injection Hrun as <- <-.
    repeat split; try lia; try apply Hsame.
  - destruct (RetryBounds.callToolLoop_bounded w toolName args maxRetries
                (Z.to_nat (maxRetries + 1)) 0 rt rt' c ltac:(lia) Hrun)
      as (Hi & Hr & Hib & Hrb & Hri).
    repeat split; try lia; try apply Hsame.
Qed.
Lemma callToolWithRetry_bounded_witness :
  run (flakyWorld 5 (JsError "HTTP 404") twoTasks plainReply)
      (callToolWithRetry "find-tasks" todayArgs (-1)) connectedRuntime
  = (connectedRuntime,
     Raised (JsError "Failed to execute find-tasks after 0 attempts")).
Proof.
  destruct (callToolWithRetry_bounded
              (flakyWorld 5 (JsError "HTTP 404") twoTasks plainReply)
              connectedRuntime "find-tasks" todayArgs (-1))
    as (rt' & c & Hrun & _ & _ & _ & _ & _ & _ & _ & Hneg).
  destruct (Hneg ltac:(lia)) as [-> ->]. exact Hrun.
Defined.


(** X3. Without a client installed, [callToolWithRetry] throws
    [MCP client not initialized] at once: the message is not
    connection-class, so no reconnect is tried and nothing is requested. *)
Theorem callToolWithRetry_without_client :
  forall (w : World) (rt : Runtime) (toolName : string) (args : JsValue)
         (maxRetries : Z),
    0 <= maxRetries ->
    mcpClient (this rt) = None ->
    run w (callToolWithRetry toolName args maxRetries) rt
    = (rt, Raised (JsError "MCP client not initialized")).
Proof.
  intros w rt toolName args maxRetries Hmax Hnone. unfold callToolWithRetry.
  destruct (Z.to_nat (maxRetries + 1)) as [|fuel] eqn:Hfuel; [lia|].
  cbn [callToolLoop].
  assert (Hleb : (0 <=? maxRetries) = true) by (apply Z.leb_le; exact Hmax).
  rewrite Hleb, RunFacts.run_bind. unfold callToolAttempt. run_simpl.
  rewrite Hnone. run_simpl.
  replace (isConnectionError (errorMessage (JsError "MCP client not initialized")))
    with false by (vm_compute; reflexivity).
  reflexivity.
Qed.

Lemma callToolWithRetry_without_client_witness :
  run (flakyWorld 0 (JsError "HTTP 404") twoTasks plainReply)
      (callToolWithRetry "find-tasks" todayArgs 2)
      (onThis (set_mcpClient None) connectedRuntime)
  = (onThis (set_mcpClient None) connectedRuntime,
     Raised (JsError "MCP client not initialized")).
Proof.
  apply (callToolWithRetry_without_client
           (flakyWorld 0 (JsError "HTTP 404") twoTasks plainReply)
           (onThis (set_mcpClient None) connectedRuntime) "find-tasks" todayArgs 2).
  - lia.
  - reflexivity.
Defined.

(** ** Which errors are retried *)

Module IncludesFacts.

Lemma prefix_spec (sub s : string) :
  String.prefix sub s = true <-> exists post, s = (sub ++ post)%string.
Proof.
  revert s. induction sub as [|c sub IH]; intros s.
  - split; [intros _; exists s; reflexivity | intros _; destruct s; reflexivity].
  - destruct s as [|d s]; cbn.
    + split; [discriminate | intros [post H]; discriminate].
    + destruct (Ascii.ascii_dec c d) as [<- | Hne].
      * rewrite IH. split; intros [post H]; exists post; congruence.
      * split; [discriminate | intros [post H]; congruence].
Qed.

Lemma includes_spec (s sub : string) :
  Str.includes s sub = true
  <-> exists pre post, s = (pre ++ sub ++ post)%string.
Proof.
  induction s as [|c s IH].
  - cbn [Str.includes]. destruct (String.prefix sub "") eqn:Hp.
    + apply prefix_spec in Hp. destruct Hp as [post Hp].
      split; [intros _; exists "", post; exact Hp | reflexivity].
    + split; [discriminate|]. intros (pre & post & H).
      destruct pre; [|discriminate]. cbn in H.
      assert (String.prefix sub "" = true) by (apply prefix_spec; eauto).
      congruence.
  - cbn [Str.includes]. destruct (String.prefix sub (String c s)) eqn:Hp.
    + apply prefix_spec in Hp. destruct Hp as [post Hp].
      split; [intros _; exists "", post; exact Hp | reflexivity].
    + rewrite IH. split.
      * intros (pre & post & ->). exists (String c pre), post. reflexivity.
      * intros (pre & post & H). destruct pre as [|d pre].
        -- cbn in H.
           assert (String.prefix sub (String c s) = true)
             by (apply prefix_spec; eauto).
           congruence.
        -- cbn in H. injection H as _ ->. eauto.
Qed.

End IncludesFacts.

(** X4. An error is connection-class exactly when its message contains,
    anywhere and in this spelling, one of the three signatures. *)
Theorem isConnectionError_iff_contains_signature :
  forall message : string,
    isConnectionError message = true
    <-> exists signature pre post,
          In signature ["No transport found for sessionId"; "HTTP 404";
                        "connection"]
          /\ message = (pre ++ signature ++ post)%string.
Proof.
  intros message. unfold isConnectionError.
  rewrite !orb_true_iff, !IncludesFacts.includes_spec. split.
  - intros [[(pre & post & H) | (pre & post & H)] | (pre & post & H)];
      eexists _, pre, post; (split; [|exact H]); cbn; auto.
  - intros (signature & pre & post & Hin & H). cbn in Hin.
    destruct Hin as [<- | [<- | [<- | []]]]; eauto.
Qed.

(** ** Connecting *)

(** X5. [ensureMCPConnection] installs a new transport and a new client
    before it connects, whatever follows.  When the connection or the
    listing is rejected it throws that error and the catalog stays the
    one of before; when both succeed the catalog is replaced by the
    server's list, a missing description read as the empty string. *)
Theorem ensureMCPConnection_outcomes :
  forall (w : World) (rt : Runtime),
    let transport := nextHandle rt in
    let client := S transport in
    exists rt' c,
      run w ensureMCPConnection rt = (rt', c)
      /\ mcpTransport (this rt') = Some transport
      /\ mcpClient (this rt') = Some client
      /\ match answer w (Connect client transport) (reconnects rt) with
         | Rejected error =>
             c = Raised error
             /\ listings rt' = listings rt
             /\ availableTools (this rt') = availableTools (this rt)
         | Fulfilled _ =>
             listings rt' = S (listings rt)
             /\ match answer w (ListTools client) (listings rt) with
                | Rejected error =>
                    c = Raised error
                    /\ availableTools (this rt') = availableTools (this rt)
                | Fulfilled tools =>
                    c = Returned tt
                    /\ availableTools (this rt') = map adoptTool tools
                end
         end.
Proof.
  intros w rt transport client. subst transport client.
  unfold ensureMCPConnection. run_simpl.
  unfold reconnects, listings.
  destruct (answer w (Connect (S (nextHandle rt)) (nextHandle rt))
              (occurrences KConnect (trace rt))) as [u | e]; run_simpl.
  - destruct (answer w (ListTools (S (nextHandle rt)))
                (occurrences KListTools (trace rt))) as [tools | e]; run_simpl;
      (eexists _, _; split; [reflexivity|]; run_simpl; repeat split; lia).
  - eexists _, _; split; [reflexivity|]; run_simpl; repeat split; lia.
Qed.



(** ** One turn, from the message to the history *)

(** X7. A turn whose reply asks for no tool sends one message and makes
    no tool call.  It appends the user's entry and, when the reply is
    not blank, one model entry, which is also what it prints; a blank
    reply is reported with its two warnings and is not recorded. *)
Theorem processUserInput_plain_reply :
  forall (w : World) (rt : Runtime) (userInput : string) (reply : ModelResponse),
    answer w (SendMessage (chatFor rt) (UserText userInput)) (messagesSent rt)
    = Fulfilled reply ->
    response_functionCalls reply = None \/ response_functionCalls reply = Some [] ->
    exists rt',
      run w (processUserInput userInput) rt = (rt', Returned tt)
      /\ conversationHistory (this rt')
         = conversationHistory (this rt)
           ++ mkTurn RoleUser userInput
              :: (if Str.nonBlank (response_text reply)
                  then [mkTurn RoleModel (response_text reply)] else [])
      /\ console rt'
         = console rt
           ++ LogProcessing
              :: (if Str.nonBlank (response_text reply)
                  then [LogAI (response_text reply)]
                  else [WarnEmptyInitial; DebugInitial reply;
                        LogEmptyResponse; DebugResponse reply])
      /\ messagesSent rt' = S (messagesSent rt)
      /\ invocations rt' = invocations rt
      /\ reconnects rt' = reconnects rt
      /\ currentChat (this rt') = Some (chatFor rt).
Proof.
  intros w rt userInput reply Hanswer Hcalls.
  unfold processUserInput, createSystemPrompt, handleModelResponse.
  unfold chatFor, messagesSent in Hanswer.
  run_simpl.
  destruct (currentChat (this rt)) as [chat|] eqn:Hchat; run_simpl;
    rewrite ?Hchat; run_simpl; rewrite Hanswer; run_simpl;
    (destruct Hcalls as [-> | ->]);
    (destruct (Str.nonBlank (response_text reply)) eqn:Hblank; run_simpl;
     rewrite ?Hblank; run_simpl;
     (eexists; split; [reflexivity|]; counts;
      repeat split; rewrite <- ?app_assoc; try reflexivity; try lia;
      unfold chatFor; rewrite Hchat; reflexivity)).
Qed.
Lemma processUserInput_plain_reply_witness :
  exists rt',
    run (flakyWorld 0 (JsError "HTTP 404") twoTasks plainReply)
        (processUserInput "What is due today?") connectedRuntime
    = (rt', Returned tt)
    /\ conversationHistory (this rt')
       = [mkTurn RoleUser "What is due today?";
          mkTurn RoleModel "You have 2 tasks due today."]
    /\ invocations rt' = 0%nat.
Proof.
  destruct (processUserInput_plain_reply
              (flakyWorld 0 (JsError "HTTP 404") twoTasks plainReply)
              connectedRuntime "What is due today?" plainReply eq_refl
              (or_introl eq_refl))
    as (rt' & Hrun & Hhist & _ & _ & Hinv & _).
  exists rt'. split; [exact Hrun|]. split; [exact Hhist | exact Hinv].
Defined.

(** X8. For a turn that runs to its end with no other line of the
    console handled meanwhile, and whose reply asks for tools.  It sends
    exactly two messages: the user's text and one follow-up, its last
    request, to the session of the turn.  The follow-up carries one
    result, that of the first call asked for: with a client installed,
    under the name of that call, the content its first invocation
    returned, or [Error: ] followed by the message when that invocation
    is rejected with an error that is not connection-class.  The turn
    appends the user's entry, the first reply
    when it is not blank and the follow-up reply when there is one and it
    is not blank, so up to two model entries; it costs at most three
    invocations and two connection attempts for each call asked for, and
    it returns even when the follow-up is rejected. *)
Theorem processUserInput_tool_round :
  forall (w : World) (rt : Runtime) (userInput : string) (reply : ModelResponse)
         (call : FunctionCall) (calls : list FunctionCall),
    answer w (SendMessage (chatFor rt) (UserText userInput)) (messagesSent rt)
    = Fulfilled reply ->
    response_functionCalls reply = Some (call :: calls) ->
    exists rt' first before,
      run w (processUserInput userInput) rt = (rt', Returned tt)
      /\ fr_name first = call_name call
      /\ trace rt'
         = before ++ [Requested (SendMessage (chatFor rt) (FunctionResponseParts [first]))]
      /\ messagesSent rt' = S (S (messagesSent rt))
      /\ conversationHistory (this rt')
         = conversationHistory (this rt)
           ++ mkTurn RoleUser userInput
              :: (if Str.nonBlank (response_text reply)
                  then [mkTurn RoleModel (response_text reply)] else [])
              ++ match answer w (SendMessage (chatFor rt) (FunctionResponseParts [first]))
                         (S (messagesSent rt)) with
                 | Fulfilled followUp =>
                     if Str.nonBlank (response_text followUp)
                     then [mkTurn RoleModel (response_text followUp)] else []
                 | Rejected _ => []
                 end
      /\ (invocations rt' <= invocations rt + 3 * S (List.length calls))%nat
      /\ (reconnects rt' <= reconnects rt + 2 * S (List.length calls))%nat
      /\ (forall client toolResult,
            mcpClient (this rt) = Some client ->
            answer w (CallTool client (call_name call)
                               (if Js.truthy (call_args call) then call_args call
                                else JObj []))
                   (invocations rt)
            = Fulfilled toolResult ->
            first = mkFunctionResponse (call_name call)
                      (JObj [("content", result_content toolResult)]))
      /\ (forall client error message,
            mcpClient (this rt) = Some client ->
            answer w (CallTool client (call_name call)
                               (if Js.truthy (call_args call) then call_args call
                                else JObj []))
                   (invocations rt)
            = Rejected error ->
            message = match error with
                      | JsError message => message
                      | JsOther text => text
                      end ->
            isConnectionError message = false ->
            first = mkFunctionResponse (call_name call)
                      (JObj [("content", JStr ("Error: " ++ message)%string)])).
Proof.
  intros w rt userInput reply call calls Hanswer Hcalls.
  unfold processUserInput, createSystemPrompt.
  unfold chatFor, messagesSent in *.
  run_simpl.
  destruct (currentChat (this rt)) as [chat|] eqn:Hchat; run_simpl;
    rewrite ?Hchat; run_simpl; rewrite Hanswer; run_simpl;
    destruct (Str.nonBlank (response_text reply)) eqn:Hblank; run_simpl;
    rewrite ?Hchat;
    match goal with
    | |- context [run w (tryCatch (handleModelResponse _ (Some ?c)) _) ?rtX] =>
        destruct (BatchBounds.toolRound_run w rtX reply c call calls Hcalls)
          as (rt' & first & before & Hrun & Hname & Htrace & Hsent & Hhist & _ & Hi & Hr
              & Hret & Hrej)
    end;
    revert Htrace Hsent Hhist Hi Hr Hret Hrej; counts;
    intros Htrace Hsent Hhist Hi Hr Hret Hrej;
    rewrite Hrun; eexists rt', first, _;
    (split; [reflexivity|]); (split; [exact Hname|]);
    (split; [rewrite Htrace, !app_assoc; reflexivity|]);
    (split; [lia|]);
    (split; [rewrite Hhist; replace (occurrences KSendMessage (trace rt) + 1)%nat
                             with (S (occurrences KSendMessage (trace rt))) by lia;
             rewrite <- ?app_assoc; reflexivity|]);
    (split; [lia|]); (split; [lia|]);
    (split;
     [ intros client toolResult Hc Ha; exact (Hret client toolResult Hc Ha)
     | intros client error message Hc Ha -> Hno;
       rewrite (Hrej client error Hc Ha Hno); destruct error; reflexivity ]).
Qed.

Lemma processUserInput_tool_round_witness :
  exists rt' first,
    run (flakyWorld 0 (JsError "HTTP 404") twoTasks batchResponse)
        (processUserInput "Close task 42") connectedRuntime
    = (rt', Returned tt)
    /\ first = mkFunctionResponse "complete-task"
                 (JObj [("content", JArr [JStr "Buy milk"; JStr "Call Ann"])])
    /\ messagesSent rt' = 2%nat
    /\ (invocations rt' <= 6)%nat.
Proof.
  destruct (processUserInput_tool_round
              (flakyWorld 0 (JsError "HTTP 404") twoTasks batchResponse)
              connectedRuntime "Close task 42" batchResponse
              (mkFunctionCall "complete-task" (JObj [("id", JStr "42")]))
              [mkFunctionCall "find-tasks-by-date" todayArgs] eq_refl eq_refl)
    as (rt' & first & before & Hrun & _ & _ & Hsent & _ & Hinv & _ & Hret & _).
  exists rt', first. split; [exact Hrun|].
  split; [exact (Hret 1%nat twoTasks eq_refl eq_refl)|].
  split; [exact Hsent | exact Hinv].
Defined.


(** X9. [handleModelResponse] on a reply that asks for tools, given no
    session: every call asked for is still executed, then the follow-up
    fails on the missing session before anything is sent, and the history
    is left as it was. *)
Theorem handleModelResponse_without_session :
  forall (w : World) (rt : Runtime) (result : ModelResponse)
         (call : FunctionCall) (calls : list FunctionCall),
    response_functionCalls result = Some (call :: calls) ->
    exists rt' functionResponses,
      run w (executeFunctionCalls (call :: calls) []) (printed LogUsingTools rt)
      = (rt', Returned functionResponses)
      /\ map fr_name functionResponses = map call_name (call :: calls)
      /\ run w (handleModelResponse result None) rt = (rt', Raised nullDereference)
      /\ messagesSent rt' = messagesSent rt
      /\ conversationHistory (this rt') = conversationHistory (this rt)
      /\ (forall client,
            mcpClient (this rt) = Some client ->
            exists more,
              trace rt'
              = trace rt
                ++ Requested (CallTool client (call_name call) (argsOrEmpty call))
                   :: more).
Proof.
  intros w rt result call calls Hcalls.
  destruct (OrchestratorFacts.executeFunctionCalls_any w (call :: calls)
              (printed LogUsingTools rt) [])
    as (rt' & rs & Hrun & Hnames & (_ & Hhist & _ & Hsent) & _ & Hall).
  cbn [app] in Hrun. exists rt', rs.
  split; [exact Hrun|]. split; [exact Hnames|].
  split.
  { unfold handleModelResponse. rewrite Hcalls. cbn [bind say run].
    rewrite RunFacts.run_bind, Hrun. reflexivity. }
  split; [exact Hsent|]. split; [exact Hhist|].
  intros client Hclient.
  destruct (Hall 0%nat call eq_refl) as [_ Htrace].
  destruct (Htrace (ex_intro _ client Hclient)) as (client' & more & Hmore).
  revert Hmore. unfold stateBeforeCall. cbn [firstn executeFunctionCalls run fst printed trace].
  intros Hmore.
  destruct (OrchestratorFacts.executeFunctionCall_any w (printed LogUsingTools rt) call [])
    as (rt1 & r & Hrun1 & _ & _ & _ & Hfirst & _).
  destruct (Hfirst client Hclient) as [rest Hrest].
  destruct (RunFacts.run_trace_extends _ w (executeFunctionCalls calls ([] ++ [r])) rt1)
    as [tail Htail].
  rewrite <- (OrchestratorFacts.executeFunctionCalls_cons w _ rt1 call calls [] ([] ++ [r]) Hrun1),
    Hrun in Htail.
  cbn [fst] in Htail. rewrite Htail, Hrest. cbn [printed trace].
  rewrite <- app_assoc. eexists. reflexivity.
Qed.
Lemma handleModelResponse_without_session_witness :
  exists rt' functionResponses,
    run (flakyWorld 0 (JsError "HTTP 404") twoTasks plainReply)
        (handleModelResponse batchResponse None) connectedRuntime
    = (rt', Raised nullDereference)
    /\ map fr_name functionResponses = ["complete-task"; "find-tasks-by-date"]
    /\ messagesSent rt' = 0%nat.
Proof.
  destruct (handleModelResponse_without_session
              (flakyWorld 0 (JsError "HTTP 404") twoTasks plainReply)
              connectedRuntime batchResponse
              (mkFunctionCall "complete-task" (JObj [("id", JStr "42")]))
              [mkFunctionCall "find-tasks-by-date" todayArgs] eq_refl)
    as (rt' & rs & _ & Hnames & Hrun & Hsent & _).
  exists rt', rs. split; [exact Hrun|]. split; [exact Hnames | exact Hsent].
Defined.


(** ** The console, one event at a time *)

Ltac machine_simpl :=
  repeat (progress
    cbn [exec step settleInto runSync m_exited m_tasks m_runtime nth_error removeAt app
         task_input task_request task_resume
         bind say modify getThis await construct today tryCatch tryFinally
         constructed printed onThis requested trace this nextHandle console
         set_mcpClient set_mcpTransport set_availableTools set_isProcessingRequest
         set_conversationHistory set_currentChat
         mcpClient mcpTransport availableTools isProcessingRequest
         conversationHistory currentChat pushHistory]).

(** X10. [clear] typed while a turn waits for the model: when the reply
    comes it is recorded in the emptied history, an answer without its
    question, and the session stays cleared. *)
Theorem clear_during_turn_leaves_orphan_reply :
  forall (day : Z -> string) (rt : Runtime) (input userInput clearLine : string)
         (outcome : forall r : request, settled (response r)) (reply : ModelResponse),
    classify input = FreeText userInput ->
    isProcessingRequest (this rt) = false ->
    classify clearLine = CmdClear ->
    outcome (SendMessage (chatFor rt) (UserText userInput)) = Fulfilled reply ->
    response_functionCalls reply = None \/ response_functionCalls reply = Some [] ->
    Str.nonBlank (response_text reply) = true ->
    let m := exec day [Line input; Line clearLine; Settle 0 outcome]
                  (mkMachine rt [] false) in
    conversationHistory (this (m_runtime m)) = [mkTurn RoleModel (response_text reply)]
    /\ currentChat (this (m_runtime m)) = None
    /\ isProcessingRequest (this (m_runtime m)) = false
    /\ m_tasks m = []
    /\ m_exited m = false.
Proof.
  intros day rt input userInput clearLine outcome reply
         Hinput Hidle Hclear Houtcome Hcalls Hblank m.
  subst m. unfold chatFor in Houtcome.
  unfold exec, step, onLine. rewrite Hinput, Hclear.
  unfold guardedTurn, processUserInput, createSystemPrompt, clearConversationHistory,
    handleModelResponse.
  machine_simpl. rewrite Hidle. machine_simpl.
  destruct (currentChat (this rt)) as [chat|] eqn:Hchat; machine_simpl;
    rewrite ?Hchat; machine_simpl;
    rewrite Houtcome; machine_simpl; rewrite Hblank; machine_simpl;
    destruct Hcalls as [-> | ->]; machine_simpl; rewrite ?Hblank; machine_simpl;
    repeat split; reflexivity.
Qed.
Lemma clear_during_turn_leaves_orphan_reply_witness :
  conversationHistory
    (this (m_runtime
             (exec Str.ofZ [Line "What is due today?"; Line " Clear";
                            Settle 0 (allFine plainReply)] bootMachine)))
  = [mkTurn RoleModel "You have 2 tasks due today."].
Proof.
  apply (clear_during_turn_leaves_orphan_reply
           Str.ofZ connectedRuntime "What is due today?" "What is due today?" " Clear"
           (allFine plainReply) plainReply);
    first [reflexivity | left; reflexivity].
Defined.


(** X11. [exit] and [quit], in any case and with spaces around, stop the
    console at once: two goodbyes are printed, the object is left as it
    is, no request is made, so the connection is not closed, the turns in
    flight are abandoned, and no later event has any effect. *)
Theorem exit_halts_console :
  forall (day : Z -> string) (m : Machine) (input : string) (events : list event),
    m_exited m = false ->
    Str.toLowerCase (Str.trim input) = "exit"
    \/ Str.toLowerCase (Str.trim input) = "quit" ->
    let m' := step day (Line input) m in
    m_exited m' = true
    /\ exec day events m' = m'
    /\ this (m_runtime m') = this (m_runtime m)
    /\ trace (m_runtime m') = trace (m_runtime m)
    /\ console (m_runtime m') = console (m_runtime m) ++ [LogGoodbye; LogGoodbye]
    /\ m_tasks m' = m_tasks m.
Proof.
  intros day m input events Hlive Hword m'.
  assert (Hclass : classify input = CmdExit).
  { unfold classify. destruct Hword as [-> | ->]; reflexivity. }
  assert (Hm' : m' = mkMachine (printed LogGoodbye (printed LogGoodbye (m_runtime m)))
                               (m_tasks m) true).
  { subst m'. unfold step, onLine, onClose. rewrite Hlive, Hclass. reflexivity. }
  rewrite Hm'. cbn [m_exited m_runtime m_tasks printed this trace console].
  split; [reflexivity|].
  split; [apply GuardFacts.exec_exited; reflexivity|].
  split; [reflexivity|]. split; [reflexivity|].
  split; [rewrite <- app_assoc; reflexivity|reflexivity].
Qed.
Lemma exit_halts_console_witness :
  m_exited (step Str.ofZ (Line " Quit ") bootMachine) = true
  /\ exec Str.ofZ [Line "What is due today?"] (step Str.ofZ (Line " Quit ") bootMachine)
     = step Str.ofZ (Line " Quit ") bootMachine.
Proof.
  destruct (exit_halts_console Str.ofZ bootMachine " Quit " [Line "What is due today?"]
              eq_refl (or_intror eq_refl))
    as (Hexited & Hexec & _).
  split; [exact Hexited | exact Hexec].
Defined.


(** X16. [history] typed while a turn waits for the model is answered at
    once and changes nothing: it lists the history with the pending
    question as its last entry, and the turn stays in flight. *)
Theorem history_lists_pending_question :
  forall (day : Z -> string) (rt : Runtime) (input userInput historyLine : string),
    classify input = FreeText userInput ->
    isProcessingRequest (this rt) = false ->
    classify historyLine = CmdHistory ->
    let m1 := step day (Line input) (mkMachine rt [] false) in
    let m2 := step day (Line historyLine) m1 in
    console (m_runtime m2)
    = console (m_runtime m1)
      ++ [LogHistoryHeader;
          LogText (Str.join (Str.newline ++ Str.newline)
                     (numberedFrom 0 (conversationHistory (this rt)
                                      ++ [mkTurn RoleUser userInput])));
          LogText ""; Prompt]
    /\ this (m_runtime m2) = this (m_runtime m1)
    /\ trace (m_runtime m2) = trace (m_runtime m1)
    /\ m_tasks m2 = m_tasks m1
    /\ List.length (m_tasks m1) = 1%nat.
Proof.
  intros day rt input userInput historyLine Hinput Hidle Hhistory m1 m2.
  subst m2 m1.
  unfold step, onLine. rewrite Hinput, Hhistory.
  unfold guardedTurn, processUserInput, createSystemPrompt, getConversationContext.
  machine_simpl. rewrite Hidle. machine_simpl.
  destruct (currentChat (this rt)) as [chat|] eqn:Hchat; machine_simpl;
    rewrite ?Hchat; machine_simpl;
    (destruct (conversationHistory (this rt) ++ [mkTurn RoleUser userInput])
       as [|first rest] eqn:Hlist;
     [destruct (conversationHistory (this rt)); discriminate|]);
    rewrite <- !app_assoc; repeat split; reflexivity.
Qed.

Lemma history_lists_pending_question_witness :
  console (m_runtime (step Str.ofZ (Line "History")
                           (step Str.ofZ (Line "What is due today?") bootMachine)))
  = console (m_runtime (step Str.ofZ (Line "What is due today?") bootMachine))
    ++ [LogHistoryHeader;
        LogText (Str.join (Str.newline ++ Str.newline)
                   (numberedFrom 0 ([] ++ [mkTurn RoleUser "What is due today?"])));
        LogText ""; Prompt].
Proof.
  apply (history_lists_pending_question Str.ofZ connectedRuntime
           "What is due today?" "What is due today?" "History");
    reflexivity.
Defined.

Module TestFacts.
Import RunFacts ConnectionFacts.

(** One call of the test, and what is left of it. *)
Lemma testStep (w : World) (rt0 rt : Runtime) (n : nat) (toolName : string)
    (args : JsValue) (k : ToolResult -> prog unit) :
  (n < 8)%nat ->
  sameConversation rt0 rt ->
  (invocations rt <= invocations rt0 + 3 * n)%nat ->
  (reconnects rt <= reconnects rt0 + 2 * n)%nat ->
  (forall result rt1,
      sameConversation rt0 rt1 ->
      (invocations rt1 <= invocations rt0 + 3 * S n)%nat ->
      (reconnects rt1 <= reconnects rt0 + 2 * S n)%nat ->
      exists rt',
        run w (tryCatch (k result) (fun error => say (ErrTesting error))) rt1
        = (rt', Returned tt)
        /\ sameConversation rt0 rt'
        /\ (invocations rt' <= invocations rt0 + 24)%nat
        /\ (reconnects rt' <= reconnects rt0 + 16)%nat) ->
  exists rt',
    run w (tryCatch (result <- callToolWithRetry toolName args defaultMaxRetries ;;
                     k result)
                    (fun error => say (ErrTesting error))) rt
    = (rt', Returned tt)
    /\ sameConversation rt0 rt'
    /\ (invocations rt' <= invocations rt0 + 24)%nat
    /\ (reconnects rt' <= reconnects rt0 + 16)%nat.
Proof.
  intros Hn Hs Hi Hr Hk.
  destruct (RetryBounds.callToolWithRetry_cost w rt toolName args defaultMaxRetries)
    as (rt1 & c & Hrun & Hc & Hi1 & Hr1 & Hib & Hrb & _ & Hs1 & _).
  unfold defaultMaxRetries in Hib, Hrb.
  assert (Hs01 : sameConversation rt0 rt1) by exact (sameConversation_trans _ _ _ Hs Hs1).
  rewrite run_tryCatch, run_bind, Hrun.
  destruct Hc as [[result ->] | [e ->]].
  - rewrite <- run_tryCatch. apply Hk; [exact Hs01| |]; lia.
  - cbn [say run]. eexists. split; [reflexivity|].
    split; [exact Hs01|].
    unfold invocations, reconnects in *. cbn [printed trace]. split; lia.
Qed.

Lemma testTaskFinding_run :
  forall (w : World) (rt : Runtime),
  exists rt',
    run w testTaskFinding rt = (rt', Returned tt)
    /\ sameConversation rt rt'
    /\ (invocations rt' <= invocations rt + 24)%nat
    /\ (reconnects rt' <= reconnects rt + 16)%nat.
Proof.
  intros w rt. unfold testTaskFinding. cbn [say bind run tryCatch].
  assert (Hs0 : sameConversation rt rt) by apply sameConversation_refl.
  assert (Hi0 : (invocations rt <= invocations rt + 3 * 0)%nat) by lia.
  assert (Hr0 : (reconnects rt <= reconnects rt + 2 * 0)%nat) by lia.
  apply (testStep w rt _ 0); [lia | exact Hs0 | exact Hi0 | exact Hr0 |].
  intros r1 rt1 Hs1 Hi1 Hr1. cbn [say bind run tryCatch today].
  apply (testStep w rt _ 1); [lia | exact Hs1 | exact Hi1 | exact Hr1 |].
  intros r2 rt2 Hs2 Hi2 Hr2. cbn [say bind run tryCatch today].
  apply (testStep w rt _ 2); [lia | exact Hs2 | exact Hi2 | exact Hr2 |].
  intros r3 rt3 Hs3 Hi3 Hr3. cbn [say bind run tryCatch today].
  apply (testStep w rt _ 3); [lia | exact Hs3 | exact Hi3 | exact Hr3 |].
  intros r4 rt4 Hs4 Hi4 Hr4. cbn [say bind run tryCatch today].
  apply (testStep w rt _ 4); [lia | exact Hs4 | exact Hi4 | exact Hr4 |].
  intros r5 rt5 Hs5 Hi5 Hr5. cbn [say bind run tryCatch today].
  apply (testStep w rt _ 5); [lia | exact Hs5 | exact Hi5 | exact Hr5 |].
  intros r6 rt6 Hs6 Hi6 Hr6. cbn [say bind run tryCatch today].
  apply (testStep w rt _ 6); [lia | exact Hs6 | exact Hi6 | exact Hr6 |].
  intros r7 rt7 Hs7 Hi7 Hr7. cbn [say bind run tryCatch today].
  apply (testStep w rt _ 7); [lia | exact Hs7 | exact Hi7 | exact Hr7 |].
  intros r8 rt8 Hs8 Hi8 Hr8. cbn [say bind run tryCatch].
  eexists. split; [reflexivity|]. split; [exact Hs8|].
  revert Hi8 Hr8. unfold invocations, reconnects. cbn [printed trace]. split; lia.
Qed.

End TestFacts.

(** X12. [testTaskFinding] never throws and never exits: it returns with
    the conversation as it was, after at most 24 invocations and 16
    connection attempts, and a first test that fails ends it with the
    error printed, the seven others skipped. *)
Theorem testTaskFinding_contained :
  forall (w : World) (rt : Runtime),
  exists rt',
    run w testTaskFinding rt = (rt', Returned tt)
    /\ sameConversation rt rt'
    /\ (invocations rt' <= invocations rt + 24)%nat
    /\ (reconnects rt' <= reconnects rt + 16)%nat
    /\ (forall rt1 error,
          run w (callToolWithRetry "find-tasks-by-date"
                   (JObj [("startDate", JStr "today"); limit10]) defaultMaxRetries)
              (printed (LogTest 1 "today") (printed LogTesting rt))
          = (rt1, Raised error) ->
          rt' = printed (ErrTesting error) rt1).
Proof.
  intros w rt.
  destruct (TestFacts.testTaskFinding_run w rt) as (rt' & Hrun & Hs & Hi & Hr).
  exists rt'. split; [exact Hrun|]. split; [exact Hs|]. split; [exact Hi|].
  split; [exact Hr|].
  intros rt1 error Hfail. revert Hrun.
  unfold testTaskFinding. cbn [say bind run tryCatch].
  rewrite RunFacts.run_tryCatch, RunFacts.run_bind, Hfail. cbn [say run].
  intros Hrun. injection Hrun as <-. reflexivity.
Qed.

(** ** The history over the life of the console *)

Module HistoryFacts.
Local Open Scope prog_scope.

Lemma AppendsOnly_bind (A B : Type) (p : prog A) (f : A -> prog B) :
  AppendsOnly p -> (forall a, AppendsOnly (f a)) -> AppendsOnly (bind p f).
Proof.
  intros Hp Hf. induction Hp; cbn [bind]; try constructor; auto.
Qed.

Lemma AppendsOnly_tryCatch (A : Type) (p : prog A) (h : thrown -> prog A) :
  AppendsOnly p -> (forall e, AppendsOnly (h e)) -> AppendsOnly (tryCatch p h).
Proof.
  intros Hp Hh. induction Hp; cbn [tryCatch]; try constructor; auto.
Qed.

Lemma AppendsOnly_tryFinally (A : Type) (p : prog A) (cleanup : prog unit) :
  AppendsOnly p -> AppendsOnly cleanup -> AppendsOnly (tryFinally p cleanup).
Proof.
  intros Hp Hc. induction Hp; cbn [tryFinally]; try constructor; auto;
    apply AppendsOnly_bind; auto; intros; constructor.
Qed.

Lemma AppendsOnly_say (line : ConsoleLine) : AppendsOnly (say line).
Proof. repeat constructor. Qed.

Lemma AppendsOnly_getThis : AppendsOnly getThis.
Proof. repeat constructor. Qed.

Lemma AppendsOnly_construct (c : construction) : AppendsOnly (construct c).
Proof. repeat constructor. Qed.

Lemma AppendsOnly_today : AppendsOnly today.
Proof. repeat constructor. Qed.

Lemma AppendsOnly_await (r : request) : AppendsOnly (await r).
Proof. constructor. intros [v|e]; constructor. Qed.

(** An assignment to another field. *)
Lemma AppendsOnly_modify (f : This -> This) :
  (forall s, conversationHistory (f s) = conversationHistory s) ->
  AppendsOnly (modify f).
Proof.
  intros Hf. repeat constructor. intros s. exists []. rewrite app_nil_r. apply Hf.
Qed.

Lemma AppendsOnly_pushHistory (role : Role) (text : string) :
  AppendsOnly (pushHistory role text).
Proof.
  unfold pushHistory. repeat constructor. intros s. eexists. reflexivity.
Qed.

Create HintDb history.
#[local] Hint Resolve AppendsOnly_say AppendsOnly_getThis AppendsOnly_construct
  AppendsOnly_today AppendsOnly_await AppendsOnly_pushHistory AO_ret AO_throw AO_exit
  : history.

Ltac appends :=
  repeat (first
    [ solve [auto with history]
    | match goal with
      | |- AppendsOnly (await ?r) => exact (AppendsOnly_await r)
      end
    | apply AppendsOnly_bind; [|intros]
    | apply AppendsOnly_tryCatch; [|intros]
    | apply AppendsOnly_tryFinally
    | apply AppendsOnly_modify; intros; reflexivity
    | progress (cbv zeta)
    | match goal with
      | |- AppendsOnly (match ?x with _ => _ end) => destruct x
      | |- AppendsOnly (if ?x then _ else _) => destruct x
      end ]).

Lemma AppendsOnly_reconnectMCP : AppendsOnly reconnectMCP.
Proof.
  unfold reconnectMCP, closeClientQuietly, closeTransportQuietly, ensureMCPConnection.
  appends.
Qed.
#[local] Hint Resolve AppendsOnly_reconnectMCP : history.

Lemma AppendsOnly_callToolWithRetry (toolName : string) (args : JsValue)
    (maxRetries : Z) :
  AppendsOnly (callToolWithRetry toolName args maxRetries).
Proof.
  unfold callToolWithRetry. generalize 0 as attempt.
  induction (Z.to_nat (maxRetries + 1)) as [|fuel IH]; intros attempt;
    cbn [callToolLoop]; unfold callToolAttempt; appends.
Qed.
#[local] Hint Resolve AppendsOnly_callToolWithRetry : history.

Lemma AppendsOnly_executeFunctionCalls (calls : list FunctionCall) :
  forall acc, AppendsOnly (executeFunctionCalls calls acc).
Proof.
  induction calls as [|call calls IH]; intros acc; cbn [executeFunctionCalls];
    unfold executeFunctionCall; appends.
Qed.
#[local] Hint Resolve AppendsOnly_executeFunctionCalls : history.

Lemma AppendsOnly_handleModelResponse (result : ModelResponse) (chat : option handle) :
  AppendsOnly (handleModelResponse result chat).
Proof.
  unfold handleModelResponse, followUpMessage. appends.
Qed.
#[local] Hint Resolve AppendsOnly_handleModelResponse : history.

Lemma AppendsOnly_processUserInput (userInput : string) :
  AppendsOnly (processUserInput userInput).
Proof.
  unfold processUserInput, createSystemPrompt. appends.
Qed.

Lemma AppendsOnly_testTaskFinding : AppendsOnly testTaskFinding.
Proof. unfold testTaskFinding. appends. Qed.

#[local] Hint Resolve AppendsOnly_processUserInput AppendsOnly_testTaskFinding : history.

(** Every line but [clear] is handled by a program that only appends. *)
Lemma AppendsOnly_onLine (input : string) :
  classify input <> CmdClear -> AppendsOnly (onLine input).
Proof.
  unfold onLine, onClose, guardedTurn. intros Hclass.
  destruct (classify input); try congruence; appends.
Qed.

Lemma runSync_appends (day : Z -> string) (p : prog unit) :
  AppendsOnly p ->
  forall rt,
    (exists more,
        conversationHistory (this (fst (runSync day p rt)))
        = conversationHistory (this rt) ++ more)
    /\ match snd (runSync day p rt) with
       | Blocked r k => forall o, AppendsOnly (k o)
       | _ => True
       end.
Proof.
  intros Hp. induction Hp as [a | e | | k _ IH | f k Hf _ IH | line k _ IH | c k _ IH
                              | k _ IH | r k Hk _];
    intros rt; cbn [runSync fst snd];
    try (split; [exists []; rewrite app_nil_r; reflexivity | auto]; fail); auto.
  - destruct (IH (onThis f rt)) as [[more Hmore] Hs]. split; [|exact Hs].
    destruct (Hf (this rt)) as [more0 Hmore0].
    exists (more0 ++ more). rewrite Hmore. cbn [onThis this].
    rewrite Hmore0, <- app_assoc. reflexivity.
  - apply (IH (printed line rt)).
  - apply (IH (nextHandle rt) (constructed c rt)).
Qed.

(** What a handler leaves, suspended or not. *)
Lemma settleInto_appends (day : Z -> string) (input : string) (others : list Task)
    (p : prog unit) (rt : Runtime) :
  AppendsOnly p ->
  (forall t, In t others -> forall o, AppendsOnly (task_resume t o)) ->
  tasksAppendOnly (settleInto input others (runSync day p rt))
  /\ exists more,
       historyOf (settleInto input others (runSync day p rt))
       = conversationHistory (this rt) ++ more.
Proof.
  intros Hp Hothers. destruct (runSync_appends day p Hp rt) as [Hmore Hk].
  unfold tasksAppendOnly, historyOf.
  destruct (runSync day p rt) as [rt' [ | e | | r k]];
    cbn [fst snd settleInto m_tasks m_runtime] in *; (split; [|exact Hmore]); auto.
  intros t Hin o. apply in_app_or in Hin. destruct Hin as [Hin | [<- | []]].
  - exact (Hothers t Hin o).
  - apply Hk.
Qed.

Lemma onLine_clear (day : Z -> string) (input : string) (rt : Runtime) :
  classify input = CmdClear ->
  runSync day (onLine input) rt
  = (printed Prompt
       (printed LogCleared
          (onThis (set_currentChat None) (onThis (set_conversationHistory []) rt))),
     Finished).
Proof. intros Hclass. unfold onLine. rewrite Hclass. reflexivity. Qed.

(** A step keeps the suspended handlers append-only, and the history
    grows, unless the step is the line [clear]. *)
Lemma step_appends (day : Z -> string) (e : event) (m : Machine) :
  tasksAppendOnly m ->
  tasksAppendOnly (step day e m)
  /\ ((exists more, historyOf (step day e m) = historyOf m ++ more)
      \/ (exists input, e = Line input /\ classify input = CmdClear
                        /\ m_exited m = false
                        /\ historyOf (step day e m) = [])).
Proof.
  intros Hinv. unfold step.
  destruct (m_exited m) eqn:Hexited.
  { split; [exact Hinv|]. left. exists []. rewrite app_nil_r. reflexivity. }
  destruct e as [input | i outcome].
  - destruct (classify input) eqn:Hclass;
      try (destruct (settleInto_appends day input (m_tasks m) (onLine input) (m_runtime m))
             as [Ht Hh];
           [apply AppendsOnly_onLine; congruence | exact Hinv
           | split; [exact Ht | left; exact Hh]]; fail).
    rewrite (onLine_clear day input _ Hclass). cbn [settleInto].
    split; [exact Hinv|]. right. exists input. repeat split; auto.
  - destruct (nth_error (m_tasks m) i) as [t|] eqn:Hnth.
    + destruct (settleInto_appends day (task_input t) (removeAt i (m_tasks m))
                  (task_resume t (outcome (task_request t))) (m_runtime m))
        as [Ht Hh].
      * apply Hinv. exact (nth_error_In _ _ Hnth).
      * intros t' Hin. apply Hinv. exact (GuardFacts.In_removeAt _ _ _ _ Hin).
      * split; [exact Ht | left; exact Hh].
    + split; [exact Hinv|]. left. exists []. rewrite app_nil_r. reflexivity.
Qed.

Lemma exec_appends (day : Z -> string) (events : list event) :
  forall m, tasksAppendOnly m -> tasksAppendOnly (exec day events m).
Proof.
  induction events as [|e events IH]; intros m Hinv; cbn [exec]; [exact Hinv|].
  apply IH. apply step_appends. exact Hinv.
Qed.

End HistoryFacts.

(** X13. In every state the console reaches, an event leaves the history
    as it was or with entries appended at its end; the one exception is
    the line [clear], which empties it.  No entry is ever changed or
    removed on its own. *)
Theorem history_grows_between_clears :
  forall (day : Z -> string) (events : list event) (e : event) (m0 : Machine),
    m_tasks m0 = [] ->
    let m := exec day events m0 in
    (exists more, historyOf (step day e m) = historyOf m ++ more)
    \/ (exists input,
          e = Line input /\ classify input = CmdClear /\ historyOf (step day e m) = []).
Proof.
  intros day events e m0 Hboot m.
  assert (Hinv : tasksAppendOnly m).
  { apply HistoryFacts.exec_appends. unfold tasksAppendOnly. rewrite Hboot. intros t []. }
  destruct (HistoryFacts.step_appends day e m Hinv) as [_ [Hgrow | Hclear]].
  - left. exact Hgrow.
  - right. destruct Hclear as (input & He & Hclass & _ & Hempty). eauto.
Qed.
Lemma history_grows_between_clears_witness :
  (exists more,
      historyOf (step Str.ofZ (Settle 0 (allFine plainReply))
                      (exec Str.ofZ [Line "What is due today?"] bootMachine))
      = historyOf (exec Str.ofZ [Line "What is due today?"] bootMachine) ++ more)
  \/ (exists input,
        Settle 0 (allFine plainReply) = Line input
        /\ classify input = CmdClear
        /\ historyOf (step Str.ofZ (Settle 0 (allFine plainReply))
                           (exec Str.ofZ [Line "What is due today?"] bootMachine))
           = []).
Proof.
  apply (history_grows_between_clears Str.ofZ [Line "What is due today?"]
           (Settle 0 (allFine plainReply)) bootMachine).
  reflexivity.
Defined.

(** ** The session with the model *)

Module SessionFacts.
Local Open Scope prog_scope.

Lemma StartsNoChat_bind (A B : Type) (p : prog A) (f : A -> prog B) :
  StartsNoChat p -> (forall a, StartsNoChat (f a)) -> StartsNoChat (bind p f).
Proof.
  intros Hp Hf. induction Hp; cbn [bind]; try constructor; auto.
Qed.

Lemma StartsNoChat_tryCatch (A : Type) (p : prog A) (h : thrown -> prog A) :
  StartsNoChat p -> (forall e, StartsNoChat (h e)) -> StartsNoChat (tryCatch p h).
Proof.
  intros Hp Hh. induction Hp; cbn [tryCatch]; try constructor; auto.
Qed.

Lemma StartsNoChat_say (line : ConsoleLine) : StartsNoChat (say line).
Proof. repeat constructor. Qed.

Lemma StartsNoChat_getThis : StartsNoChat getThis.
Proof. repeat constructor. Qed.

Lemma StartsNoChat_today : StartsNoChat today.
Proof. repeat constructor. Qed.

Lemma StartsNoChat_await (r : request) : StartsNoChat (await r).
Proof. constructor. intros [v|e]; constructor. Qed.

Lemma StartsNoChat_modify (f : This -> This) : StartsNoChat (modify f).
Proof. repeat constructor. Qed.

Lemma StartsNoChat_construct (c : construction) :
  isNewChat c = false -> StartsNoChat (construct c).
Proof. intros Hc. constructor; [exact Hc|]. intros h. constructor. Qed.

Create HintDb session.
#[local] Hint Resolve StartsNoChat_say StartsNoChat_getThis StartsNoChat_today
  StartsNoChat_await StartsNoChat_modify SN_ret SN_throw SN_exit : session.

Ltac nochat :=
  repeat (first
    [ solve [auto with session]
    | match goal with
      | |- StartsNoChat (await ?r) => exact (StartsNoChat_await r)
      end
    | apply StartsNoChat_construct; reflexivity
    | apply StartsNoChat_bind; [|intros]
    | apply StartsNoChat_tryCatch; [|intros]
    | apply SN_print
    | apply SN_modify
    | apply SN_get; intros
    | apply SN_today; intros
    | apply SN_await; intros
    | progress (cbv zeta)
    | match goal with
      | |- StartsNoChat (match ?x with _ => _ end) => destruct x
      | |- StartsNoChat (if ?x then _ else _) => destruct x
      end ]).

Lemma StartsNoChat_reconnectMCP : StartsNoChat reconnectMCP.
Proof.
  unfold reconnectMCP, closeClientQuietly, closeTransportQuietly, ensureMCPConnection.
  nochat.
Qed.
#[local] Hint Resolve StartsNoChat_reconnectMCP : session.

Lemma StartsNoChat_callToolWithRetry (toolName : string) (args : JsValue)
    (maxRetries : Z) :
  StartsNoChat (callToolWithRetry toolName args maxRetries).
Proof.
  unfold callToolWithRetry. generalize 0 as attempt.
  induction (Z.to_nat (maxRetries + 1)) as [|fuel IH]; intros attempt;
    cbn [callToolLoop]; unfold callToolAttempt; nochat.
Qed.
#[local] Hint Resolve StartsNoChat_callToolWithRetry : session.

Lemma StartsNoChat_executeFunctionCalls (calls : list FunctionCall) :
  forall acc, StartsNoChat (executeFunctionCalls calls acc).
Proof.
  induction calls as [|call calls IH]; intros acc; cbn [executeFunctionCalls];
    unfold executeFunctionCall; nochat.
Qed.
#[local] Hint Resolve StartsNoChat_executeFunctionCalls : session.

Lemma StartsNoChat_handleModelResponse (result : ModelResponse) (chat : option handle) :
  StartsNoChat (handleModelResponse result chat).
Proof.
  unfold handleModelResponse, followUpMessage, pushHistory. nochat.
Qed.
#[local] Hint Resolve StartsNoChat_handleModelResponse : session.

Lemma chatsStarted_app (t1 t2 : list effect) :
  chatsStarted (t1 ++ t2) = (chatsStarted t1 + chatsStarted t2)%nat.
Proof.
  induction t1 as [|[r | c h] t1 IH]; cbn [app chatsStarted]; lia.
Qed.

Lemma run_startsNoChat (A : Type) (w : World) (p : prog A) :
  StartsNoChat p ->
  forall rt, chatsStarted (trace (fst (run w p rt))) = chatsStarted (trace rt).
Proof.
  intros Hp. induction Hp as [a | e | | k _ IH | f k _ IH | line k _ IH | c k Hc _ IH
                              | k _ IH | r k _ IH];
    intros rt; cbn [run fst]; auto.
  - rewrite IH. reflexivity.
  - rewrite IH. reflexivity.
  - rewrite IH. cbn [constructed trace]. rewrite chatsStarted_app.
    cbn [chatsStarted]. rewrite Hc. lia.
  - rewrite IH. cbn [requested trace]. rewrite chatsStarted_app.
    cbn [chatsStarted]. lia.
Qed.

(** What [processUserInput] does with the first reply. *)
Lemma StartsNoChat_afterReply (result : ModelResponse) :
  StartsNoChat
    (tryCatch
       ((if Str.nonBlank (response_text result)
         then pushHistory RoleModel (response_text result)
         else say WarnEmptyInitial ;; say (DebugInitial result)) ;;
        s'' <- getThis ;;
        handleModelResponse result (currentChat s''))
       (fun error => say (ErrGemini error))).
Proof. unfold pushHistory. nochat. Qed.

End SessionFacts.

(** X14. For a turn that runs to its end with no other line of the
    console handled meanwhile: it starts a session exactly when none is
    cached; with one cached it constructs none, whatever the tool calls
    and reconnects of the turn do; and the session it talks to is the one
    cached when it ends. *)
Theorem processUserInput_starts_session_once :
  forall (w : World) (rt : Runtime) (userInput : string),
  exists rt',
    run w (processUserInput userInput) rt = (rt', Returned tt)
    /\ chatsStarted (trace rt')
       = (chatsStarted (trace rt)
          + match currentChat (this rt) with Some _ => 0 | None => 1 end)%nat
    /\ currentChat (this rt') = Some (chatFor rt).
Proof.
  intros w rt userInput.
  destruct (TurnFacts.processUserInput_any w rt userInput)
    as (rt' & entries & more & Hrun & _ & _ & _ & Hchat & _).
  exists rt'. split; [exact Hrun|]. split; [|exact Hchat].
  assert (Hfst : rt' = fst (run w (processUserInput userInput) rt))
    by (rewrite Hrun; reflexivity).
  rewrite Hfst. clear.
  unfold processUserInput, createSystemPrompt. run_simpl.
  destruct (currentChat (this rt)) as [chat|] eqn:Hchat; run_simpl; rewrite ?Hchat;
    run_simpl; case_answer; run_simpl;
    try match goal with
    | |- context [run w ?p ?rtX] =>
        let Hp := fresh "Hp" in
        assert (Hp : StartsNoChat p)
          by exact (SessionFacts.StartsNoChat_afterReply _);
        rewrite (SessionFacts.run_startsNoChat _ w p Hp rtX)
    end; cbn [fst]; run_simpl;
    rewrite ?SessionFacts.chatsStarted_app; cbn [chatsStarted isNewChat]; lia.
Qed.

(** X15. The session a turn starts is declared the tools of the catalog
    as it is then, under their names and descriptions and in their order,
    each with its schema cleaned: no [$schema] and no
    [additionalProperties] at any depth reached through [properties] and
    [items].  The first request after it is the user's message, sent to
    that session. *)
Theorem processUserInput_declares_cleaned_tools :
  forall (w : World) (rt : Runtime) (userInput : string),
    currentChat (this rt) = None ->
    exists rt' declarations system after,
      run w (processUserInput userInput) rt = (rt', Returned tt)
      /\ trace rt'
         = trace rt
           ++ Constructed (NewChat declarations system) (nextHandle rt)
              :: Requested (SendMessage (nextHandle rt) (UserText userInput))
              :: after
      /\ map decl_name declarations = map tool_name (availableTools (this rt))
      /\ map decl_description declarations
         = map tool_description (availableTools (this rt))
      /\ map decl_parameters declarations
         = map (fun tool => cleanSchemaForGemini (tool_inputSchema tool))
               (availableTools (this rt))
      /\ (forall declaration reached,
            In declaration declarations ->
            Reaches (decl_parameters declaration) reached ->
            Js.hasOwn reached schemaMarker = false
            /\ Js.hasOwn reached additionalPropertiesFlag = false).
Proof.
  intros w rt userInput Hnone.
  destruct (TurnFacts.processUserInput_any w rt userInput)
    as (rt' & entries & more & Hrun & _ & _ & _ & _ & _ & Htrace).
  rewrite Hnone in Htrace. unfold chatFor in Htrace. rewrite Hnone in Htrace.
  eexists rt', _, _, more. split; [exact Hrun|].
  split; [rewrite Htrace; cbn [app]; reflexivity|].
  rewrite !map_map. cbn [decl_name decl_description decl_parameters].
  split; [reflexivity|]. split; [reflexivity|]. split; [reflexivity|].
  intros declaration reached Hin Hreach.
  apply in_map_iff in Hin. destruct Hin as (tool & <- & _).
  cbn [decl_parameters] in Hreach.
  split;
    apply (CleanFacts.cleaned_no_metadata (S (Js.depth (tool_inputSchema tool)))
             (tool_inputSchema tool) reached);
    try reflexivity; try exact Hreach; lia.
Qed.

Lemma processUserInput_declares_cleaned_tools_witness :
  exists rt' declarations system after,
    run (flakyWorld 0 (JsError "HTTP 404") twoTasks plainReply)
        (processUserInput "What is due today?") connectedRuntime
    = (rt', Returned tt)
    /\ trace rt'
       = Constructed (NewChat declarations system) 2%nat
         :: Requested (SendMessage 2%nat (UserText "What is due today?")) :: after
    /\ map decl_name declarations = ["find-tasks"].
Proof.
  destruct (processUserInput_declares_cleaned_tools
              (flakyWorld 0 (JsError "HTTP 404") twoTasks plainReply)
              connectedRuntime "What is due today?" eq_refl)
    as (rt' & declarations & system & after & Hrun & Htrace & Hnames & _).
  exists rt', declarations, system, after.
  split; [exact Hrun|]. split; [exact Htrace | exact Hnames].
Defined.

(** ** The clients over a run *)

Module ClientFacts.
Import RunFacts.

Lemma closedAfter_app (t1 t2 : list effect) :
  forall closed,
    closedAfter closed (t1 ++ t2) = closedAfter (closedAfter closed t1) t2.
Proof.
  induction t1 as [|[[] | c h] t1 IH]; intros closed; cbn [app closedAfter]; auto.
Qed.

Lemma invokesClosed_app (t1 t2 : list effect) :
  forall closed,
    invokesClosed closed (t1 ++ t2)
    = invokesClosed closed t1 || invokesClosed (closedAfter closed t1) t2.
Proof.
  induction t1 as [|[[] | c h] t1 IH]; intros closed;
    cbn [app closedAfter invokesClosed]; auto.
  rewrite IH, orb_assoc. reflexivity.
Qed.

Lemma notIn_existsb (c : handle) (l : list handle) :
  ~ In c l -> existsb (Nat.eqb c) l = false.
Proof.
  intros Hn. destruct (existsb (Nat.eqb c) l) eqn:He; [|reflexivity].
  apply existsb_exists in He. destruct He as (x & Hin & Heq).
  apply Nat.eqb_eq in Heq. subst x. contradiction.
Qed.

Ltac trace_simpl :=
  repeat (progress
    (cbn [fst]; run_simpl;
     rewrite ?closedAfter_app, ?invokesClosed_app;
     cbn [closedAfter invokesClosed orb]));
  rewrite ?orb_false_r.

Lemma clientsInOrder_handles (rt : Runtime) : clientsInOrder rt -> handlesInOrder rt.
Proof.
  intros [[Hclosed Hclient] Hused]. split; [exact Hclosed|]. split; [|exact Hused].
  intros c Hc. apply (Hclient c Hc).
Qed.

(** Closing the client keeps the identities in order; the client that
    stays installed is now a closed one. *)
Lemma closeClientQuietly_handles (w : World) (rt : Runtime) :
  handlesInOrder rt -> handlesInOrder (fst (run w closeClientQuietly rt)).
Proof.
  intros (Hclosed & Hclient & Hused). unfold closeClientQuietly, handlesInOrder.
  run_simpl. destruct (mcpClient (this rt)) as [client|] eqn:Hc; run_simpl;
    [|cbn [fst]; rewrite Hc; auto].
  assert (Hnew : forall c, In c (client :: closedAfter [] (trace rt)) ->
                           (c < nextHandle rt)%nat).
  { intros c [<- | Hin]; [exact (Hclient _ eq_refl) | exact (Hclosed c Hin)]. }
  case_answer; trace_simpl; rewrite Hc, Hused; auto.
Qed.

Lemma closeTransportQuietly_handles (w : World) (rt : Runtime) :
  handlesInOrder rt -> handlesInOrder (fst (run w closeTransportQuietly rt)).
Proof.
  intros (Hclosed & Hclient & Hused). unfold closeTransportQuietly, handlesInOrder.
  run_simpl. destruct (mcpTransport (this rt)) as [transport|] eqn:Ht; run_simpl;
    [|cbn [fst]; auto].
  case_answer; trace_simpl; rewrite Hused; auto.
Qed.

(** A fresh connection takes two new identities and closes nothing: the
    client it installs is in use. *)
Lemma ensureMCPConnection_restores (w : World) (rt : Runtime) :
  handlesInOrder rt -> clientsInOrder (fst (run w ensureMCPConnection rt)).
Proof.
  intros (Hclosed & Hclient & Hused). unfold clientsInOrder, clientInUse.
  assert (Hnew : forall c,
             In c (closedAfter [] (trace rt)) -> (c < S (S (nextHandle rt)))%nat).
  { intros c Hin. specialize (Hclosed c Hin). lia. }
  assert (Hfresh : ~ In (S (nextHandle rt)) (closedAfter [] (trace rt))).
  { intros Hin. specialize (Hclosed _ Hin). lia. }
  unfold ensureMCPConnection. run_simpl.
  case_answer; run_simpl; [case_answer; run_simpl|];
    trace_simpl; rewrite ?Hused;
    (split; [split; [exact Hnew|]|reflexivity]);
    intros c Hsome; injection Hsome as <-; (split; [lia | exact Hfresh]).
Qed.

Lemma reconnectMCP_restores (w : World) (rt : Runtime) :
  handlesInOrder rt -> clientsInOrder (fst (run w reconnectMCP rt)).
Proof.
  intros Hrt. unfold reconnectMCP. rewrite run_bind. cbn [say run]. rewrite run_bind.
  assert (Hrt1 : handlesInOrder (printed LogReconnecting rt)) by exact Hrt.
  pose proof (closeClientQuietly_handles w _ Hrt1) as H2.
  destruct (ConnectionFacts.closeClientQuietly_run w (printed LogReconnecting rt))
    as (rt2 & Hrun2 & _).
  rewrite Hrun2 in *. cbn [fst] in H2. rewrite run_bind.
  pose proof (closeTransportQuietly_handles w _ H2) as H3.
  destruct (ConnectionFacts.closeTransportQuietly_run w rt2) as (rt3 & Hrun3 & _).
  rewrite Hrun3 in *. cbn [fst] in H3.
  apply ensureMCPConnection_restores. exact H3.
Qed.

Lemma KeepsClients_bind (A B : Type) (p : prog A) (f : A -> prog B) :
  KeepsClients p -> (forall a, KeepsClients (f a)) -> KeepsClients (bind p f).
Proof.
  intros Hp Hf w rt Hrt. rewrite run_bind. specialize (Hp w rt Hrt).
  destruct (run w p rt) as [rt' [a | e | ]]; cbn [fst] in *; auto.
  apply Hf. exact Hp.
Qed.

Lemma KeepsClients_tryCatch (A : Type) (p : prog A) (h : thrown -> prog A) :
  KeepsClients p -> (forall e, KeepsClients (h e)) -> KeepsClients (tryCatch p h).
Proof.
  intros Hp Hh w rt Hrt. rewrite run_tryCatch. specialize (Hp w rt Hrt).
  destruct (run w p rt) as [rt' [a | e | ]]; cbn [fst] in *; auto.
  apply Hh. exact Hp.
Qed.

Lemma KeepsClients_ret (A : Type) (a : A) : KeepsClients (Ret a).
Proof. intros w rt Hrt. exact Hrt. Qed.

Lemma KeepsClients_throw (A : Type) (e : thrown) : KeepsClients (@Throw A e).
Proof. intros w rt Hrt. exact Hrt. Qed.

Lemma KeepsClients_say (line : ConsoleLine) : KeepsClients (say line).
Proof. intros w rt Hrt. exact Hrt. Qed.

Lemma KeepsClients_getThis : KeepsClients getThis.
Proof. intros w rt Hrt. exact Hrt. Qed.

Lemma KeepsClients_today : KeepsClients today.
Proof. intros w rt Hrt. exact Hrt. Qed.

(** An assignment to a field other than [mcpClient]. *)
Lemma KeepsClients_modify (f : This -> This) :
  (forall s, mcpClient (f s) = mcpClient s) -> KeepsClients (modify f).
Proof.
  intros Hf w rt [[Hclosed Hclient] Hused]. unfold clientsInOrder, clientInUse.
  cbn [modify run fst onThis this trace nextHandle]. rewrite Hf. auto.
Qed.

Lemma KeepsClients_pushHistory (role : Role) (text : string) :
  KeepsClients (pushHistory role text).
Proof. apply KeepsClients_modify. reflexivity. Qed.

(** A new session takes the next identity. *)
Lemma KeepsClients_newChat (declarations : list FunctionDeclaration)
    (system : SystemPrompt) :
  KeepsClients (construct (NewChat declarations system)).
Proof.
  intros w rt [[Hclosed Hclient] Hused]. unfold clientsInOrder, clientInUse.
  cbn [construct run fst]. trace_simpl. rewrite Hused.
  split; [split|reflexivity].
  - intros c Hin. specialize (Hclosed c Hin). lia.
  - intros c Hc. destruct (Hclient c Hc) as [Hlt Hfresh]. split; [lia | exact Hfresh].
Qed.

Lemma KeepsClients_sendMessage (chat : handle) (message : Message) :
  KeepsClients (await (SendMessage chat message)).
Proof.
  intros w rt [[Hclosed Hclient] Hused]. unfold clientsInOrder, clientInUse.
  cbn [await run]. case_answer; trace_simpl; rewrite Hused; auto.
Qed.

Lemma KeepsClients_ensureMCPConnection : KeepsClients ensureMCPConnection.
Proof.
  intros w rt Hrt. apply ensureMCPConnection_restores, clientsInOrder_handles, Hrt.
Qed.

Lemma KeepsClients_reconnectMCP : KeepsClients reconnectMCP.
Proof.
  intros w rt Hrt. apply reconnectMCP_restores, clientsInOrder_handles, Hrt.
Qed.

(** The [try] of one turn of the loop: the invocation goes to the client
    installed, which is in use. *)
Lemma KeepsClients_invocation (toolName : string) (args : JsValue) :
  KeepsClients
    (s <- getThis ;;
     match mcpClient s return prog (option ToolResult) with
     | Some client =>
         result <- await (CallTool client toolName args) ;;
         Ret (Some result)
     | None => Throw (JsError "MCP client not initialized")
     end).
Proof.
  intros w rt [[Hclosed Hclient] Hused]. unfold clientsInOrder, clientInUse.
  run_simpl. destruct (mcpClient (this rt)) as [client|] eqn:Hc; run_simpl;
    [|cbn [fst]; rewrite Hc; split; [split|]; auto; discriminate].
  destruct (Hclient client eq_refl) as [Hlt Hfresh].
  assert (Hex : existsb (Nat.eqb client) (closedAfter [] (trace rt)) = false)
    by (apply notIn_existsb; exact Hfresh).
  case_answer; trace_simpl; rewrite Hc, Hused, Hex; (split; [split|]); auto.
Qed.

Create HintDb clients.
#[local] Hint Resolve KeepsClients_ret KeepsClients_throw KeepsClients_say
  KeepsClients_getThis KeepsClients_today KeepsClients_pushHistory
  KeepsClients_newChat KeepsClients_sendMessage KeepsClients_reconnectMCP : clients.

Ltac clients :=
  repeat (first
    [ solve [auto with clients]
    | match goal with
      | |- KeepsClients (await (SendMessage ?c ?m)) =>
          exact (KeepsClients_sendMessage c m)
      end
    | apply KeepsClients_bind; [|intros]
    | apply KeepsClients_tryCatch; [|intros]
    | apply KeepsClients_modify; intros; reflexivity
    | progress (cbv zeta)
    | match goal with
      | |- KeepsClients (match ?x with _ => _ end) => destruct x
      | |- KeepsClients (if ?x then _ else _) => destruct x
      end ]).

Lemma KeepsClients_callToolAttempt (toolName : string) (args : JsValue)
    (maxRetries attempt : Z) :
  KeepsClients (callToolAttempt toolName args maxRetries attempt).
Proof.
  unfold callToolAttempt. apply KeepsClients_tryCatch.
  - apply KeepsClients_invocation.
  - intros error. clients.
Qed.

Lemma KeepsClients_callToolWithRetry (toolName : string) (args : JsValue)
    (maxRetries : Z) :
  KeepsClients (callToolWithRetry toolName args maxRetries).
Proof.
  unfold callToolWithRetry. generalize 0 as attempt.
  induction (Z.to_nat (maxRetries + 1)) as [|fuel IH]; intros attempt;
    cbn [callToolLoop]; [apply KeepsClients_throw|].
  destruct (attempt <=? maxRetries); [|apply KeepsClients_throw].
  apply KeepsClients_bind.
  - apply KeepsClients_callToolAttempt.
  - intros [result|]; [apply KeepsClients_ret | apply IH].
Qed.
#[local] Hint Resolve KeepsClients_callToolWithRetry : clients.

Lemma KeepsClients_executeFunctionCalls (calls : list FunctionCall) :
  forall acc, KeepsClients (executeFunctionCalls calls acc).
Proof.
  induction calls as [|call calls IH]; intros acc; cbn [executeFunctionCalls];
    unfold executeFunctionCall; clients.
Qed.
#[local] Hint Resolve KeepsClients_executeFunctionCalls : clients.

Lemma KeepsClients_handleModelResponse (result : ModelResponse) (chat : option handle) :
  KeepsClients (handleModelResponse result chat).
Proof.
  unfold handleModelResponse, followUpMessage. clients.
Qed.
#[local] Hint Resolve KeepsClients_handleModelResponse : clients.

Lemma KeepsClients_processUserInput (userInput : string) :
  KeepsClients (processUserInput userInput).
Proof.
  unfold processUserInput, createSystemPrompt. clients.
Qed.

Lemma KeepsClients_testTaskFinding : KeepsClients testTaskFinding.
Proof. unfold testTaskFinding. clients. Qed.

End ClientFacts.

(** X21. Run one after the other, the programs never invoke a tool on
    a client they have closed: from a state in which the installed client
    has not been closed, a tool call with its retries, a whole turn, the
    test sequence and a fresh connection leave a trace with no invocation
    on a closed client, and a state of the same kind. *)
Theorem no_tool_call_on_closed_client :
  forall (w : World) (rt : Runtime),
    clientsInOrder rt ->
    (forall toolName args maxRetries,
        clientsInOrder (fst (run w (callToolWithRetry toolName args maxRetries) rt)))
    /\ (forall userInput,
          clientsInOrder (fst (run w (processUserInput userInput) rt)))
    /\ clientsInOrder (fst (run w testTaskFinding rt))
    /\ clientsInOrder (fst (run w ensureMCPConnection rt)).
Proof.
  intros w rt Hrt. split; [|split; [|split]].
  - intros toolName args maxRetries.
    exact (ClientFacts.KeepsClients_callToolWithRetry toolName args maxRetries w rt Hrt).
  - intros userInput.
    exact (ClientFacts.KeepsClients_processUserInput userInput w rt Hrt).
  - exact (ClientFacts.KeepsClients_testTaskFinding w rt Hrt).
  - exact (ClientFacts.KeepsClients_ensureMCPConnection w rt Hrt).
Qed.

Lemma no_tool_call_on_closed_client_witness :
  invokesClosed []
    (trace (fst (run (flakyWorld 2 (JsError "HTTP 404") twoTasks plainReply)
                     (callToolWithRetry "find-tasks" todayArgs 2) connectedRuntime)))
  = false.
Proof.
  assert (Hboot : clientsInOrder connectedRuntime).
  { split; [split|reflexivity].
    - intros c [].
    - intros c Hc. injection Hc as <-. split; [cbn; lia | intros []]. }
  destruct (no_tool_call_on_closed_client
              (flakyWorld 2 (JsError "HTTP 404") twoTasks plainReply)
              connectedRuntime Hboot) as [Hcall _].
  exact (proj2 (Hcall "find-tasks" todayArgs 2)).
Defined.

(** The guarantee is one of programs run one after the other.  On the
    console [test] runs beside a turn, and a call of the turn can then go
    to the client that the test is closing. *)
Remark test_beside_turn_invokes_closing_client :
  invokesClosed []
    (trace (m_runtime
              (exec Str.ofZ [Line "test"; Line "Close task 42";
                             Settle 1 (allFine batchResponse);
                             Settle 0 (allFail (JsError "connection lost"));
                             Settle 0 (allFine batchResponse)] bootMachine)))
  = true.
Proof. vm_compute. reflexivity. Qed.

(** ** What stops the console *)

Module QuietFacts.
Local Open Scope prog_scope.

Lemma NoExit_bind (A B : Type) (p : prog A) (f : A -> prog B) :
  NoExit p -> (forall a, NoExit (f a)) -> NoExit (bind p f).
Proof.
  intros Hp Hf. induction Hp; cbn [bind]; try constructor; auto.
Qed.

Lemma NoExit_tryCatch (A : Type) (p : prog A) (h : thrown -> prog A) :
  NoExit p -> (forall e, NoExit (h e)) -> NoExit (tryCatch p h).
Proof.
  intros Hp Hh. induction Hp; cbn [tryCatch]; try constructor; auto.
Qed.

Lemma Quiet_NoExit (A : Type) (p : prog A) : Quiet p -> NoExit p.
Proof. intros Hp. induction Hp; constructor; auto. Qed.

Lemma Quiet_bind (A B : Type) (p : prog A) (f : A -> prog B) :
  Quiet p -> (forall a, Quiet (f a)) -> Quiet (bind p f).
Proof.
  intros Hp Hf. induction Hp; cbn [bind]; try constructor; auto.
Qed.

(** A [catch] that is quiet makes the whole quiet, whatever the [try]
    throws. *)
Lemma Quiet_tryCatch (A : Type) (p : prog A) (h : thrown -> prog A) :
  NoExit p -> (forall e, Quiet (h e)) -> Quiet (tryCatch p h).
Proof.
  intros Hp Hh. induction Hp; cbn [tryCatch]; try constructor; auto.
Qed.

Lemma Quiet_tryFinally (A : Type) (p : prog A) (cleanup : prog unit) :
  Quiet p -> Quiet cleanup -> Quiet (tryFinally p cleanup).
Proof.
  intros Hp Hc. induction Hp; cbn [tryFinally]; try constructor; auto.
  apply Quiet_bind; [exact Hc|]. intros. constructor.
Qed.

Lemma NoExit_say (line : ConsoleLine) : NoExit (say line).
Proof. repeat constructor. Qed.

Lemma NoExit_getThis : NoExit getThis.
Proof. repeat constructor. Qed.

Lemma NoExit_construct (c : construction) : NoExit (construct c).
Proof. repeat constructor. Qed.

Lemma NoExit_today : NoExit today.
Proof. repeat constructor. Qed.

Lemma NoExit_await (r : request) : NoExit (await r).
Proof. constructor. intros [v|e]; constructor. Qed.

Lemma NoExit_modify (f : This -> This) : NoExit (modify f).
Proof. repeat constructor. Qed.

Lemma Quiet_say (line : ConsoleLine) : Quiet (say line).
Proof. repeat constructor. Qed.

Lemma Quiet_modify (f : This -> This) : Quiet (modify f).
Proof. repeat constructor. Qed.

Create HintDb quiet.
#[local] Hint Resolve NoExit_say NoExit_getThis NoExit_construct NoExit_today
  NoExit_await NoExit_modify NE_ret NE_throw Quiet_say Quiet_modify QT_ret : quiet.

Ltac noexit :=
  repeat (first
    [ solve [auto with quiet]
    | match goal with
      | |- NoExit (await ?r) => exact (NoExit_await r)
      end
    | apply NoExit_bind; [|intros]
    | apply NoExit_tryCatch; [|intros]
    | progress (cbv zeta)
    | match goal with
      | |- NoExit (match ?x with _ => _ end) => destruct x
      | |- NoExit (if ?x then _ else _) => destruct x
      end ]).

Lemma NoExit_reconnectMCP : NoExit reconnectMCP.
Proof.
  unfold reconnectMCP, closeClientQuietly, closeTransportQuietly, ensureMCPConnection.
  noexit.
Qed.
#[local] Hint Resolve NoExit_reconnectMCP : quiet.

Lemma NoExit_callToolWithRetry (toolName : string) (args : JsValue) (maxRetries : Z) :
  NoExit (callToolWithRetry toolName args maxRetries).
Proof.
  unfold callToolWithRetry. generalize 0 as attempt.
  induction (Z.to_nat (maxRetries + 1)) as [|fuel IH]; intros attempt;
    cbn [callToolLoop]; unfold callToolAttempt; noexit.
Qed.
#[local] Hint Resolve NoExit_callToolWithRetry : quiet.

Lemma NoExit_executeFunctionCalls (calls : list FunctionCall) :
  forall acc, NoExit (executeFunctionCalls calls acc).
Proof.
  induction calls as [|call calls IH]; intros acc; cbn [executeFunctionCalls];
    unfold executeFunctionCall; noexit.
Qed.
#[local] Hint Resolve NoExit_executeFunctionCalls : quiet.

Lemma NoExit_handleModelResponse (result : ModelResponse) (chat : option handle) :
  NoExit (handleModelResponse result chat).
Proof.
  unfold handleModelResponse, followUpMessage, pushHistory. noexit.
Qed.
#[local] Hint Resolve NoExit_handleModelResponse : quiet.

Lemma NoExit_processUserInput (userInput : string) :
  NoExit (processUserInput userInput).
Proof.
  unfold processUserInput, createSystemPrompt, pushHistory. noexit.
Qed.
#[local] Hint Resolve NoExit_processUserInput : quiet.

(** The test sequence is all inside one [try]. *)
Lemma Quiet_testTaskFinding : Quiet testTaskFinding.
Proof.
  unfold testTaskFinding. apply Quiet_bind; [apply Quiet_say | intros _].
  apply Quiet_tryCatch; [noexit | intros; apply Quiet_say].
Qed.

(** Every line but [exit] and [quit] is handled quietly. *)
Lemma Quiet_onLine (input : string) :
  isExitLine (Line input) = false -> Quiet (onLine input).
Proof.
  unfold isExitLine, onLine, guardedTurn, clearConversationHistory.
  destruct (classify input); intros Hexit; try discriminate.
  - apply Quiet_say.
  - repeat constructor.
  - repeat constructor.
  - apply Quiet_bind; [apply Quiet_testTaskFinding | intros; apply Quiet_say].
  - constructor. intros s. destruct (isProcessingRequest s); [repeat constructor|].
    apply Quiet_bind; [|intros; apply Quiet_say].
    apply Quiet_tryFinally; [|apply Quiet_modify].
    apply Quiet_tryCatch; [noexit | intros; apply Quiet_say].
Qed.

Lemma runSync_quiet (day : Z -> string) (p : prog unit) :
  Quiet p ->
  forall rt,
    match snd (runSync day p rt) with
    | Finished => True
    | Blocked r k => forall o, Quiet (k o)
    | Crashed _ | Halted => False
    end.
Proof.
  intros Hp. induction Hp as [a | k _ IH | f k _ IH | line k _ IH | c k _ IH
                              | k _ IH | r k Hk _];
    intros rt; cbn [runSync fst snd]; auto; apply IH.
Qed.

Lemma settleInto_quiet (day : Z -> string) (input : string) (others : list Task)
    (p : prog unit) (rt : Runtime) :
  Quiet p ->
  (forall t, In t others -> forall o, Quiet (task_resume t o)) ->
  tasksQuiet (settleInto input others (runSync day p rt))
  /\ m_exited (settleInto input others (runSync day p rt)) = false.
Proof.
  intros Hp Hothers. pose proof (runSync_quiet day p Hp rt) as Hk.
  unfold tasksQuiet.
  destruct (runSync day p rt) as [rt' [ | e | | r k]];
    cbn [fst snd settleInto m_tasks m_exited] in *; try contradiction;
    (split; [|reflexivity]); auto.
  intros t Hin o. apply in_app_or in Hin. destruct Hin as [Hin | [<- | []]].
  - exact (Hothers t Hin o).
  - apply Hk.
Qed.

Lemma step_quiet (day : Z -> string) (e : event) (m : Machine) :
  isExitLine e = false ->
  tasksQuiet m ->
  m_exited m = false ->
  tasksQuiet (step day e m) /\ m_exited (step day e m) = false.
Proof.
  intros He Hinv Hlive. unfold step. rewrite Hlive.
  destruct e as [input | i outcome].
  - apply settleInto_quiet; [apply Quiet_onLine; exact He | exact Hinv].
  - destruct (nth_error (m_tasks m) i) as [t|] eqn:Hnth; [|split; assumption].
    apply settleInto_quiet.
    + apply Hinv. exact (nth_error_In _ _ Hnth).
    + intros t' Hin. apply Hinv. exact (GuardFacts.In_removeAt _ _ _ _ Hin).
Qed.

End QuietFacts.

(** X22. Whatever the model, the tools and the connection answer, and
    in whatever order, the console goes on: no handler lets an error
    escape, and as long as no line reads [exit] or [quit] the process is
    not ended. *)
Theorem console_stops_only_on_exit :
  forall (day : Z -> string) (events : list event) (m : Machine),
    m_tasks m = [] ->
    m_exited m = false ->
    forallb (fun e => negb (isExitLine e)) events = true ->
    m_exited (exec day events m) = false.
Proof.
  intros day events m Hboot.
  assert (Hinv : tasksQuiet m) by (unfold tasksQuiet; rewrite Hboot; intros t []).
  clear Hboot. revert m Hinv.
  induction events as [|e events IH]; intros m Hinv Hlive Hevents;
    cbn [exec forallb] in *; [exact Hlive|].
  apply andb_true_iff in Hevents. destruct Hevents as [He Hrest].
  apply negb_true_iff in He.
  destruct (QuietFacts.step_quiet day e m He Hinv Hlive) as [Hinv' Hlive'].
  exact (IH _ Hinv' Hlive' Hrest).
Qed.

Lemma console_stops_only_on_exit_witness :
  m_exited (exec Str.ofZ [Line "What is due today?";
                          Settle 0 (allFail (JsError "fetch failed"));
                          Line "test";
                          Settle 0 (allFail (JsError "connection lost"))]
                 bootMachine)
  = false.
Proof.
  apply (console_stops_only_on_exit Str.ofZ
           [Line "What is due today?";
            Settle 0 (allFail (JsError "fetch failed"));
            Line "test";
            Settle 0 (allFail (JsError "connection lost"))] bootMachine);
    reflexivity.
Defined.

(** ** Start-up *)

(** X17. [validateEnvironment] lets the program go on exactly when both
    variables are set to a string that is not empty, and then prints
    nothing and returns the two values.  Otherwise it ends the process
    with code 1 after naming one variable, the Gemini key first: when
    both are missing, the Todoist token is not mentioned. *)
Theorem validateEnvironment_accepts_iff_both_set :
  forall env : Config.Environment,
    (forall output config,
        Config.validateEnvironment env = (output, Config.Proceeds config)
        <-> output = []
            /\ Config.GEMINI_API_KEY env = Some (Config.geminiApiKey config)
            /\ Config.geminiApiKey config <> ""
            /\ Config.TODOIST_API_TOKEN env = Some (Config.todoistApiToken config)
            /\ Config.todoistApiToken config <> "")
    /\ (forall output code,
          Config.validateEnvironment env = (output, Config.ProcessExit code) ->
          code = 1
          /\ exists name rest,
               output
               = Config.ConsoleError
                   ("Missing required environment variable: " ++ name)%string :: rest
               /\ (forall other,
                      In (Config.ConsoleError other) rest -> False)
               /\ ((name = "GEMINI_API_KEY"
                    /\ Config.truthyValue (Config.GEMINI_API_KEY env) = None)
                   \/ (name = "TODOIST_API_TOKEN"
                       /\ Config.truthyValue (Config.GEMINI_API_KEY env) <> None
                       /\ Config.truthyValue (Config.TODOIST_API_TOKEN env) = None))).
Proof.
  intros [gemini todoist]. unfold Config.validateEnvironment, Config.truthyValue.
  cbn [Config.GEMINI_API_KEY Config.TODOIST_API_TOKEN]. split.
  - intros output [g t]. cbn [Config.geminiApiKey Config.todoistApiToken].
    destruct gemini as [g0|]; [destruct (String.eqb_spec g0 "") as [-> | Hg]|];
      try (split; [discriminate | intros (_ & H1 & H2 & _); congruence]).
    destruct todoist as [t0|]; [destruct (String.eqb_spec t0 "") as [-> | Ht]|];
      try (split; [discriminate | intros (_ & _ & _ & H1 & H2); congruence]).
    split.
    + intros H. injection H as <- <- <-. repeat split; assumption.
    + intros (-> & H1 & _ & H2 & _). congruence.
  - intros output code.
    destruct gemini as [g0|]; [destruct (String.eqb_spec g0 "") as [-> | Hg]|].
    2: destruct todoist as [t0|]; [destruct (String.eqb_spec t0 "") as [-> | Ht]|].
    all: intros H; try discriminate H; injection H as <- <-; (split; [reflexivity|]);
      eexists _, _; (split; [reflexivity|]);
      (split; [intros other Hin; cbn [In] in Hin;
               repeat (destruct Hin as [Hin | Hin]; [discriminate Hin|]); exact Hin|]);
      first [left; split; reflexivity
            | right; split; [reflexivity|]; split; [discriminate | reflexivity]].
Qed.
Lemma validateEnvironment_accepts_iff_both_set_witness :
  Config.validateEnvironment (Config.mkEnvironment (Some "key") (Some "token"))
  = ([], Config.Proceeds (Config.mkAppConfig "key" "token")).
Proof.
  apply (validateEnvironment_accepts_iff_both_set
           (Config.mkEnvironment (Some "key") (Some "token"))).
  repeat split; discriminate.
Defined.


(** X18. [initialize] followed by [startChat]: the start-up fails with the
    error of the connection or of the listing when one of them is
    rejected, and with [No MCP tools available] when the server lists no
    tool; otherwise it succeeds, the catalog holds the listed tools and
    the prompt is shown last.  The two other checks of [startChat] cannot
    fail once [initialize] has returned. *)
Theorem startup_succeeds_iff_tools_listed :
  forall (w : World) (rt : Runtime),
    let transport := nextHandle rt in
    let client := S transport in
    exists rt' c,
      run w (components <- initialize newComponents ;; startChat components) rt
      = (rt', c)
      /\ match answer w (Connect client transport) (reconnects rt) with
         | Rejected error => c = Raised error
         | Fulfilled _ =>
             match answer w (ListTools client) (listings rt) with
             | Rejected error => c = Raised error
             | Fulfilled [] =>
                 c = Raised (JsError "No MCP tools available - connection may be invalid")
             | Fulfilled (tool :: tools) =>
                 c = Returned tt
                 /\ availableTools (this rt') = map adoptTool (tool :: tools)
                 /\ exists before, console rt' = before ++ [Prompt]
             end
         end.
Proof.
  intros w rt transport client. subst transport client.
  unfold initialize, initializeGemini, initializeMCP, setupConsoleInterface, startChat,
    ensureMCPConnection, reconnects, listings.
  run_simpl.
  destruct (answer w (Connect (S (nextHandle rt)) (nextHandle rt))
              (occurrences KConnect (trace rt))) as [u | e]; run_simpl.
  - destruct (answer w (ListTools (S (nextHandle rt)))
                (occurrences KListTools (trace rt))) as [[|tool tools] | e]; run_simpl;
      cbn [rl model geminiAI negb orb isNull map List.length Nat.eqb]; run_simpl;
      eexists _, _; (split; [reflexivity|]); try reflexivity.
    split; [reflexivity|]. split; [reflexivity|].
    cbn [console printed]. eexists. reflexivity.
  - eexists _, _. split; reflexivity.
Qed.
Lemma startup_succeeds_iff_tools_listed_witness :
  exists rt',
    run (flakyWorld 0 (JsError "HTTP 404") twoTasks plainReply)
        (components <- initialize newComponents ;; startChat components)
        (mkRuntime newThis [] 0%nat [])
    = (rt', Returned tt)
    /\ availableTools (this rt') = [mkMCPTool "find-tasks" "" sampleSchema].
Proof.
  destruct (startup_succeeds_iff_tools_listed
              (flakyWorld 0 (JsError "HTTP 404") twoTasks plainReply)
              (mkRuntime newThis [] 0%nat []))
    as (rt' & c & Hrun & Hc).
  cbn in Hc. destruct Hc as (-> & Htools & _).
  exists rt'. split; [exact Hrun | exact Htools].
Defined.


(** ** The REST client and the transport *)

(** X19. [testConnection] never rejects.  It makes one request, for the
    projects, with the bearer token, and answers [true] exactly when the
    response is [ok] and, when it announces JSON, its body can be read
    as JSON. *)
Theorem testConnection_true_iff_reachable :
  forall (net : Http.Net) (apiToken : string),
    let url := (Rest.baseUrl ++ "/projects")%string in
    let init := Http.mkRequestInit None
                  [("Authorization", ("Bearer " ++ apiToken)%string);
                   ("Content-Type", "application/json")] None in
    exists connected,
      Http.perform net (Rest.testConnection apiToken)
      = ([Http.Fetched url init], Fulfilled connected)
      /\ (connected = true
          <-> exists response,
                Http.respond net url init = Fulfilled response
                /\ Http.resp_ok response = true
                /\ (Http.mentionsJson (Http.resp_contentType response) = true ->
                    exists body, Http.resp_json response = Fulfilled body)).
Proof.
  intros net apiToken url init. subst url init.
  unfold Rest.testConnection, Rest.getProjects, Rest.makeRequest, Rest.noOptions,
    Http.fetch.
  cbn [Http.init_method Http.init_headers Http.init_body Http.spread fold_left
       Http.andThen Http.orCatch Http.perform].
  destruct (Http.respond net _ _) as [response | e] eqn:Hfetch;
    cbn [Http.settle Http.andThen Http.orCatch Http.perform].
  2:{ exists false. split; [reflexivity|]. split; [discriminate|].
      intros (response & H & _). discriminate H. }
  destruct (Http.resp_ok response) eqn:Hok; cbn [negb].
  - destruct (Http.mentionsJson (Http.resp_contentType response)) eqn:Hjson.
    + destruct (Http.resp_json response) as [body | e] eqn:Hbody;
        cbn [Http.settle Http.andThen Http.orCatch Http.perform].
      * exists true. split; [reflexivity|]. split; [|reflexivity].
        intros _. exists response. repeat split; eauto.
      * exists false. split; [reflexivity|]. split; [discriminate|].
        intros (response' & H & _ & Hb). injection H as <-.
        destruct (Hb Hjson) as [body Hbody']. congruence.
    + cbn [Http.andThen Http.orCatch Http.perform].
      exists true. split; [reflexivity|]. split; [|reflexivity].
      intros _. exists response. repeat split; auto. intros H. congruence.
  - destruct (Http.resp_text response) as [errorText | e];
      cbn [Http.settle Http.andThen Http.orCatch Http.perform];
      (exists false; split; [reflexivity|]; split; [discriminate|];
       intros (response' & H & Hok' & _); injection H as <-; congruence).
Qed.
Lemma testConnection_true_iff_reachable_witness :
  exists events,
    Http.perform
      (Http.mkNet
         (fun _ _ => Fulfilled (Http.mkHttpResponse true 204 None (Fulfilled "")
                                  (Rejected (JsError "Unexpected end of JSON input"))))
         (fun _ => None))
      (Rest.testConnection "token")
    = (events, Fulfilled true).
Proof.
  destruct (testConnection_true_iff_reachable
              (Http.mkNet
                 (fun _ _ => Fulfilled (Http.mkHttpResponse true 204 None (Fulfilled "")
                                          (Rejected (JsError "Unexpected end of JSON input"))))
                 (fun _ => None))
              "token")
    as (connected & Hrun & Hiff).
  eexists. rewrite Hrun. f_equal. f_equal. apply Hiff.
  eexists. split; [reflexivity|]. split; [reflexivity|]. discriminate.
Defined.


(** X20. [send] posts the message once, with the bearer token.  Without
    an error handler it resolves whatever happens; with one, it rejects
    only when that handler throws.  The message handler is called only
    with the JSON body of an [ok] response, and a response that is not
    [ok] is reported as [HTTP <status>: <body>]. *)
Theorem send_reports_failures_to_error_handler :
  forall (net : Http.Net) (t : Transport.TodoistMCPTransport) (message : JsValue),
    let init := Http.mkRequestInit (Some "POST")
                  [("Authorization", ("Bearer " ++ Transport.token t)%string);
                   ("Content-Type", "application/json")] (Some message) in
    exists calls outcome,
      Http.perform net (Transport.send t message)
      = (Http.Fetched (Transport.url t) init :: map Http.Called calls, outcome)
      /\ (Transport.onError t = false -> outcome = Fulfilled tt)
      /\ (forall error,
            outcome = Rejected error ->
            exists reported,
              In (Http.OnError reported) calls
              /\ Http.handlerThrows net (Http.OnError reported) = Some error)
      /\ (forall data,
            In (Http.OnMessage data) calls ->
            Transport.onMessage t = true
            /\ exists response,
                 Http.respond net (Transport.url t) init = Fulfilled response
                 /\ Http.resp_ok response = true
                 /\ Http.resp_json response = Fulfilled data)
      /\ (forall response errorText,
            Http.respond net (Transport.url t) init = Fulfilled response ->
            Http.resp_ok response = false ->
            Http.resp_text response = Fulfilled errorText ->
            Transport.onError t = true ->
            calls = [Http.OnError
                       (JsError ("HTTP " ++ Str.ofZ (Http.resp_status response)
                                 ++ ": " ++ errorText)%string)]).
Proof.
  intros net t message init. subst init.
  unfold Transport.send, Http.fetch, Http.notify.
  cbn [Http.andThen Http.orCatch Http.perform].
  destruct (Http.respond net _ _) as [response | e] eqn:Hfetch;
    cbn [Http.settle Http.andThen Http.orCatch Http.perform].
  2:{ destruct (Transport.onError t) eqn:Herr;
        cbn [Http.andThen Http.orCatch Http.perform].
      - destruct (Http.handlerThrows net (Http.OnError e)) as [e'|] eqn:Hthrows;
          cbn [Http.perform];
          (exists [Http.OnError e]; eexists; split; [reflexivity|];
           split; [discriminate|]; split;
           [intros error H; first [discriminate H | injection H as <-; exists e; split; [left; reflexivity | exact Hthrows]]|];
           split; [intros data [H | []]; discriminate H|];
           intros response errorText H; discriminate H).
      - exists []; eexists; split; [reflexivity|].
        split; [reflexivity|]. split; [intros error H; discriminate H|].
        split; [intros data []|]. intros response errorText H; discriminate H. }
  destruct (Http.resp_ok response) eqn:Hok; cbn [negb Http.andThen Http.orCatch].
  - destruct (Http.resp_json response) as [data | e] eqn:Hjson;
      cbn [Http.settle Http.andThen Http.orCatch].
    + destruct (Transport.onMessage t) eqn:Hmsg; cbn [Http.andThen Http.orCatch Http.perform].
      * destruct (Http.handlerThrows net (Http.OnMessage data)) as [e|] eqn:Hm;
          cbn [Http.perform Http.orCatch].
        -- destruct (Transport.onError t) eqn:Herr; cbn [Http.perform].
           ++ destruct (Http.handlerThrows net (Http.OnError e)) as [e'|] eqn:Hthrows;
                cbn [Http.perform];
                (exists [Http.OnMessage data; Http.OnError e]; eexists;
                 split; [reflexivity|]; split; [discriminate|]; split;
                 [intros error H; first [discriminate H | injection H as <-; exists e; split; [right; left; reflexivity | exact Hthrows]]|];
                 split;
                 [intros data' [H | [H | []]];
                  first [discriminate H
                        | injection H as <-; split; [reflexivity|];
                          exists response; auto]|];
                 intros response' errorText H; injection H as <-; congruence).
           ++ exists [Http.OnMessage data]; eexists. split; [reflexivity|].
              split; [reflexivity|]. split; [intros error H; discriminate H|].
              split; [intros data' [H | []]; injection H as <-;
                      split; [reflexivity|]; exists response; auto|].
              intros response' errorText H; injection H as <-; congruence.
        -- exists [Http.OnMessage data]; eexists. split; [reflexivity|].
           split; [reflexivity|]. split; [intros error H; discriminate H|].
           split; [intros data' [H | []]; injection H as <-;
                   split; [reflexivity|]; exists response; auto|].
           intros response' errorText H; injection H as <-; congruence.
      * exists []; eexists. split; [reflexivity|].
        split; [reflexivity|]. split; [intros error H; discriminate H|].
        split; [intros data' []|].
        intros response' errorText H; injection H as <-; congruence.
    + destruct (Transport.onError t) eqn:Herr; cbn [Http.perform].
      * destruct (Http.handlerThrows net (Http.OnError e)) as [e'|] eqn:Hthrows;
          cbn [Http.perform];
          (exists [Http.OnError e]; eexists; split; [reflexivity|];
           split; [discriminate|]; split;
           [intros error H; first [discriminate H | injection H as <-; exists e; split; [left; reflexivity | exact Hthrows]]|];
           split; [intros data [H | []]; discriminate H|];
           intros response' errorText H; injection H as <-; congruence).
      * exists []; eexists. split; [reflexivity|].
        split; [reflexivity|]. split; [intros error H; discriminate H|].
        split; [intros data' []|].
        intros response' errorText H; injection H as <-; congruence.
  - destruct (Http.resp_text response) as [errorText | e] eqn:Htext;
      cbn [Http.settle Http.andThen Http.orCatch];
      (destruct (Transport.onError t) eqn:Herr; cbn [Http.perform];
       [ match goal with
         | |- context [Http.handlerThrows net (Http.OnError ?x)] =>
             destruct (Http.handlerThrows net (Http.OnError x)) as [e'|] eqn:Hthrows;
             cbn [Http.perform];
             (exists [Http.OnError x]; eexists; split; [reflexivity|];
              split; [discriminate|]; split;
              [intros error H; first [discriminate H | injection H as <-; exists x; split; [left; reflexivity | exact Hthrows]]|];
              split; [intros data [H | []]; discriminate H|];
              intros response' errorText' H Hok' Htext' _; injection H as <-;
              congruence)
         end
       | exists []; eexists; split; [reflexivity|];
         split; [reflexivity|]; split; [intros error H; discriminate H|];
         split; [intros data' []|];
         intros response' errorText' H _ _ Hc; discriminate Hc ]).
Qed.
Lemma send_reports_failures_to_error_handler_witness :
  exists calls,
    Http.perform
      (Http.mkNet
         (fun _ _ => Fulfilled (Http.mkHttpResponse false 404 None (Fulfilled "Not Found")
                                  (Rejected (JsError "Unexpected token"))))
         (fun _ => None))
      (Transport.send (Transport.mkTransport "https://ai.todoist.net/mcp" "token"
                         true false true)
                      (JObj [("method", JStr "tools/list")]))
    = (Http.Fetched "https://ai.todoist.net/mcp"
         (Http.mkRequestInit (Some "POST")
            [("Authorization", "Bearer token"); ("Content-Type", "application/json")]
            (Some (JObj [("method", JStr "tools/list")])))
       :: map Http.Called calls,
       Fulfilled tt)
    /\ calls = [Http.OnError (JsError "HTTP 404: Not Found")].
Proof.
  destruct (send_reports_failures_to_error_handler
              (Http.mkNet
                 (fun _ _ => Fulfilled (Http.mkHttpResponse false 404 None
                                          (Fulfilled "Not Found")
                                          (Rejected (JsError "Unexpected token"))))
                 (fun _ => None))
              (Transport.mkTransport "https://ai.todoist.net/mcp" "token" true false true)
              (JObj [("method", JStr "tools/list")]))
    as (calls & outcome & Hrun & _ & _ & _ & Hreport).
  exists calls. split.
  - rewrite Hrun. f_equal.
    rewrite (Hreport _ "Not Found" eq_refl eq_refl eq_refl eq_refl) in Hrun.
    vm_compute in Hrun. injection Hrun as <-. reflexivity.
  - exact (Hreport _ "Not Found" eq_refl eq_refl eq_refl eq_refl).
Defined.

